(** * Response Rate Limiting (package rrl): a shallow embedding and its properties

    The development follows the Go sources of the package: [config.go]
    (configuration record, [SetValue], [finalize]), [rrl.go] ([NewRRL],
    [debit], [addrPrefix], token construction), [debit.go] ([Debit]) and
    the statistics file ([incrementDebit], [Copy]).

    Go's [int64] is embedded as [Z] with the two's complement wrap-around
    written out ([wrap64]); [uint], [uint8] and [uint16] values are
    embedded as [N]; Go strings are byte strings, embedded as [string]. *)

From Stdlib Require Import ZArith NArith List Ascii String Bool Lia.
From stdpp Require Import base option strings list gmap fin_maps.

Local Open Scope Z_scope.

(** ** Machine integers *)

Module Int64.

Definition min_int : Z := - 2 ^ 63.
Definition max_int : Z := 2 ^ 63 - 1.

(** The value an [int64] holds after an operation whose mathematical
    result is [z]. *)
Definition wrap64 (z : Z) : Z := (z + 2 ^ 63) mod 2 ^ 64 - 2 ^ 63.

Definition in_range (z : Z) : Prop := min_int <= z <= max_int.

Definition add (a b : Z) : Z := wrap64 (a + b).
Definition sub (a b : Z) : Z := wrap64 (a - b).
Definition neg (a : Z) : Z := wrap64 (- a).
Definition mul (a b : Z) : Z := wrap64 (a * b).

End Int64.

Import Int64.

(** [time.Second], and the constant [second] of config.go. *)
Definition second : Z := 1000000000.

(** ** The parts of Go's [strings] and [strconv] the package calls *)

Module GoStrings.

Definition is_upper (a : ascii) : bool :=
  let n := nat_of_ascii a in (65 <=? n)%nat && (n <=? 90)%nat.

Definition lower_ascii (a : ascii) : ascii :=
  if is_upper a then ascii_of_nat (nat_of_ascii a + 32) else a.

(** The loop of the fast path of [strings.ToLower]: every byte in
    [A-Z] is replaced by its lower-case letter. *)
Fixpoint lower_bytes (s : string) : string :=
  match s with
  | EmptyString => EmptyString
  | String a s' => String (lower_ascii a) (lower_bytes s')
  end.

(** Every byte of [s] is below [utf8.RuneSelf]. *)
Fixpoint isASCII (s : string) : bool :=
  match s with
  | EmptyString => true
  | String a s' => (N_of_ascii a <? 128)%N && isASCII s'
  end.

(** [strings.Map(unicode.ToLower, s)], which [strings.ToLower] calls
    for a string with a byte outside ASCII: it decodes the runes of
    [s], maps each through the case tables of package [unicode] and
    encodes the result. The tables are not embedded; the mapping is a
    parameter, and nothing is assumed about it. *)
Class UnicodeLower := map_ToLower : string -> string.

(** [strings.ToLower]: a string of ASCII bytes takes the fast path and
    is lowered byte by byte; any other string is mapped rune by
    rune. *)
Definition ToLower `{U : UnicodeLower} (s : string) : string :=
  if isASCII s then lower_bytes s else map_ToLower s.

(** [strings.HasPrefix s prefix]: a byte-wise, case-sensitive test. *)
Definition HasPrefix (s prefix : string) : bool := String.prefix prefix s.

(** [strings.Join elems sep]. *)
Fixpoint Join (elems : list string) (sep : string) : string :=
  match elems with
  | [] => EmptyString
  | [e] => e
  | e :: rest => e +:+ sep +:+ Join rest sep
  end.

(** [strings.LastIndex s c] for a one-byte separator: the index of the
    last occurrence of [c] in [s], or [-1]. *)
Fixpoint last_index_from (i : Z) (c : ascii) (s : string) (acc : Z) : Z :=
  match s with
  | EmptyString => acc
  | String a s' =>
      last_index_from (i + 1) c s' (if Ascii.eqb a c then i else acc)
  end.

Definition LastIndex (s : string) (c : ascii) : Z :=
  last_index_from 0 c s (-1).

(** The slice expression [s[lo:hi]] for [0 <= lo <= hi <= len(s)]. *)
Definition slice (s : string) (lo hi : Z) : string :=
  String.substring (Z.to_nat lo) (Z.to_nat (hi - lo)) s.

End GoStrings.

Module strconv.

Inductive ErrKind := ErrSyntax | ErrRange.

(** [*strconv.NumError]. *)
Record NumError := { Func : string; Num : string; Err : ErrKind }.

Definition digit_of (a : ascii) : option Z :=
  let n := nat_of_ascii a in
  if (48 <=? n)%nat && (n <=? 57)%nat then Some (Z.of_nat n - 48) else None.

(** The digits of an unsigned decimal numeral, most significant first. *)
Fixpoint parse_digits (s : string) (acc : Z) : option Z :=
  match s with
  | EmptyString => Some acc
  | String a s' =>
      match digit_of a with
      | Some d => parse_digits s' (acc * 10 + d)
      | None => None
      end
  end.

(** [strconv.Atoi] on a platform whose [int] has 64 bits: an optional
    sign followed by at least one decimal digit; a value that does not
    fit is a range error. *)
Definition Atoi (s : string) : Z + NumError :=
  let syntax := inr {| Func := "Atoi"; Num := s; Err := ErrSyntax |} in
  let range := inr {| Func := "Atoi"; Num := s; Err := ErrRange |} in
  let '(negative, body) :=
    match s with
    | String "-" s' => (true, s')
    | String "+" s' => (false, s')
    | _ => (false, s)
    end in
  match body with
  | EmptyString => syntax
  | _ =>
      match parse_digits body 0 with
      | None => syntax
      | Some n =>
          let v := if negative then - n else n in
          if (min_int <=? v) && (v <=? max_int) then inl v else range
      end
  end.

(** Decimal digits of a natural number, for [FormatUint]. *)
Fixpoint format_digits (fuel : nat) (n : N) (acc : string) : string :=
  match fuel with
  | O => acc
  | S fuel' =>
      let d := ascii_of_N (48 + n mod 10)%N in
      let acc' := String d acc in
      if (n <? 10)%N then acc' else format_digits fuel' (n / 10)%N acc'
  end.

(** [strconv.FormatUint n 10]. *)
Definition FormatUint (n : N) : string :=
  format_digits (S (N.to_nat (N.log2 n))) n EmptyString.

(** What the package needs of [float64] and [strconv.ParseFloat]:
    floating point arithmetic is not embedded, the configuration code
    is stated over any implementation of these four operations. *)
Class Float64 := {
  float64 : Type;
  (** [strconv.ParseFloat arg 64] *)
  ParseFloat : string -> float64 + NumError;
  (** [rps < 0] *)
  is_negative : float64 -> bool;
  (** [rps == 0.0] *)
  is_zero : float64 -> bool;
  (** [int64(second / rps)] *)
  nanos_per : float64 -> Z
}.

(** The comparison [rps >= 0], which the package does not evaluate: it
    is the range of a rate in the configuration table of the
    specification. As in IEEE 754, no value is both below zero and at
    least zero; a NaN is neither. *)
Class RateRange `{F : Float64} := {
  at_least_zero : float64 -> bool;
  at_least_zero_not_negative :
    forall x, at_least_zero x = true -> is_negative x = false
}.

End strconv.

Import GoStrings.


(** ** The parts of Go's [net] the package calls

    [net.IP] and [net.IPMask] are byte slices, embedded as lists of
    bytes; the [nil] slice is the empty list (none of the functions used
    here tells them apart). *)

Module net.

Definition IP := list N.
Definition IPMask := list N.

Definition isNil (ip : list N) : bool :=
  match ip with [] => true | _ => false end.

Definition v4InV6Prefix : list N := [0; 0; 0; 0; 0; 0; 0; 0; 0; 0; 255; 255]%N.

Definition bytes_eqb (a b : list N) : bool := bool_decide (a = b).

Definition is_digit (a : ascii) : bool :=
  let n := nat_of_ascii a in (48 <=? n)%nat && (n <=? 57)%nat.

Definition digit_val (a : ascii) : N := (N_of_ascii a - 48)%N.

(** The loop of [parseIPv4Fields]: [first] says that the byte at hand
    is the first one, [prevdot] that the byte before it was a dot. *)
Fixpoint v4_fields (s : string) (first prevdot : bool)
    (val digLen : N) (fields : list N) : option (list N) :=
  match s with
  | EmptyString =>
      if (length fields <? 3)%nat then None else Some (fields ++ [val])
  | String c s' =>
      if is_digit c then
        if (digLen =? 1)%N && (val =? 0)%N then None
        else
          let val' := (val * 10 + digit_val c)%N in
          if (255 <? val')%N then None
          else v4_fields s' false false val' (digLen + 1)%N fields
      else if Ascii.eqb c "." then
        if first || (match s' with EmptyString => true | _ => false end) || prevdot
        then None
        else if (length fields =? 3)%nat then None
        else v4_fields s' false true 0%N 0%N (fields ++ [val])
      else None
  end.

Definition parseIPv4Fields (s : string) : option (list N) :=
  v4_fields s true false 0%N 0%N [].

Definition hex_val (a : ascii) : option N :=
  let n := N_of_ascii a in
  if (48 <=? n)%N && (n <=? 57)%N then Some (n - 48)%N
  else if (97 <=? n)%N && (n <=? 102)%N then Some (n - 97 + 10)%N
  else if (65 <=? n)%N && (n <=? 70)%N then Some (n - 65 + 10)%N
  else None.

(** One hexadecimal field of an IPv6 address: the value, the number of
    digits read and the rest of the text; [None] for a fifth digit. *)
Fixpoint hex_field (s : string) (acc : N) (off : nat) : option (N * nat * string) :=
  match s with
  | EmptyString => Some (acc, off, s)
  | String c s' =>
      match hex_val c with
      | Some d =>
          if (3 <? off)%nat then None
          else hex_field s' (acc * 16 + d)%N (S off)
      | None => Some (acc, off, s)
      end
  end.

Definition starts_with (c : ascii) (s : string) : bool :=
  match s with String a _ => Ascii.eqb a c | EmptyString => false end.

Definition tail_str (s : string) : string :=
  match s with String _ s' => s' | EmptyString => EmptyString end.

(** The field loop of [parseIPv6]: [ip] holds the bytes parsed so far
    (its length is the index [i] of the Go loop) and [ellipsis] the
    position of the double colon, if one was seen. The result is the
    bytes, the ellipsis and the text left over. *)
Fixpoint v6_fields (fuel : nat) (s : string) (ip : list N) (ellipsis : option nat)
    : option (list N * option nat * string) :=
  match fuel with
  | O => Some (ip, ellipsis, s)
  | S fuel' =>
      if (16 <=? length ip)%nat then Some (ip, ellipsis, s)
      else
        match hex_field s 0%N 0%nat with
        | None => None
        | Some (acc, off, rest) =>
            if (off =? 0)%nat then None
            else if starts_with "." rest then
              if (match ellipsis with None => true | Some _ => false end)
                 && negb (length ip =? 12)%nat then None
              else if (16 <? length ip + 4)%nat then None
              else
                match parseIPv4Fields s with
                | None => None
                | Some f => Some (ip ++ f, ellipsis, EmptyString)
                end
            else
              let ip' := ip ++ [N.shiftr acc 8; N.land acc 255]%N in
              match rest with
              | EmptyString => Some (ip', ellipsis, EmptyString)
              | String c rest1 =>
                  if negb (Ascii.eqb c ":") then None
                  else
                    match rest1 with
                    | EmptyString => None
                    | String c1 rest2 =>
                        if Ascii.eqb c1 ":" then
                          match ellipsis with
                          | Some _ => None
                          | None =>
                              match rest2 with
                              | EmptyString => Some (ip', Some (length ip'), EmptyString)
                              | _ => v6_fields fuel' rest2 ip' (Some (length ip'))
                              end
                          end
                        else v6_fields fuel' rest1 ip' ellipsis
                    end
              end
        end
  end.

Fixpoint contains_byte (c : ascii) (s : string) : bool :=
  match s with
  | EmptyString => false
  | String a s' => Ascii.eqb a c || contains_byte c s'
  end.

(** [parseIPv6] as [ParseIP] uses it: a text with a zone (a percent
    sign) is not accepted. *)
Definition parseIPv6 (s : string) : option (list N) :=
  if contains_byte "%" s then None
  else
    let '(s1, ellipsis0) :=
      if starts_with ":" s && starts_with ":" (tail_str s)
      then (tail_str (tail_str s), Some 0%nat)
      else (s, None) in
    match ellipsis0, s1 with
    | Some _, EmptyString => Some (replicate 16 0%N)
    | _, _ =>
        match v6_fields 9 s1 [] ellipsis0 with
        | None => None
        | Some (ip, ellipsis, rest) =>
            match rest with
            | String _ _ => None
            | EmptyString =>
                if (length ip <? 16)%nat then
                  match ellipsis with
                  | None => None
                  | Some e =>
                      Some (take e ip ++ replicate (16 - length ip) 0%N ++ drop e ip)
                  end
                else
                  match ellipsis with
                  | Some _ => None
                  | None => Some ip
                  end
            end
        end
    end.

(** The dispatch of [ParseIP] on the first dot, colon or percent sign. *)
Fixpoint parse_dispatch (whole rest : string) : IP :=
  match rest with
  | EmptyString => []
  | String c rest' =>
      if Ascii.eqb c "." then
        match parseIPv4Fields whole with
        | Some f => v4InV6Prefix ++ f
        | None => []
        end
      else if Ascii.eqb c ":" then
        match parseIPv6 whole with
        | Some ip => ip
        | None => []
        end
      else if Ascii.eqb c "%" then []
      else parse_dispatch whole rest'
  end.

(** [net.ParseIP]: the 16-byte form of the address, or [nil]. *)
Definition ParseIP (s : string) : IP := parse_dispatch s s.

(** [ip.To4()]. *)
Definition To4 (ip : IP) : IP :=
  if (length ip =? 4)%nat then ip
  else if (length ip =? 16)%nat
          && forallb (N.eqb 0) (take 10 ip)
          && bytes_eqb (take 2 (drop 10 ip)) [255; 255]%N
  then drop 12 ip
  else [].

(** The body of the loop of [CIDRMask]: [n] one bits are still to be
    written into [l] bytes. *)
Fixpoint mask_bytes (l : nat) (n : Z) : list N :=
  match l with
  | O => []
  | S l' =>
      if 8 <=? n then 255%N :: mask_bytes l' (n - 8)
      else N.lxor 255 (N.shiftr 255 (Z.to_N n)) :: mask_bytes l' 0
  end.

(** [net.CIDRMask ones bits]. *)
Definition CIDRMask (ones bits : Z) : IPMask :=
  if negb (bits =? 32) && negb (bits =? 128) then []
  else if (ones <? 0) || (bits <? ones) then []
  else mask_bytes (Z.to_nat (bits / 8)) ones.

(** [ip.Mask(mask)]. *)
Definition Mask (ip : IP) (mask : IPMask) : IP :=
  let mask1 :=
    if (length mask =? 16)%nat && (length ip =? 4)%nat
       && forallb (N.eqb 255) (take 12 mask)
    then drop 12 mask else mask in
  let ip1 :=
    if (length mask1 =? 4)%nat && (length ip =? 16)%nat
       && bytes_eqb (take 12 ip) v4InV6Prefix
    then drop 12 ip else ip in
  if negb (length ip1 =? length mask1)%nat then []
  else zip_with N.land ip1 mask1.

Definition hex_digit (d : N) : ascii :=
  if (d <? 10)%N then ascii_of_N (48 + d) else ascii_of_N (97 + d - 10).

Fixpoint hex_digits (fuel : nat) (n : N) (acc : string) : string :=
  match fuel with
  | O => acc
  | S fuel' =>
      let acc' := String (hex_digit (n mod 16)%N) acc in
      if (n <? 16)%N then acc' else hex_digits fuel' (n / 16)%N acc'
  end.

(** [appendHex]: lower-case hexadecimal without leading zeros. *)
Definition appendHex (n : N) : string :=
  hex_digits (S (N.to_nat (N.log2 n))) n EmptyString.

(** The eight 16-bit fields of a 16-byte address. *)
Fixpoint fields16 (ip : list N) : list N :=
  match ip with
  | hi :: lo :: rest => (hi * 256 + lo)%N :: fields16 rest
  | _ => []
  end.

Fixpoint zero_run (fs : list N) : nat :=
  match fs with
  | 0%N :: fs' => S (zero_run fs')
  | _ => 0%nat
  end.

(** The leftmost longest run of at least two zero fields, as start and
    end positions. *)
Fixpoint longest_zero_run (fs : list N) (i : nat) (best : option (nat * nat))
    : option (nat * nat) :=
  match fs with
  | [] => best
  | _ :: fs' =>
      let l := zero_run fs in
      let cur := match best with Some (s, e) => (e - s)%nat | None => 0%nat end in
      let best' :=
        if (2 <=? l)%nat && (cur <? l)%nat then Some (i, (i + l)%nat) else best in
      longest_zero_run fs' (S i) best'
  end.

Definition string6 (ip : list N) : string :=
  let fs := fields16 ip in
  match longest_zero_run fs 0 None with
  | Some (zs, ze) =>
      Join (map appendHex (take zs fs)) ":" +:+ "::"
        +:+ Join (map appendHex (drop ze fs)) ":"
  | None => Join (map appendHex fs) ":"
  end.

Definition byte_hex2 (b : N) : string :=
  String (hex_digit (b / 16)%N) (String (hex_digit (b mod 16)%N) EmptyString).

(** [ip.String()]: the text [<nil>] for an address of length 0,
    dotted decimal for an IPv4 address (4 bytes, or 16 bytes with the
    IPv4-in-IPv6 prefix), the RFC 5952 form for the other 16-byte
    addresses, and a question mark followed by the hexadecimal bytes
    for any other length. *)
Definition String (ip : IP) : string :=
  if (length ip =? 0)%nat then "<nil>"
  else if negb (length ip =? 4)%nat && negb (length ip =? 16)%nat
  then "?" +:+ Join (map byte_hex2 ip) EmptyString
  else
    let p4 := To4 ip in
    if (length p4 =? 4)%nat
    then Join (map strconv.FormatUint p4) "."
    else string6 ip.

End net.

(** ** Clocks

    A clock function ([func() time.Time]) is a closure that reads
    whatever it has captured; [World] is what such a closure can observe
    at the moment it is called: the system clock and a cell a caller may
    set (the [clock] variable of the package's tests). Times are carried
    as their [UnixNano] reading. *)

Record World := { wall_clock : Z; user_clock : Z }.

Definition Clock := World -> Z.

(** [time.Now]. *)
Definition time_Now : Clock := wall_clock.

(** ** config.go *)

(** The values of type [error] the package returns. *)
Inductive error :=
| ErrArgWrapped (keyword val : string) (t : strconv.NumError)
| ErrArgMessage (keyword val em : string)
| ErrUnknownKeyword (keyword : string)
| ErrShardFull
| ErrUnexpectedResult.

Record Config := {
  window : Z;

  ipv4PrefixLength : Z;
  ipv6PrefixLength : Z;

  responsesInterval : Z;
  nodataInterval : Z;
  nxdomainsInterval : Z;
  referralsInterval : Z;
  errorsInterval : Z;
  requestsInterval : Z;

  slipRatio : N;
  maxTableSize : Z;

  nodataIntervalSet : bool;
  nxdomainsIntervalSet : bool;
  referralsIntervalSet : bool;
  errorsIntervalSet : bool;

  nowFunc : option Clock
}.

(** Field assignments: [set_f v c] is the record after [c.f = v]. *)

Definition set_window (v : Z) (c : Config) : Config :=
  let '(Build_Config _ p4 p6 rs nd nx rf er rq sr mt ndS nxS rfS erS nf) := c in
  Build_Config v p4 p6 rs nd nx rf er rq sr mt ndS nxS rfS erS nf.

Definition set_ipv4PrefixLength (v : Z) (c : Config) : Config :=
  let '(Build_Config w _ p6 rs nd nx rf er rq sr mt ndS nxS rfS erS nf) := c in
  Build_Config w v p6 rs nd nx rf er rq sr mt ndS nxS rfS erS nf.

Definition set_ipv6PrefixLength (v : Z) (c : Config) : Config :=
  let '(Build_Config w p4 _ rs nd nx rf er rq sr mt ndS nxS rfS erS nf) := c in
  Build_Config w p4 v rs nd nx rf er rq sr mt ndS nxS rfS erS nf.

Definition set_responsesInterval (v : Z) (c : Config) : Config :=
  let '(Build_Config w p4 p6 _ nd nx rf er rq sr mt ndS nxS rfS erS nf) := c in
  Build_Config w p4 p6 v nd nx rf er rq sr mt ndS nxS rfS erS nf.

Definition set_nodataInterval (v : Z) (c : Config) : Config :=
  let '(Build_Config w p4 p6 rs _ nx rf er rq sr mt ndS nxS rfS erS nf) := c in
  Build_Config w p4 p6 rs v nx rf er rq sr mt ndS nxS rfS erS nf.

Definition set_nxdomainsInterval (v : Z) (c : Config) : Config :=
  let '(Build_Config w p4 p6 rs nd _ rf er rq sr mt ndS nxS rfS erS nf) := c in
  Build_Config w p4 p6 rs nd v rf er rq sr mt ndS nxS rfS erS nf.

Definition set_referralsInterval (v : Z) (c : Config) : Config :=
  let '(Build_Config w p4 p6 rs nd nx _ er rq sr mt ndS nxS rfS erS nf) := c in
  Build_Config w p4 p6 rs nd nx v er rq sr mt ndS nxS rfS erS nf.

Definition set_errorsInterval (v : Z) (c : Config) : Config :=
  let '(Build_Config w p4 p6 rs nd nx rf _ rq sr mt ndS nxS rfS erS nf) := c in
  Build_Config w p4 p6 rs nd nx rf v rq sr mt ndS nxS rfS erS nf.

Definition set_requestsInterval (v : Z) (c : Config) : Config :=
  let '(Build_Config w p4 p6 rs nd nx rf er _ sr mt ndS nxS rfS erS nf) := c in
  Build_Config w p4 p6 rs nd nx rf er v sr mt ndS nxS rfS erS nf.

Definition set_slipRatio (v : N) (c : Config) : Config :=
  let '(Build_Config w p4 p6 rs nd nx rf er rq _ mt ndS nxS rfS erS nf) := c in
  Build_Config w p4 p6 rs nd nx rf er rq v mt ndS nxS rfS erS nf.

Definition set_maxTableSize (v : Z) (c : Config) : Config :=
  let '(Build_Config w p4 p6 rs nd nx rf er rq sr _ ndS nxS rfS erS nf) := c in
  Build_Config w p4 p6 rs nd nx rf er rq sr v ndS nxS rfS erS nf.

Definition set_nodataIntervalSet (v : bool) (c : Config) : Config :=
  let '(Build_Config w p4 p6 rs nd nx rf er rq sr mt _ nxS rfS erS nf) := c in
  Build_Config w p4 p6 rs nd nx rf er rq sr mt v nxS rfS erS nf.

Definition set_nxdomainsIntervalSet (v : bool) (c : Config) : Config :=
  let '(Build_Config w p4 p6 rs nd nx rf er rq sr mt ndS _ rfS erS nf) := c in
  Build_Config w p4 p6 rs nd nx rf er rq sr mt ndS v rfS erS nf.

Definition set_referralsIntervalSet (v : bool) (c : Config) : Config :=
  let '(Build_Config w p4 p6 rs nd nx rf er rq sr mt ndS nxS _ erS nf) := c in
  Build_Config w p4 p6 rs nd nx rf er rq sr mt ndS nxS v erS nf.

Definition set_errorsIntervalSet (v : bool) (c : Config) : Config :=
  let '(Build_Config w p4 p6 rs nd nx rf er rq sr mt ndS nxS rfS _ nf) := c in
  Build_Config w p4 p6 rs nd nx rf er rq sr mt ndS nxS rfS v nf.

Definition set_nowFunc (v : option Clock) (c : Config) : Config :=
  let '(Build_Config w p4 p6 rs nd nx rf er rq sr mt ndS nxS rfS erS _) := c in
  Build_Config w p4 p6 rs nd nx rf er rq sr mt ndS nxS rfS erS v.

(** [defaultConfig]: these defaults largely reflect those recommended
    by ISC. *)
Definition defaultConfig : Config := {|
  window := 15 * second;
  ipv4PrefixLength := 24;
  ipv6PrefixLength := 56;
  responsesInterval := 0;
  nodataInterval := 0;
  nxdomainsInterval := 0;
  referralsInterval := 0;
  errorsInterval := 0;
  requestsInterval := 0;
  slipRatio := 2;
  maxTableSize := 100000;
  nodataIntervalSet := false;
  nxdomainsIntervalSet := false;
  referralsIntervalSet := false;
  errorsIntervalSet := false;
  nowFunc := Some time_Now
|}.

(** [NewConfig] returns a copy of the defaults. *)
Definition NewConfig : Config := defaultConfig.

(** [IsActive]. *)
Definition IsActive (c : Config) : bool :=
  (0 <? responsesInterval c) || (0 <? nodataInterval c)
  || (0 <? nxdomainsInterval c) || (0 <? referralsInterval c)
  || (0 <? errorsInterval c) || (0 <? requestsInterval c).

(** [argInvalidErr] with an [error] as its last argument (the [%w] form)
    and with a message (the [%s] form). *)
Definition argInvalidErr_w (keyword val : string) (t : strconv.NumError) : error :=
  ErrArgWrapped keyword val t.

Definition argInvalidErr_s (keyword val em : string) : error :=
  ErrArgMessage keyword val em.

(** [SetNowFunc]. *)
Definition SetNowFunc (fn : option Clock) (c : Config) : Config :=
  set_nowFunc fn c.

(** [finalize]: intervals that were not set take the value of
    [responsesInterval], and a missing clock becomes [time.Now]. Each
    step reads the record the previous step left. *)
Definition finalize (c : Config) : Config :=
  let c1 := if negb (nodataIntervalSet c)
            then set_nodataInterval (responsesInterval c) c else c in
  let c2 := if negb (nxdomainsIntervalSet c1)
            then set_nxdomainsInterval (responsesInterval c1) c1 else c1 in
  let c3 := if negb (referralsIntervalSet c2)
            then set_referralsInterval (responsesInterval c2) c2 else c2 in
  let c4 := if negb (errorsIntervalSet c3)
            then set_errorsInterval (responsesInterval c3) c3 else c3 in
  match nowFunc c4 with
  | None => set_nowFunc (Some time_Now) c4
  | Some _ => c4
  end.

Section ConfigSetters.

Context `{F : strconv.Float64}.

(** [getIntervalArg]: the number of nanoseconds to charge for each
    query, from a per-second rate. *)
Definition getIntervalArg (keyword arg : string) : Z * option error :=
  match strconv.ParseFloat arg with
  | inr err => (0, Some (argInvalidErr_w keyword arg err))
  | inl rps =>
      if strconv.is_negative rps
      then (0, Some (argInvalidErr_s keyword arg "cannot be negative"))
      else if strconv.is_zero rps then (0, None)
      else (wrap64 (strconv.nanos_per rps), None)
  end.

(** [SetValue]: the record after the call, and the error returned
    ([None] is Go's [nil]). The record is passed and returned because
    the Go method assigns through its pointer receiver. *)
Definition SetValue (keyword arg : string) (c : Config) : Config * option error :=
  if String.eqb keyword "window" then
    match strconv.Atoi arg with
    | inr err => (c, Some (argInvalidErr_w keyword arg err))
    | inl w =>
        if (w <=? 0) || (3600 <? w)
        then (c, Some (argInvalidErr_s keyword arg "window must be between 1 and 3600"))
        else (set_window (wrap64 (w * second)) c, None)
    end
  else if String.eqb keyword "ipv4-prefix-length" then
    match strconv.Atoi arg with
    | inr err => (c, Some (argInvalidErr_w keyword arg err))
    | inl i =>
        if (i <=? 0) || (32 <? i)
        then (c, Some (argInvalidErr_s keyword arg "must be between 1 and 32"))
        else (set_ipv4PrefixLength i c, None)
    end
  else if String.eqb keyword "ipv6-prefix-length" then
    match strconv.Atoi arg with
    | inr err => (c, Some (argInvalidErr_w keyword arg err))
    | inl i =>
        if (i <=? 0) || (128 <? i)
        then (c, Some (argInvalidErr_s keyword arg "must be between 1 and 128"))
        else (set_ipv6PrefixLength i c, None)
    end
  else if String.eqb keyword "responses-per-second" then
    match getIntervalArg keyword arg with
    | (_, Some err) => (c, Some err)
    | (i, None) => (set_responsesInterval i c, None)
    end
  else if String.eqb keyword "nodata-per-second" then
    match getIntervalArg keyword arg with
    | (_, Some err) => (c, Some err)
    | (i, None) => (set_nodataIntervalSet true (set_nodataInterval i c), None)
    end
  else if String.eqb keyword "nxdomains-per-second" then
    match getIntervalArg keyword arg with
    | (_, Some err) => (c, Some err)
    | (i, None) => (set_nxdomainsIntervalSet true (set_nxdomainsInterval i c), None)
    end
  else if String.eqb keyword "referrals-per-second" then
    match getIntervalArg keyword arg with
    | (_, Some err) => (c, Some err)
    | (i, None) => (set_referralsIntervalSet true (set_referralsInterval i c), None)
    end
  else if String.eqb keyword "errors-per-second" then
    match getIntervalArg keyword arg with
    | (_, Some err) => (c, Some err)
    | (i, None) => (set_errorsIntervalSet true (set_errorsInterval i c), None)
    end
  else if String.eqb keyword "slip-ratio" then
    match strconv.Atoi arg with
    | inr err => (c, Some (argInvalidErr_w keyword arg err))
    | inl i =>
        if (i <? 0) || (10 <? i)
        then (c, Some (argInvalidErr_s keyword arg "must be between 0 and 10"))
        else (set_slipRatio (Z.to_N i) c, None)
    end
  else if String.eqb keyword "requests-per-second" then
    match getIntervalArg keyword arg with
    | (_, Some err) => (c, Some err)
    | (i, None) => (set_requestsInterval i c, None)
    end
  else if String.eqb keyword "max-table-size" then
    match strconv.Atoi arg with
    | inr err => (c, Some (argInvalidErr_w keyword arg err))
    | inl i =>
        if i <? 0
        then (c, Some (argInvalidErr_s keyword arg "cannot be negative"))
        else (set_maxTableSize i c, None)
    end
  else (c, Some (ErrUnknownKeyword keyword)).

End ConfigSetters.

(** ** Package cache *)

Module cache.

(** The hash that assigns a key to its shard. It is a parameter of
    the cache: no property below depends on which hash it is. *)
Class ShardHash := shard_hash : string -> N.

(** What [UpdateAdd] hands back: the value returned by the update
    function, [nil] after an insertion, or an error. *)
Inductive Result (R : Type) :=
| Updated (r : R)
| Inserted
| Failed (e : error).
Arguments Updated {R} r.
Arguments Inserted {R}.
Arguments Failed {R} e.

(** Modelled from the spec: file cache.go of package cache (the type
    [Cache] with [New], [SetEvict], [UpdateAdd] and [Len]) is not
    among the sources; this is the sharded cache of section 4.1 of
    the specification. The 1024 shards are kept as one finite map
    together with the shard every key hashes to; [limit] is the depth
    a single shard may reach. *)
Record Cache (V : Type) := {
  limit : Z;
  items : gmap string V;
  isExpired : option (World -> V -> bool)
}.
Arguments limit {V} _.
Arguments items {V} _.
Arguments isExpired {V} _.

Section Operations.

Context `{H : ShardHash} {V : Type}.

Definition shards : N := 1024.

Definition shard_of (key : string) : N := (shard_hash key mod shards)%N.

(** Modelled from the spec: [New] is missing from the sources; the
    configured size is a per-shard depth limit, and when it is
    below 1024 the effective limit is the larger of 1 and the
    configured value. *)
Definition New (size : Z) : Cache V :=
  {| limit := if size <? 1024 then Z.max 1 size else size;
     items := ∅;
     isExpired := None |}.

(** Modelled from the spec: [SetEvict] is missing from the sources;
    the owner installs the predicate that says when a value is
    expired. *)
Definition SetEvict (f : World -> V -> bool) (c : Cache V) : Cache V :=
  {| limit := limit c; items := items c; isExpired := Some f |}.

Definition in_shard (key : string) (kv : string * V) : Prop :=
  shard_of kv.1 = shard_of key.

#[global] Instance in_shard_dec key kv : Decision (in_shard key kv).
Proof. unfold in_shard. apply _. Defined.

(** The entries of the shard of [key]. *)
Definition shard (key : string) (c : Cache V) : gmap string V :=
  filter (in_shard key) (items c).

Definition expired (w : World) (c : Cache V) (v : V) : bool :=
  match isExpired c with
  | Some f => f w v
  | None => false
  end.

Definition evictable (w : World) (c : Cache V) (key : string)
    (kv : string * V) : Prop :=
  in_shard key kv ∧ expired w c kv.2 = true.

#[global] Instance evictable_dec w c key kv : Decision (evictable w c key kv).
Proof. unfold evictable. apply _. Defined.

(** Modelled from the spec: [UpdateAdd] is missing from the
    sources. An existing entry is updated; otherwise the value is
    inserted if the shard is not full (its size equals its limit);
    otherwise one pass removes the expired entries of the shard and
    the insertion is retried, or fails with the shard-full error
    when nothing could be removed. The last component is the number
    of entries the pass removed. *)
Definition UpdateAdd {R : Type} (key : string) (update : V -> V * R) (add : V)
    (w : World) (c : Cache V) : Result R * Cache V * N :=
  match items c !! key with
  | Some el =>
      let '(el', r) := update el in
      (Updated r,
       {| limit := limit c; items := <[key := el']> (items c);
          isExpired := isExpired c |},
       0%N)
  | None =>
      if Z.of_nat (size (shard key c)) =? limit c then
        let gone := filter (evictable w c key) (items c) in
        if (size gone =? 0)%nat then (Failed ErrShardFull, c, 0%N)
        else
          let kept := filter (λ kv, ¬ evictable w c key kv) (items c) in
          (Inserted,
           {| limit := limit c; items := <[key := add]> kept;
              isExpired := isExpired c |},
           N.of_nat (size gone))
      else
        (Inserted,
         {| limit := limit c; items := <[key := add]> (items c);
            isExpired := isExpired c |},
         0%N)
  end.

(** Modelled from the spec: [Len] is missing from the sources; the
    sum of the shard sizes. *)
Definition Len (c : Cache V) : Z := Z.of_nat (size (items c)).

End Operations.

End cache.

(** ** debit.go: the types of the interface *)

(** [AllowanceCategory] is a [uint8]. *)
Definition AllowanceAnswer : N := 0.
Definition AllowanceReferral : N := 1.
Definition AllowanceNoData : N := 2.
Definition AllowanceNXDomain : N := 3.
Definition AllowanceError : N := 4.
Definition AllowanceLast : N := 5.

(** [NewAllowanceCategory]. *)
Definition NewAllowanceCategory (rCode answerCount nsCount : Z) : N :=
  if (rCode =? 0) && (0 <? answerCount) then AllowanceAnswer
  else if (rCode =? 0) && (0 <? nsCount) then AllowanceReferral
  else if (rCode =? 0) && (answerCount =? 0) then AllowanceNoData
  else if rCode =? 3 then AllowanceNXDomain
  else AllowanceError.

Inductive Action := Send | Drop | Slip.
Definition ActionLast : Z := 3.
Definition Action_int (a : Action) : Z :=
  match a with Send => 0 | Drop => 1 | Slip => 2 end.

Inductive IPReason := IPOk | IPNotConfigured | IPNotReached | IPRateLimit | IPCacheFull.
Definition IPLast : Z := 5.
Definition IPReason_int (r : IPReason) : Z :=
  match r with
  | IPOk => 0 | IPNotConfigured => 1 | IPNotReached => 2
  | IPRateLimit => 3 | IPCacheFull => 4
  end.

Inductive RTReason :=
  RTOk | RTNotConfigured | RTNotReached | RTRateLimit | RTNotUDP | RTCacheFull.
Definition RTLast : Z := 6.
Definition RTReason_int (r : RTReason) : Z :=
  match r with
  | RTOk => 0 | RTNotConfigured => 1 | RTNotReached => 2
  | RTRateLimit => 3 | RTNotUDP => 4 | RTCacheFull => 5
  end.

Record ResponseTuple := {
  Class : N;
  Type_ : N;
  AllowanceCategory : N;
  SalientName : string
}.

(** A [net.Addr]: the results of its methods [Network] and [String]. *)
Record Addr := { Addr_Network : string; Addr_String : string }.

(** ** The statistics *)

Record Stats := {
  RPS : list Z;
  Actions : list Z;
  IPReasons : list Z;
  RTReasons : list Z;
  CacheLength : Z;
  Evictions : Z
}.

(** The zero value of [Stats]. *)
Definition zero : Stats := {|
  RPS := replicate (N.to_nat AllowanceLast) 0;
  Actions := replicate (Z.to_nat ActionLast) 0;
  IPReasons := replicate (Z.to_nat IPLast) 0;
  RTReasons := replicate (Z.to_nat RTLast) 0;
  CacheLength := 0;
  Evictions := 0
|}.

(** [a[i]++] on an array of [int64]. *)
Definition incr (i : Z) (a : list Z) : list Z :=
  alter (λ v, wrap64 (v + 1)) (Z.to_nat i) a.

(** [incrementDebit] bumps all stats affected by a Debit call. *)
Definition incrementDebit (act : Action) (ipr : IPReason) (rtr : RTReason)
    (ac : N) (c : Stats) : Stats :=
  let actions :=
    if (0 <=? Action_int act) && (Action_int act <? ActionLast)
    then incr (Action_int act) (Actions c) else Actions c in
  let ipreasons :=
    if (0 <=? IPReason_int ipr) && (IPReason_int ipr <? IPLast)
    then incr (IPReason_int ipr) (IPReasons c) else IPReasons c in
  let rtreasons :=
    if (0 <=? RTReason_int rtr) && (RTReason_int rtr <? RTLast)
    then incr (RTReason_int rtr) (RTReasons c) else RTReasons c in
  let rps :=
    if (0 <=? ac)%N && (ac <? AllowanceLast)%N
    then incr (Z.of_N ac) (RPS c) else RPS c in
  {| RPS := rps; Actions := actions; IPReasons := ipreasons;
     RTReasons := rtreasons; CacheLength := CacheLength c;
     Evictions := Evictions c |}.

(** [Copy]: the copy returned, and the receiver afterwards. *)
Definition Copy (zeroAfter : bool) (c : Stats) : Stats * Stats :=
  (c, if zeroAfter then zero else c).

(** The loop [for ix, v := range from { c[ix] += v }] of [Add], from
    index [ix] on. *)
Fixpoint add_from (ix : nat) (from c : list Z) : list Z :=
  match from with
  | [] => c
  | v :: from' => add_from (S ix) from' (alter (λ x, wrap64 (x + v)) ix c)
  end.

(** [c.Add(from)]: the receiver afterwards. *)
Definition Add (from c : Stats) : Stats :=
  {| RPS := add_from 0 (RPS from) (RPS c);
     Actions := add_from 0 (Actions from) (Actions c);
     IPReasons := add_from 0 (IPReasons from) (IPReasons c);
     RTReasons := add_from 0 (RTReasons from) (RTReasons c);
     CacheLength := CacheLength from;
     Evictions := wrap64 (Evictions c + Evictions from) |}.

(** ** rrl.go *)

(** [responseAccount] holds accounting for a category of response. *)
Record responseAccount := {
  allowTime : Z;
  slipCountdown : N
}.

(** The result of the update function of [debit]. *)
Record balances := { balance : Z; slip : bool }.

(** [RRL] contains the configuration and the account database. *)
Record RRL := {
  cfg : Config;
  table : cache.Cache responseAccount;
  stats : Stats
}.

(** [rrl.cfg.nowFunc().UnixNano()] in world [w]. A [nil] clock is never
    called: [finalize] replaces it before an [RRL] is built (see
    [NewRRL_clock]); the model reads 0 for it. *)
Definition UnixNano_now (c : Config) (w : World) : Z :=
  match nowFunc c with
  | Some f => wrap64 (f w)
  | None => 0
  end.

(** [allowanceForRtype] returns the configured response interval for
    the indicated response type. *)
Definition allowanceForRtype (c : Config) (rt : N) : Z :=
  if (rt =? AllowanceAnswer)%N then responsesInterval c
  else if (rt =? AllowanceNoData)%N then nodataInterval c
  else if (rt =? AllowanceNXDomain)%N then nxdomainsInterval c
  else if (rt =? AllowanceReferral)%N then referralsInterval c
  else if (rt =? AllowanceError)%N then errorsInterval c
  else -1.

(** The eviction function installed by [initTable]: true if the
    allowance is at or above its maximum value (the window). *)
Definition evictFn (c : Config) (w : World) (ra : responseAccount) : bool :=
  window c <=? sub (UnixNano_now c w) (allowTime ra).

(** [buildToken] returns a token string for the given inputs. *)
Definition buildToken (rt : N) (qType : N) (name ipPrefix : string) : string :=
  let rtypestr := strconv.FormatUint rt in
  if (rt =? AllowanceAnswer)%N then
    Join [ipPrefix; rtypestr; strconv.FormatUint qType; name] "/"
  else if (rt =? AllowanceNoData)%N then
    Join [ipPrefix; rtypestr; EmptyString; name] "/"
  else if (rt =? AllowanceNXDomain)%N then
    Join [ipPrefix; rtypestr; EmptyString; name] "/"
  else if (rt =? AllowanceReferral)%N then
    Join [ipPrefix; rtypestr; strconv.FormatUint qType; name] "/"
  else if (rt =? AllowanceError)%N then
    Join [ipPrefix; rtypestr; EmptyString; EmptyString] "/"
  else EmptyString.

(** [accountToken]. *)
Definition accountToken `{U : UnicodeLower} (ipPrefix : string) (qType : N)
    (name : string) (rt : N) : string :=
  buildToken rt qType (ToLower name) ipPrefix.

(** [addrPrefix] returns the address prefix of the address string based
    on the configured prefix lengths. *)
Definition addrPrefix (c : Config) (addr : string) : string :=
  let i := LastIndex addr ":" in
  if i <? 4 then EmptyString
  else
    let ip := net.ParseIP (slice addr 0 i) in
    if negb (net.isNil (net.To4 ip)) then
      net.String (net.Mask ip (net.CIDRMask (ipv4PrefixLength c) 32))
    else
      let ip6 := net.ParseIP (slice addr 1 (i - 1)) in
      net.String (net.Mask ip6 (net.CIDRMask (ipv6PrefixLength c) 128)).

(** The update function of [debit]: the account after the call and the
    new balance. *)
Definition debit_update (c : Config) (w : World) (allowance : Z)
    (ra : responseAccount) : responseAccount * balances :=
  let now := UnixNano_now c w in
  let balance0 := sub (sub now (allowTime ra)) allowance in
  let balance1 :=
    if second <=? balance0 then sub second allowance
    else if balance0 <? neg (window c) then neg (window c)
    else balance0 in
  let allowTime' := sub now balance1 in
  if (0 <? balance1) || (slipCountdown ra =? 0)%N then
    ({| allowTime := allowTime'; slipCountdown := slipCountdown ra |},
     {| balance := balance1; slip := false |})
  else if (slipCountdown ra =? 1)%N then
    ({| allowTime := allowTime'; slipCountdown := slipRatio c |},
     {| balance := balance1; slip := true |})
  else
    ({| allowTime := allowTime'; slipCountdown := (slipCountdown ra - 1)%N |},
     {| balance := balance1; slip := false |}).

(** The add function of [debit]: a new account, with a credit of one
    second worth of queries less the allowance for the current query. *)
Definition debit_add (c : Config) (w : World) (allowance : Z) : responseAccount :=
  {| allowTime := add (sub (UnixNano_now c w) second) allowance;
     slipCountdown := slipRatio c |}.

(** [incrementEviction], once for each of [n] evicted accounts. *)
Definition incrementEvictions (n : N) (s : Stats) : Stats :=
  {| RPS := RPS s; Actions := Actions s; IPReasons := IPReasons s;
     RTReasons := RTReasons s; CacheLength := CacheLength s;
     Evictions := wrap64 (Evictions s + Z.of_N n) |}.

(** [incrementDebitStats]. *)
Definition incrementDebitStats (act : Action) (ipr : IPReason) (rtr : RTReason)
    (ac : N) (r : RRL) : RRL :=
  {| cfg := cfg r; table := table r;
     stats := incrementDebit act ipr rtr ac (stats r) |}.

Section Engine.

Context `{H : cache.ShardHash} `{U : UnicodeLower}.

(** [initTable] creates a new cache table and sets the cache eviction
    function. *)
Definition initTable (c : Config) : cache.Cache responseAccount :=
  cache.SetEvict (evictFn c) (cache.New (maxTableSize c)).

(** [NewRRL]: the caller's record after the call, and the new [RRL]
    holding its own copy. *)
Definition NewRRL (c : Config) : Config * RRL :=
  let c' := finalize c in
  (c', {| cfg := c'; table := initTable c'; stats := zero |}).

(** [debit] updates an existing response account in the table and
    recalculates the current balance, or adds the account if it does not
    exist. The results are the balance, slip and the error, and the
    [RRL] after the call. *)
Definition debit (allowance : Z) (t : string) (w : World) (r : RRL)
    : (Z * bool * option error) * RRL :=
  let '(result, tbl, evicted) :=
    cache.UpdateAdd t (debit_update (cfg r) w allowance)
      (debit_add (cfg r) w allowance) w (table r) in
  let r' := {| cfg := cfg r; table := tbl;
               stats := incrementEvictions evicted (stats r) |} in
  match result with
  | cache.Inserted => ((0, false, None), r')
  | cache.Failed err => ((0, false, Some err), r')
  | cache.Updated b => ((balance b, slip b, None), r')
  end.

(** [Debit]: the recommended action and the two reasons, and the [RRL]
    after the call. The clock is read in world [w] throughout one call.
    The deferred [incrementDebitStats] runs on every return path with
    the values the results have at that point. *)
Definition Debit (w : World) (src : Addr) (tuple : ResponseTuple) (r : RRL)
    : (Action * IPReason * RTReason) * RRL :=
  let ac := AllowanceCategory tuple in
  let ret (act : Action) (ipr : IPReason) (rtr : RTReason) (r' : RRL) :=
    ((act, ipr, rtr), incrementDebitStats act ipr rtr ac r') in
  let ipPrefix := addrPrefix (cfg r) (Addr_String src) in
  let response_stage (ipr : IPReason) (r1 : RRL) :=
    if negb (HasPrefix (Addr_Network src) "udp") then ret Send ipr RTNotUDP r1
    else
      let allowance := allowanceForRtype (cfg r1) ac in
      if allowance =? 0 then ret Send ipr RTNotConfigured r1
      else
        let name := ToLower (SalientName tuple) in
        let t := accountToken ipPrefix (Type_ tuple) name ac in
        let '((b, slip, err), r2) := debit allowance t w r1 in
        match err with
        | Some _ => ret Drop ipr RTCacheFull r2
        | None =>
            if b <? 0 then ret (if slip then Slip else Drop) ipr RTRateLimit r2
            else ret Send ipr RTOk r2
        end in
  if negb (requestsInterval (cfg r) =? 0) then
    let '((b, _, err), r1) := debit (requestsInterval (cfg r)) ipPrefix w r in
    match err with
    | Some _ => ret Drop IPCacheFull RTNotReached r1
    | None =>
        if b <? 0 then ret Drop IPRateLimit RTNotReached r1
        else response_stage IPOk r1
    end
  else response_stage IPNotConfigured r.

(** [GetStats]: the copy returned, with the current cache length, and
    the [RRL] after the call. *)
Definition GetStats (zeroAfter : bool) (r : RRL) : Stats * RRL :=
  let '(c, s') := Copy zeroAfter (stats r) in
  ({| RPS := RPS c; Actions := Actions c; IPReasons := IPReasons c;
      RTReasons := RTReasons c; CacheLength := cache.Len (table r);
      Evictions := Evictions c |},
   {| cfg := cfg r; table := table r; stats := s' |}).

End Engine.

(** ** Instances used to run the code on concrete inputs *)

Module Examples.

(** A shard hash for the examples: the length of the key. *)
Definition length_hash : cache.ShardHash := fun s => N.of_nat (String.length s).

(** The names and transport tags of the examples are ASCII, so that
    [strings.ToLower] never leaves its fast path; this stand-in for the
    case tables, which is never consulted, returns its argument. *)
#[global] Instance ascii_names : UnicodeLower := fun s => s.

(** A decimal rate: [mantissa / 10 ^ scale]. *)
Record decimal := { mantissa : Z; scale : nat }.

Fixpoint split_dot (s : string) (acc : string) : string * option string :=
  match s with
  | EmptyString => (acc, None)
  | String c s' =>
      if Ascii.eqb c "." then (acc, Some s')
      else split_dot s' (acc +:+ String c EmptyString)
  end.

Definition parse_decimal (s : string) : option decimal :=
  let '(negative, body) :=
    match s with
    | String "-" s' => (true, s')
    | String "+" s' => (false, s')
    | _ => (false, s)
    end in
  let '(ip, fp) := split_dot body EmptyString in
  let frac := default EmptyString fp in
  if (String.length ip + String.length frac =? 0)%nat then None
  else
    match strconv.parse_digits (ip +:+ frac) 0 with
    | Some n =>
        Some {| mantissa := if negative then - n else n;
                scale := String.length frac |}
    | None => None
    end.

(** An implementation of the floating point operations for the
    examples: plain decimal literals, read exactly, and the quotient
    [second / rps] truncated toward zero. *)
Definition decimal_rates : strconv.Float64 := {|
  strconv.float64 := decimal;
  strconv.ParseFloat := fun s =>
    match parse_decimal s with
    | Some d => inl d
    | None =>
        inr {| strconv.Func := "ParseFloat"; strconv.Num := s;
               strconv.Err := strconv.ErrSyntax |}
    end;
  strconv.is_negative := fun d => mantissa d <? 0;
  strconv.is_zero := fun d => mantissa d =? 0;
  strconv.nanos_per := fun d => Z.quot (second * 10 ^ Z.of_nat (scale d)) (mantissa d)
|}.

(** [rps >= 0] for the decimal rates. *)
Definition decimal_range : strconv.RateRange (F := decimal_rates).
Proof.
  refine (@strconv.Build_RateRange decimal_rates
            (fun d : decimal => 0 <=? mantissa d) _).
  intros d Hd. cbn in *. lia.
Defined.

(** A decimal rate, or the NaN of IEEE 754. *)
Inductive rate := Decimal (d : decimal) | NaN.

(** The decimal rates with NaN, which [strconv.ParseFloat] returns for
    the text [NaN] in any case of its letters. Every comparison with
    NaN is false. The conversion [int64(second / rps)] of a NaN is left
    to the implementation by the Go specification; the value here is
    the one of amd64, the least [int64]. *)
Definition rates_with_NaN : strconv.Float64 := {|
  strconv.float64 := rate;
  strconv.ParseFloat := fun s =>
    if String.eqb (lower_bytes s) "nan" then inl NaN
    else
      match parse_decimal s with
      | Some d => inl (Decimal d)
      | None =>
          inr {| strconv.Func := "ParseFloat"; strconv.Num := s;
                 strconv.Err := strconv.ErrSyntax |}
      end;
  strconv.is_negative := fun x =>
    match x with Decimal d => mantissa d <? 0 | NaN => false end;
  strconv.is_zero := fun x =>
    match x with Decimal d => mantissa d =? 0 | NaN => false end;
  strconv.nanos_per := fun x =>
    match x with
    | Decimal d => Z.quot (second * 10 ^ Z.of_nat (scale d)) (mantissa d)
    | NaN => min_int
    end
|}.

(** [rps >= 0] for them. *)
Definition range_with_NaN : strconv.RateRange (F := rates_with_NaN).
Proof.
  refine (@strconv.Build_RateRange rates_with_NaN
            (fun x : rate =>
               match x with Decimal d => 0 <=? mantissa d | NaN => false end) _).
  intros [d|] Hd; cbn in *; [lia|reflexivity].
Defined.

(** [cfg.SetValue(...)] for a list of keyword and argument pairs, in
    order, ignoring the errors as the tests of the package do. *)
Definition configure (settings : list (string * string)) (c : Config) : Config :=
  fold_left (fun c kv => fst (SetValue (F := decimal_rates) kv.1 kv.2 c)) settings c.

(** A world in which every clock reads [t]. *)
Definition at_time (t : Z) : World := {| wall_clock := t; user_clock := t |}.

(** The clock of the tests: it returns the variable they control. *)
Definition test_clock : Clock := user_clock.

Definition udp_client : Addr :=
  {| Addr_Network := "udp"; Addr_String := "127.0.0.1:53" |}.

Definition answer_tuple : ResponseTuple :=
  {| Class := 1; Type_ := 1; AllowanceCategory := AllowanceAnswer;
     SalientName := "example.com." |}.

(** The tuple of an NXDOMAIN response. *)
Definition nxdomain_tuple : ResponseTuple :=
  {| Class := 1; Type_ := 1; AllowanceCategory := AllowanceNXDomain;
     SalientName := "example.com." |}.

(** The tuple of a response with an error code. *)
Definition error_tuple : ResponseTuple :=
  {| Class := 1; Type_ := 1; AllowanceCategory := AllowanceError;
     SalientName := "example.com." |}.

(** A tuple whose category field, a [uint8], holds 200. *)
Definition unknown_tuple : ResponseTuple :=
  {| Class := 1; Type_ := 1; AllowanceCategory := 200;
     SalientName := "example.com." |}.

(** [n] consecutive calls of [Debit] with the same arguments in the
    same world: the results in order, and the [RRL] after the last. *)
Fixpoint repeat_Debit `{H : cache.ShardHash} `{U : UnicodeLower} (n : nat)
    (w : World) (src : Addr) (tuple : ResponseTuple) (r : RRL)
    : list (Action * IPReason * RTReason) * RRL :=
  match n with
  | O => ([], r)
  | S n' =>
      let '(x, r1) := Debit w src tuple r in
      let '(xs, r2) := repeat_Debit n' w src tuple r1 in
      (x :: xs, r2)
  end.

(** The configuration of the window test of the package: one response
    per second, a window of 15 seconds, no slip, and a clock the caller
    controls. *)
Definition window_config : Config :=
  configure [("responses-per-second", "1"); ("window", "15"); ("slip-ratio", "0")]
    (SetNowFunc (Some test_clock) NewConfig).

(** The same without the slip ratio, which stays at its default of 2. *)
Definition window_config_default_slip : Config :=
  configure [("responses-per-second", "1"); ("window", "15")]
    (SetNowFunc (Some test_clock) NewConfig).

(** The configuration of the slip test of the package. *)
Definition slip_config : Config :=
  configure [("responses-per-second", "1"); ("slip-ratio", "2")]
    (SetNowFunc (Some test_clock) NewConfig).

End Examples.

(** ** Definitions used to state the properties *)

(** The key of the response account of [tuple] for [src] under the
    finalized configuration. *)
Definition response_key `{U : UnicodeLower} (c : Config) (src : Addr)
    (tuple : ResponseTuple) : string :=
  accountToken (addrPrefix (finalize c) (Addr_String src)) (Type_ tuple)
    (ToLower (SalientName tuple)) (AllowanceCategory tuple).

(** [r] runs under the finalized configuration and holds the response
    account of [tuple] with allow time [T + d] and slip countdown [k]. *)
Definition tracks `{U : UnicodeLower} (c : Config) (src : Addr)
    (tuple : ResponseTuple) (r : RRL) (T d : Z) (k : N) : Prop :=
  cfg r = finalize c
  /\ cache.items (table r) !! response_key c src tuple
     = Some {| allowTime := wrap64 (T + d); slipCountdown := k |}.

(** What a debit of one second decides for an account whose allow time
    is [d] nanoseconds past an origin, read when the clock is [x]
    nanoseconds past it, under window [win] and slip ratio [ratio]. *)
Definition next_balance (win x d : Z) : Z :=
  let b0 := x - d - second in
  if second <=? b0 then 0
  else if b0 <? - win then - win else b0.

Definition next_action (win x d : Z) (k : N) : Action :=
  if next_balance win x d <? 0
  then (if (k =? 1)%N then Slip else Drop)
  else Send.

Definition next_countdown (win : Z) (ratio : N) (x d : Z) (k : N) : N :=
  if (0 <? next_balance win x d) || (k =? 0)%N then k
  else if (k =? 1)%N then ratio else (k - 1)%N.

(** [n] such debits in a row at clock reading [x]: the actions, and the
    allow time and countdown left behind. *)
Fixpoint account_run (win : Z) (ratio : N) (n : nat) (x d : Z) (k : N)
    : list Action * (Z * N) :=
  match n with
  | O => ([], (d, k))
  | S n' =>
      let '(acts, st) :=
        account_run win ratio n' x (x - next_balance win x d)
          (next_countdown win ratio x d k) in
      (next_action win x d k :: acts, st)
  end.

(** The sequence the specification states for a slip ratio of 2: the
    call with index 0 is sent; after it the calls with an odd index are
    dropped and those with an even index slip. *)
Definition stated_action (i : nat) : Action :=
  match i with
  | O => Send
  | S _ => if Nat.odd i then Drop else Slip
  end.

Definition action_of (y : Action * IPReason * RTReason) : Action := y.1.1.

(** The states an [RRL] built from configuration [c] can be in: the
    one [NewRRL] returns, and those that calls of [Debit] and [GetStats]
    lead to. *)
Inductive reachable `{H : cache.ShardHash} `{U : UnicodeLower} (c : Config)
    : RRL -> Prop :=
| reach_NewRRL : reachable c (NewRRL c).2
| reach_Debit w src tuple r :
    reachable c r -> reachable c (Debit w src tuple r).2
| reach_GetStats zeroAfter r :
    reachable c r -> reachable c (GetStats zeroAfter r).2.

(** No rate was set for NODATA, NXDOMAIN, referral or error responses,
    so that [finalize] gives them the rate of answers. *)
Definition other_rates_unset (c : Config) : Prop :=
  nodataIntervalSet c = false /\ nxdomainsIntervalSet c = false
  /\ referralsIntervalSet c = false /\ errorsIntervalSet c = false.

(** Every account of the table has a slip countdown of 0. *)
Definition countdowns_zero (r : RRL) : Prop :=
  forall t ra, cache.items (table r) !! t = Some ra -> slipCountdown ra = 0%N.

(** Every field of the configuration that keyword [keyword] does not
    stand for is the same in [c'] as in [c]. *)
Definition unchanged_except (keyword : string) (c c' : Config) : Prop :=
  (keyword <> "window" -> window c' = window c)
  /\ (keyword <> "ipv4-prefix-length" -> ipv4PrefixLength c' = ipv4PrefixLength c)
  /\ (keyword <> "ipv6-prefix-length" -> ipv6PrefixLength c' = ipv6PrefixLength c)
  /\ (keyword <> "responses-per-second" ->
      responsesInterval c' = responsesInterval c)
  /\ (keyword <> "nodata-per-second" ->
      nodataInterval c' = nodataInterval c
      /\ nodataIntervalSet c' = nodataIntervalSet c)
  /\ (keyword <> "nxdomains-per-second" ->
      nxdomainsInterval c' = nxdomainsInterval c
      /\ nxdomainsIntervalSet c' = nxdomainsIntervalSet c)
  /\ (keyword <> "referrals-per-second" ->
      referralsInterval c' = referralsInterval c
      /\ referralsIntervalSet c' = referralsIntervalSet c)
  /\ (keyword <> "errors-per-second" ->
      errorsInterval c' = errorsInterval c
      /\ errorsIntervalSet c' = errorsIntervalSet c)
  /\ (keyword <> "slip-ratio" -> slipRatio c' = slipRatio c)
  /\ (keyword <> "requests-per-second" -> requestsInterval c' = requestsInterval c)
  /\ (keyword <> "max-table-size" -> maxTableSize c' = maxTableSize c)
  /\ nowFunc c' = nowFunc c.

(** The keywords of the configuration table of the specification. *)
Definition integer_keywords : list (string * (Z * option Z)) :=
  [("window", (1, Some 3600)); ("ipv4-prefix-length", (1, Some 32));
   ("ipv6-prefix-length", (1, Some 128)); ("slip-ratio", (0, Some 10));
   ("max-table-size", (0, None))].

Definition rate_keywords : list string :=
  ["responses-per-second"; "nodata-per-second"; "nxdomains-per-second";
   "referrals-per-second"; "errors-per-second"; "requests-per-second"].

Fixpoint lookup_keyword {A : Type} (keyword : string) (l : list (string * A))
    : option A :=
  match l with
  | [] => None
  | (k, a) :: l' => if String.eqb keyword k then Some a else lookup_keyword keyword l'
  end.

(** The settings the specification accepts: a known keyword whose
    argument parses and lies in the range the table gives for the
    keyword; for a rate that range is [float >= 0]. *)
Definition accepted_setting `{R : strconv.RateRange} (keyword arg : string) : bool :=
  match lookup_keyword keyword integer_keywords with
  | Some (lo, hi) =>
      match strconv.Atoi arg with
      | inl i => (lo <=? i) && match hi with Some h => i <=? h | None => true end
      | inr _ => false
      end
  | None =>
      if existsb (String.eqb keyword) rate_keywords then
        match strconv.ParseFloat arg with
        | inl rps => strconv.at_least_zero rps
        | inr _ => false
        end
      else false
  end.

(** A rate that the comparisons do not place: the argument of a rate
    keyword parses to a value that is neither below zero nor at least
    zero, as a NaN is. *)
Definition unordered_rate `{R : strconv.RateRange} (keyword arg : string) : bool :=
  existsb (String.eqb keyword) rate_keywords
  && match strconv.ParseFloat arg with
     | inl rps => negb (strconv.is_negative rps) && negb (strconv.at_least_zero rps)
     | inr _ => false
     end.

(** The tests [SetValue] applies to a setting: a known keyword, an
    argument that parses, an integer within its bounds, a rate for
    which [rps < 0] is false. *)
Definition passes_checks `{F : strconv.Float64} (keyword arg : string) : bool :=
  match lookup_keyword keyword integer_keywords with
  | Some (lo, hi) =>
      match strconv.Atoi arg with
      | inl i => (lo <=? i) && match hi with Some h => i <=? h | None => true end
      | inr _ => false
      end
  | None =>
      if existsb (String.eqb keyword) rate_keywords then
        match strconv.ParseFloat arg with
        | inl rps => negb (strconv.is_negative rps)
        | inr _ => false
        end
      else false
  end.

(** The four arrays of the statistics have the sizes of their types. *)
Definition stats_sized (s : Stats) : Prop :=
  length (RPS s) = N.to_nat AllowanceLast
  /\ length (Actions s) = Z.to_nat ActionLast
  /\ length (IPReasons s) = Z.to_nat IPLast
  /\ length (RTReasons s) = Z.to_nat RTLast.

(** Array [a'] is array [a] after [a[i]++]: the counter at index [i]
    exists and went up by one, and every other counter is as before. *)
Definition one_incremented (i : Z) (a a' : list Z) : Prop :=
  length a' = length a
  /\ (exists v, a !! Z.to_nat i = Some v /\ a' !! Z.to_nat i = Some (wrap64 (v + 1)))
  /\ (forall j, j <> Z.to_nat i -> a' !! j = a !! j).

(** The counters of the two statistics records agree (the number of
    evictions may differ). *)
Definition same_counters (s s' : Stats) : Prop :=
  RPS s' = RPS s /\ Actions s' = Actions s
  /\ IPReasons s' = IPReasons s /\ RTReasons s' = RTReasons s.

(** The results [Debit] can return: a drop decided by the
    client-network stage leaves the response-tuple stage unreached;
    otherwise the client-network reason is [IPOk] or [IPNotConfigured]
    and the response-tuple stage decides. *)
Definition Debit_outcomes : list (Action * IPReason * RTReason) :=
  [(Drop, IPCacheFull, RTNotReached); (Drop, IPRateLimit, RTNotReached)]
  ++ flat_map (fun ipr =>
       [(Send, ipr, RTNotUDP); (Send, ipr, RTNotConfigured);
        (Drop, ipr, RTCacheFull); (Slip, ipr, RTRateLimit);
        (Drop, ipr, RTRateLimit); (Send, ipr, RTOk)])
     [IPOk; IPNotConfigured].

(** None of the six intervals of the configuration is negative. *)
Definition intervals_nonneg (c : Config) : Prop :=
  0 <= responsesInterval c /\ 0 <= nodataInterval c /\ 0 <= nxdomainsInterval c
  /\ 0 <= referralsInterval c /\ 0 <= errorsInterval c /\ 0 <= requestsInterval c.

(** The name of a tuple as it enters the key of its account: lowered
    by [Debit], and again by [accountToken]. *)
Definition account_name `{U : UnicodeLower} (t : ResponseTuple) : string :=
  ToLower (ToLower (SalientName t)).

(** Two tuples that the token construction does not tell apart: the
    same category and, unless the category is [AllowanceError], names
    that the code lowers to the same string (as names that differ in
    the case of their ASCII letters are) and, for answers and
    referrals, the same query type. *)
Definition same_account `{U : UnicodeLower} (t1 t2 : ResponseTuple) : Prop :=
  AllowanceCategory t1 = AllowanceCategory t2
  /\ (AllowanceCategory t1 = AllowanceError
      \/ (account_name t1 = account_name t2
          /\ (AllowanceCategory t1 = AllowanceNoData
              \/ AllowanceCategory t1 = AllowanceNXDomain
              \/ Type_ t1 = Type_ t2))).

(** The byte [/] does not occur in [s]. *)
Definition no_slash (s : string) : Prop := net.contains_byte "/" s = false.

(** The number a string of decimal digits stands for, continuing from
    the value [a] of the digits read before it. *)
Fixpoint digits_val (s : string) (a : N) : N :=
  match s with
  | EmptyString => a
  | String c s' => digits_val s' (a * 10 + (N_of_ascii c - 48))%N
  end.

(** The results of [n] consecutive calls of [debit] for one key with
    one allowance in one world. *)
Fixpoint repeat_debit `{H : cache.ShardHash} (n : nat) (allowance : Z) (t : string)
    (w : World) (r : RRL) : list (Z * bool * option error) :=
  match n with
  | O => []
  | S n' =>
      (debit allowance t w r).1
        :: repeat_debit n' allowance t w (debit allowance t w r).2
  end.

(** A result of [debit] that lets the response through: no error and a
    balance that is not negative. *)
Definition in_credit (x : Z * bool * option error) : bool :=
  match x.2 with
  | None => 0 <=? x.1.1
  | Some _ => false
  end.

(** Under configuration [c], the account of [t] was last debited in
    world [w] and left with balance [s], which is below one second and
    far from the least [int64]. *)
Definition holds_balance (c : Config) (t : string) (w : World) (s : Z) (r : RRL)
    : Prop :=
  cfg r = c
  /\ - 2 ^ 62 <= s < second
  /\ exists k, cache.items (table r) !! t
               = Some {| allowTime := sub (UnixNano_now c w) s; slipCountdown := k |}.

(** The number of debits of [allowance] that can still be in credit
    from balance [s]. *)
Definition credits (allowance s : Z) : Z := if s <? 0 then 0 else s / allowance.

(** The ranges [SetValue] enforces, which the defaults meet: a window
    of 1 to 3600 whole seconds, prefix lengths that fit the address
    families, a slip ratio of at most 10 and a table size that is not
    negative. *)
Definition valid_config (c : Config) : Prop :=
  second <= window c <= 3600 * second
  /\ window c mod second = 0
  /\ 1 <= ipv4PrefixLength c <= 32
  /\ 1 <= ipv6PrefixLength c <= 128
  /\ (slipRatio c <= 10)%N
  /\ 0 <= maxTableSize c.

(** The configurations a caller can build: [NewConfig], changed by any
    number of calls of [SetValue] (whether they succeed or not) and
    [SetNowFunc]. *)
Inductive built `{F : strconv.Float64} : Config -> Prop :=
| built_NewConfig : built NewConfig
| built_SetValue keyword arg c : built c -> built (SetValue keyword arg c).1
| built_SetNowFunc fn c : built c -> built (SetNowFunc fn c).

(** The keyword that sets the allowance of a category. *)
Definition category_keyword (ac : N) : option string :=
  if (ac =? AllowanceAnswer)%N then Some "responses-per-second"
  else if (ac =? AllowanceReferral)%N then Some "referrals-per-second"
  else if (ac =? AllowanceNoData)%N then Some "nodata-per-second"
  else if (ac =? AllowanceNXDomain)%N then Some "nxdomains-per-second"
  else if (ac =? AllowanceError)%N then Some "errors-per-second"
  else None.

(** * Properties *)

(** ** Arithmetic of [int64] *)

Lemma wrap64_in_range z : in_range (wrap64 z).
Proof.
  unfold in_range, wrap64, min_int, max_int.
  pose proof (Z.mod_pos_bound (z + 2 ^ 63) (2 ^ 64)). lia.
Qed.

Lemma wrap64_small z : in_range z -> wrap64 z = z.
Proof.
  unfold in_range, wrap64, min_int, max_int. intros Hz.
  rewrite Z.mod_small; lia.
Qed.

Lemma wrap64_eqm a b : (a - b) mod 2 ^ 64 = 0 -> wrap64 a = wrap64 b.
Proof.
  unfold wrap64. intros Hab. f_equal.
  apply Z.mod_divide in Hab; [|lia]. destruct Hab as [k Hk].
  replace (a + 2 ^ 63) with (b + 2 ^ 63 + k * 2 ^ 64) by lia.
  apply Z.mod_add. lia.
Qed.

Lemma wrap64_spec z : exists k, wrap64 z = z + k * 2 ^ 64.
Proof.
  unfold wrap64. exists (- ((z + 2 ^ 63) / 2 ^ 64)).
  pose proof (Z.div_mod (z + 2 ^ 63) (2 ^ 64)). lia.
Qed.

Lemma wrap64_sub_l a b : wrap64 (wrap64 a - b) = wrap64 (a - b).
Proof.
  destruct (wrap64_spec a) as [k ->]. apply wrap64_eqm.
  replace (a + k * 2 ^ 64 - b - (a - b)) with (k * 2 ^ 64) by lia.
  apply Z.mod_mul. lia.
Qed.

Lemma wrap64_sub_r a b : wrap64 (a - wrap64 b) = wrap64 (a - b).
Proof.
  destruct (wrap64_spec b) as [k ->]. apply wrap64_eqm.
  replace (a - (b + k * 2 ^ 64) - (a - b)) with (- k * 2 ^ 64) by lia.
  apply Z.mod_mul. lia.
Qed.

Lemma wrap64_add_l a b : wrap64 (wrap64 a + b) = wrap64 (a + b).
Proof.
  destruct (wrap64_spec a) as [k ->]. apply wrap64_eqm.
  replace (a + k * 2 ^ 64 + b - (a + b)) with (k * 2 ^ 64) by lia.
  apply Z.mod_mul. lia.
Qed.

Lemma wrap64_idem a : wrap64 (wrap64 a) = wrap64 a.
Proof. apply wrap64_small, wrap64_in_range. Qed.

(** ** The balance returned by [debit] *)

Section DebitBalance.

Context `{H : cache.ShardHash} `{U : UnicodeLower}.

Lemma debit_update_bounds c w allowance ra :
  0 <= window c <= max_int ->
  -1 <= allowance <= second + max_int ->
  let b := balance (debit_update c w allowance ra).2 in
  Z.min (- window c) (second - allowance) <= b
  <= Z.max (second - 1) (second - allowance).
Proof.
  intros Hw Ha. unfold debit_update.
  set (now := UnixNano_now c w).
  set (b0 := sub (sub now (allowTime ra)) allowance).
  assert (Hneg : neg (window c) = - window c).
  { unfold neg. apply wrap64_small. unfold in_range, min_int, max_int in *. lia. }
  assert (Hhigh : sub second allowance = second - allowance).
  { unfold sub. apply wrap64_small.
    unfold in_range, min_int, max_int, second in *. lia. }
  set (b1 := if second <=? b0 then sub second allowance
             else if b0 <? neg (window c) then neg (window c) else b0).
  assert (Hb1 : Z.min (- window c) (second - allowance) <= b1
                <= Z.max (second - 1) (second - allowance)).
  { subst b1. destruct (Z.leb_spec second b0).
    - rewrite Hhigh. lia.
    - destruct (Z.ltb_spec b0 (neg (window c))); rewrite Hneg in *;
        unfold second in *; lia. }
  destruct ((0 <? b1) || (slipCountdown ra =? 0)%N); [exact Hb1|].
  destruct (slipCountdown ra =? 1)%N; exact Hb1.
Qed.

Lemma debit_update_balance c w allowance ra :
  0 <= window c <= max_int ->
  -1 <= allowance <= second + window c ->
  let b := balance (debit_update c w allowance ra).2 in
  - window c <= b <= Z.max (second - 1) (second - allowance).
Proof.
  intros Hw Ha.
  pose proof (debit_update_bounds c w allowance ra Hw
                ltac:(unfold max_int, second in *; lia)) as Hb.
  cbn zeta in *. lia.
Qed.

(** C1 (amended). Whatever the table holds, hence after any sequence of
    debits: for a window that is a non-negative [int64] and an
    allowance of [-1] or more, the balance [debit] returns is at most
    the larger of [second - 1] and [second - allowance], hence below one
    second for a positive allowance; and it is at least [- window]
    when the allowance is at most one second plus the window. *)
Theorem debit_balance_clamped allowance t w r :
  0 <= window (cfg r) <= max_int ->
  -1 <= allowance <= max_int ->
  let b := (debit allowance t w r).1.1.1 in
  b <= Z.max (second - 1) (second - allowance)
  /\ (0 < allowance -> b < second)
  /\ (allowance <= second + window (cfg r) -> - window (cfg r) <= b).
Proof.
  intros Hw Ha b.
  assert (Hb : Z.min (- window (cfg r)) (second - allowance) <= b
               <= Z.max (second - 1) (second - allowance)).
  { subst b. unfold debit, cache.UpdateAdd.
    destruct (cache.items (table r) !! t) as [ra|] eqn:Hlk.
    - pose proof (debit_update_bounds (cfg r) w allowance ra Hw
                    ltac:(unfold second; lia)) as Hu.
      destruct (debit_update (cfg r) w allowance ra) as [ra' bs]. exact Hu.
    - unfold second in *.
      destruct (_ =? cache.limit _); [destruct (_ =? 0)%nat|]; simpl; lia. }
  split; [lia|]. split; lia.
Qed.

End DebitBalance.

Import Examples.
(** The hypotheses of [debit_balance_clamped] hold for the default
    window and a rate of two responses per second. *)
Lemma debit_balance_clamped_witness :
  let r := (NewRRL (set_responsesInterval 500000000 NewConfig)).2 in
  let b := (debit (H := Examples.length_hash) 500000000 "k" (Examples.at_time 0) r).1.1.1 in
  b <= Z.max (second - 1) (second - 500000000)
  /\ (0 < 500000000 -> b < second)
  /\ (500000000 <= second + window (cfg r) -> - window (cfg r) <= b).
Proof.
  apply (debit_balance_clamped (H := Examples.length_hash) 500000000 "k"
           (Examples.at_time 0) (NewRRL (set_responsesInterval 500000000 NewConfig)).2).
  - vm_compute. split; discriminate.
  - vm_compute. split; discriminate.
Defined.

(** C1 as stated fails on both sides. With two responses per second
    (an allowance of half a second) an account created at time 0 and
    debited again 0.7 seconds later returns a balance of 0.7 seconds,
    above [second - allowance]. With one response in 20 seconds under
    the default window of 15 seconds, an account created at time 0 and
    debited again 100 seconds later returns a balance of -19 seconds,
    below [- window]: the balance is reset to [second - allowance]
    without being held at the floor. *)
Lemma debit_balance_outside_stated_bounds :
  (let allowance := 500000000 in
   let r0 := (NewRRL (configure [("responses-per-second", "2")] NewConfig)).2 in
   let r1 := (debit (H := length_hash) allowance "k" (at_time 0) r0).2 in
   let b := (debit (H := length_hash) allowance "k" (at_time 700000000) r1).1.1.1 in
   allowanceForRtype (cfg r0) AllowanceAnswer = allowance
   /\ b = 700000000
   /\ ~ (- window (cfg r1) <= b <= 1000000000 - allowance))
  /\ (let allowance := 20000000000 in
      let r0 := (NewRRL (configure [("responses-per-second", "0.05")] NewConfig)).2 in
      let r1 := (debit (H := length_hash) allowance "k" (at_time 0) r0).2 in
      let b := (debit (H := length_hash) allowance "k" (at_time (100 * second))
                  r1).1.1.1 in
      allowanceForRtype (cfg r0) AllowanceAnswer = allowance
      /\ window (cfg r1) = 15 * second
      /\ b = -19000000000
      /\ ~ (- window (cfg r1) <= b <= 1000000000 - allowance)).
Proof.
  vm_compute. split.
  - split; [reflexivity|]. split; [reflexivity|].
    intros [_ Hle]. apply Hle. reflexivity.
  - split; [reflexivity|]. split; [reflexivity|]. split; [reflexivity|].
    intros [Hle _]. apply Hle. reflexivity.
Qed.

(** ** [finalize] and [NewRRL] *)

Lemma finalize_fields c :
  window (finalize c) = window c
  /\ ipv4PrefixLength (finalize c) = ipv4PrefixLength c
  /\ ipv6PrefixLength (finalize c) = ipv6PrefixLength c
  /\ responsesInterval (finalize c) = responsesInterval c
  /\ requestsInterval (finalize c) = requestsInterval c
  /\ slipRatio (finalize c) = slipRatio c
  /\ maxTableSize (finalize c) = maxTableSize c.
Proof.
  destruct c as [w p4 p6 rs nd nx rf er rq sr mt [] [] [] [] [f|]];
    cbn; repeat split; reflexivity.
Qed.

Lemma finalize_nowFunc c :
  nowFunc (finalize c) = Some (default time_Now (nowFunc c)).
Proof.
  destruct c as [w p4 p6 rs nd nx rf er rq sr mt [] [] [] [] [f|]];
    reflexivity.
Qed.

(** The clock of a new [RRL] is never [nil]. *)
Lemma NewRRL_clock c : is_Some (nowFunc (cfg (NewRRL c).2)).
Proof. cbn. rewrite finalize_nowFunc. eauto. Qed.

(** ** One call of [debit], by cases on the table *)

Section DebitCases.

Context `{H : cache.ShardHash} `{U : UnicodeLower}.

Lemma debit_found allowance t w r ra :
  cache.items (table r) !! t = Some ra ->
  debit allowance t w r =
    let ra' := (debit_update (cfg r) w allowance ra).1 in
    let bs := (debit_update (cfg r) w allowance ra).2 in
    ((balance bs, slip bs, None),
     {| cfg := cfg r;
        table := {| cache.limit := cache.limit (table r);
                    cache.items := <[t := ra']> (cache.items (table r));
                    cache.isExpired := cache.isExpired (table r) |};
        stats := incrementEvictions 0 (stats r) |}).
Proof.
  intros Hlk. unfold debit, cache.UpdateAdd. rewrite Hlk.
  destruct (debit_update (cfg r) w allowance ra) as [ra' bs]. reflexivity.
Qed.

Lemma debit_new_table allowance t w c :
  debit allowance t w (NewRRL c).2 =
    ((0, false, None),
     {| cfg := finalize c;
        table := {| cache.limit := cache.limit (initTable (finalize c));
                    cache.items := {[ t := debit_add (finalize c) w allowance ]};
                    cache.isExpired := Some (evictFn (finalize c)) |};
        stats := incrementEvictions 0 zero |}).
Proof.
  unfold debit, cache.UpdateAdd. cbn [NewRRL snd cfg table stats].
  unfold initTable, cache.SetEvict, cache.New. cbn [cache.items cache.limit cache.isExpired].
  rewrite lookup_empty. unfold cache.shard. cbn [cache.items].
  rewrite map_filter_empty, map_size_empty.
  replace (Z.of_nat 0 =? _) with false.
  - reflexivity.
  - symmetry. apply Z.eqb_neq. destruct (maxTableSize (finalize c) <? 1024) eqn:E.
    + lia.
    + apply Z.ltb_ge in E. lia.
Qed.

(** [Debit] when client-network limiting is off, the transport is UDP
    and the category has a non-zero allowance: the call is one [debit]
    of the response account. *)
Lemma Debit_response_only w src tuple r :
  requestsInterval (cfg r) = 0 ->
  HasPrefix (Addr_Network src) "udp" = true ->
  allowanceForRtype (cfg r) (AllowanceCategory tuple) <> 0 ->
  Debit w src tuple r =
    let ac := AllowanceCategory tuple in
    let t := accountToken (addrPrefix (cfg r) (Addr_String src)) (Type_ tuple)
               (ToLower (SalientName tuple)) ac in
    let d := debit (allowanceForRtype (cfg r) ac) t w r in
    let act := match d.1.2 with
               | Some _ => Drop
               | None => if d.1.1.1 <? 0 then (if d.1.1.2 then Slip else Drop) else Send
               end in
    let rtr := match d.1.2 with
               | Some _ => RTCacheFull
               | None => if d.1.1.1 <? 0 then RTRateLimit else RTOk
               end in
    ((act, IPNotConfigured, rtr),
     incrementDebitStats act IPNotConfigured rtr ac d.2).
Proof.
  intros Hrq Hudp Hal. unfold Debit. rewrite Hrq, Hudp. cbn [Z.eqb negb].
  apply Z.eqb_neq in Hal. rewrite Hal.
  destruct (debit _ _ w r) as [[[b sl] [e|]] r2]; cbn; [reflexivity|].
  destruct (b <? 0); reflexivity.
Qed.

End DebitCases.

(** ** One account, debited again and again *)

Lemma debit_update_offset c w T x d k al :
  UnixNano_now c w = wrap64 (T + x) ->
  0 <= window c <= 2 ^ 62 ->
  - 2 ^ 62 <= al <= 2 ^ 62 ->
  - 2 ^ 62 <= x - d - al <= 2 ^ 62 ->
  let b0 := x - d - al in
  let b1 := if second <=? b0 then second - al
            else if b0 <? - window c then - window c else b0 in
  debit_update c w al {| allowTime := wrap64 (T + d); slipCountdown := k |} =
    ({| allowTime := wrap64 (T + (x - b1));
        slipCountdown :=
          if (0 <? b1) || (k =? 0)%N then k
          else if (k =? 1)%N then slipRatio c else (k - 1)%N |},
     {| balance := b1;
        slip := if (0 <? b1) || (k =? 0)%N then false else (k =? 1)%N |}).
Proof.
  intros Hnow Hw Hal Hb b0 b1. unfold debit_update. rewrite Hnow.
  cbn [allowTime slipCountdown].
  assert (E0 : sub (sub (wrap64 (T + x)) (wrap64 (T + d))) al = b0).
  { unfold sub. rewrite wrap64_sub_l.
    destruct (wrap64_spec (T + x)) as [k1 ->].
    destruct (wrap64_spec (T + d)) as [k2 ->].
    transitivity (wrap64 b0).
    - apply wrap64_eqm.
      replace (T + x + k1 * 2 ^ 64 - (T + d + k2 * 2 ^ 64) - al - b0)
        with ((k1 - k2) * 2 ^ 64) by (subst b0; lia).
      apply Z.mod_mul. lia.
    - apply wrap64_small. unfold in_range, min_int, max_int. subst b0. lia. }
  assert (E1 : neg (window c) = - window c).
  { unfold neg. apply wrap64_small. unfold in_range, min_int, max_int. lia. }
  assert (E2 : sub second al = second - al).
  { unfold sub. apply wrap64_small. unfold in_range, min_int, max_int, second. lia. }
  rewrite E0, E1, E2. fold b1.
  assert (E3 : sub (wrap64 (T + x)) b1 = wrap64 (T + (x - b1))).
  { unfold sub. rewrite wrap64_sub_l. f_equal. lia. }
  rewrite E3.
  destruct ((0 <? b1) || (k =? 0)%N); [reflexivity|].
  destruct (k =? 1)%N; reflexivity.
Qed.

Lemma next_balance_range win x d :
  0 <= win -> - win <= next_balance win x d < second.
Proof.
  intros Hw. unfold next_balance, second.
  destruct (Z.leb_spec 1000000000 (x - d - 1000000000)); [lia|].
  destruct (Z.ltb_spec (x - d - 1000000000) (- win)); lia.
Qed.

Section OneAccount.

Context `{H : cache.ShardHash} `{U : UnicodeLower}.

Variables (c : Config) (f : Clock) (src : Addr) (tuple : ResponseTuple).

Hypothesis c_requests : requestsInterval c = 0.
Hypothesis c_window : second <= window c <= 3600 * second.
Hypothesis c_clock : default time_Now (nowFunc c) = f.
Hypothesis src_udp : HasPrefix (Addr_Network src) "udp" = true.
Hypothesis tuple_allowance :
  allowanceForRtype (finalize c) (AllowanceCategory tuple) = second.

Lemma finalized_clock w : UnixNano_now (finalize c) w = wrap64 (f w).
Proof. unfold UnixNano_now. rewrite finalize_nowFunc, c_clock. reflexivity. Qed.

Lemma Debit_first w :
  exists r1,
    Debit w src tuple (NewRRL c).2 = ((Send, IPNotConfigured, RTOk), r1)
    /\ tracks c src tuple r1 (f w) 0 (slipRatio c).
Proof.
  exists (Debit w src tuple (NewRRL c).2).2. unfold tracks, response_key.
  rewrite Debit_response_only; change (cfg (NewRRL c).2) with (finalize c).
  - cbn zeta. rewrite tuple_allowance.
    rewrite debit_new_table. cbn [fst snd Z.ltb Z.compare].
    split; [reflexivity|]. split; [reflexivity|].
    cbn [table cache.items incrementDebitStats].
    rewrite lookup_singleton_eq. unfold debit_add. rewrite finalized_clock.
    destruct (finalize_fields c) as (_ & _ & _ & _ & _ & -> & _).
    do 2 f_equal. unfold add, sub.
    rewrite wrap64_sub_l, wrap64_add_l. f_equal. lia.
  - destruct (finalize_fields c) as (_ & _ & _ & _ & -> & _). exact c_requests.
  - exact src_udp.
  - rewrite tuple_allowance. discriminate.
Qed.

Lemma Debit_tracked w r T x d k :
  tracks c src tuple r T d k ->
  f w = T + x ->
  - 2 ^ 61 <= x - d <= 2 ^ 61 ->
  exists r',
    Debit w src tuple r
    = ((next_action (window c) x d k, IPNotConfigured,
        if next_balance (window c) x d <? 0 then RTRateLimit else RTOk), r')
    /\ tracks c src tuple r' T (x - next_balance (window c) x d) (next_countdown (window c) (slipRatio c) x d k).
Proof.
  unfold tracks, response_key.
  intros [Hcfg Hlk] Hw Hxd.
  pose proof (debit_update_offset (finalize c) w T x d k second) as Hu.
  destruct (finalize_fields c) as (Ew & _ & _ & _ & Erq & Esr & _).
  rewrite Ew, Esr in Hu. unfold second in *.
  specialize (Hu ltac:(rewrite finalized_clock, Hw; reflexivity)
                 ltac:(lia) ltac:(lia) ltac:(lia)).
  cbn zeta in Hu. replace (1000000000 - 1000000000) with 0 in Hu by lia.
  exists (Debit w src tuple r).2.
  rewrite Debit_response_only; rewrite ?Hcfg.
  - cbn zeta. rewrite tuple_allowance.
    rewrite (debit_found _ _ _ _ _ Hlk), Hcfg. unfold second.
    rewrite Hu. cbn [fst snd balance slip].
    unfold next_action, next_countdown, next_balance, second.
    set (b := if 1000000000 <=? x - d - 1000000000 then 0
              else if x - d - 1000000000 <? - window c then - window c
                   else x - d - 1000000000).
    split.
    + f_equal. destruct (b <? 0) eqn:Eb; [|reflexivity].
      replace (0 <? b) with false
        by (symmetry; apply Z.ltb_ge; apply Z.ltb_lt in Eb; lia).
      cbn [orb]. destruct (k =? 0)%N eqn:Ek0.
      * apply N.eqb_eq in Ek0. subst k. reflexivity.
      * destruct (k =? 1)%N; reflexivity.
    + split; [reflexivity|]. cbn [table cache.items incrementDebitStats].
      rewrite lookup_insert_eq. reflexivity.
  - rewrite Erq. exact c_requests.
  - exact src_udp.
  - rewrite tuple_allowance. discriminate.
Qed.

Lemma repeat_Debit_tracked w T x n : forall r d k,
  tracks c src tuple r T d k ->
  f w = T + x ->
  - 2 ^ 61 <= x - d <= 2 ^ 61 ->
  exists r',
    (Examples.repeat_Debit n w src tuple r).2 = r'
    /\ map (fun y => y.1.1) (Examples.repeat_Debit n w src tuple r).1
       = (account_run (window c) (slipRatio c) n x d k).1
    /\ map (fun y => y.2) (Examples.repeat_Debit n w src tuple r).1
       = map (fun a => match a with Send => RTOk | _ => RTRateLimit end)
           (account_run (window c) (slipRatio c) n x d k).1
    /\ tracks c src tuple r' T (account_run (window c) (slipRatio c) n x d k).2.1
         (account_run (window c) (slipRatio c) n x d k).2.2.
Proof.
  induction n as [|n IH]; intros r d k Htr Hw Hxd.
  - exists r. cbn. auto.
  - destruct (Debit_tracked w r T x d k Htr Hw Hxd) as (r1 & HD & Htr1).
    pose proof (next_balance_range (window c) x d ltac:(unfold second in *; lia)) as Hb.
    destruct (IH r1 _ _ Htr1 Hw) as (r2 & Hr2 & Hacts & Hrtr & Htr2).
    { unfold second in *. lia. }
    cbn [Examples.repeat_Debit account_run]. rewrite HD.
    destruct (Examples.repeat_Debit n w src tuple r1) as [xs r2'].
    destruct (account_run _ _ n x _ _) as [acts st].
    cbn [fst snd map] in *. exists r2'. subst r2.
    split; [reflexivity|]. split; [congruence|]. split; [|exact Htr2].
    f_equal; [|exact Hrtr].
    unfold next_action. destruct (_ <? 0); [destruct (k =? 1)%N|]; reflexivity.
Qed.

End OneAccount.

(** ** The window scenario (C2) and the slip pattern (C4) *)

Lemma account_run_pinned win n : forall d k,
  second <= win -> 0 <= d <= win -> k = 1%N \/ k = 2%N ->
  (account_run win 2 n 0 d k).1
  = map (fun j => if (if (k =? 2)%N then Nat.even j else Nat.odd j)
                  then Drop else Slip) (seq 0 n).
Proof.
  induction n as [|n IH]; intros d k Hw Hd Hk; [reflexivity|].
  cbn [account_run].
  assert (Hb : next_balance win 0 d < 0 /\ 0 <= 0 - next_balance win 0 d <= win).
  { unfold next_balance, second in *.
    destruct (Z.leb_spec 1000000000 (0 - d - 1000000000)); [lia|].
    destruct (Z.ltb_spec (0 - d - 1000000000) (- win)); lia. }
  destruct Hb as [Hneg Hd'].
  specialize (IH (0 - next_balance win 0 d) (next_countdown win 2 0 d k) Hw Hd').
  destruct (account_run win 2 n 0 _ _) as [acts st]. cbn [fst] in *.
  cbn [seq map]. rewrite <- seq_shift, map_map.
  unfold next_action, next_countdown in *.
  replace (next_balance win 0 d <? 0) with true by (symmetry; apply Z.ltb_lt; lia).
  replace (0 <? next_balance win 0 d) with false in * by (symmetry; apply Z.ltb_ge; lia).
  destruct Hk as [-> | ->]; cbn [N.eqb Pos.eqb orb N.sub Pos.sub Pos.pred_double] in *.
  - rewrite IH by (right; reflexivity). cbn [N.eqb Pos.eqb].
    f_equal. apply map_ext. intros j. rewrite Nat.odd_succ. reflexivity.
  - rewrite IH by (left; reflexivity). cbn [N.eqb Pos.eqb].
    f_equal. apply map_ext. intros j. rewrite Nat.even_succ. reflexivity.
Qed.

Lemma stated_action_tail n :
  map stated_action (seq 1 n)
  = map (fun j => if Nat.even j then Drop else Slip) (seq 0 n).
Proof.
  rewrite <- seq_shift, map_map. apply map_ext. intros j.
  unfold stated_action. rewrite Nat.odd_succ. reflexivity.
Qed.

Lemma unset_rates_follow_responses c ac :
  other_rates_unset c -> (ac < AllowanceLast)%N ->
  allowanceForRtype (finalize c) ac = responsesInterval c.
Proof.
  intros (Hnd & Hnx & Hrf & Her) Hac.
  destruct c as [w p4 p6 rs nd nx rf er rq sr mt ndS nxS rfS erS nf].
  cbn in Hnd, Hnx, Hrf, Her. subst ndS nxS rfS erS.
  unfold AllowanceLast in Hac.
  assert (Hcases : ac = AllowanceAnswer \/ ac = AllowanceReferral
                   \/ ac = AllowanceNoData \/ ac = AllowanceNXDomain
                   \/ ac = AllowanceError)
    by (unfold AllowanceAnswer, AllowanceReferral, AllowanceNoData,
          AllowanceNXDomain, AllowanceError; lia).
  unfold finalize. cbn.
  destruct nf; destruct Hcases as [-> | [-> | [-> | [-> | ->]]]]; reflexivity.
Qed.

Section Scenarios.

Context `{H : cache.ShardHash} `{U : UnicodeLower}.

Variables (c : Config) (f : Clock) (src : Addr) (tuple : ResponseTuple).

Hypothesis c_responses : responsesInterval c = second.
Hypothesis c_others : other_rates_unset c.
Hypothesis c_requests : requestsInterval c = 0.
Hypothesis c_clock : nowFunc c = Some f.
Hypothesis src_udp : HasPrefix (Addr_Network src) "udp" = true.
Hypothesis tuple_defined : (AllowanceCategory tuple < AllowanceLast)%N.

Lemma scenario_allowance :
  allowanceForRtype (finalize c) (AllowanceCategory tuple) = second.
Proof.
  rewrite (unset_rates_follow_responses c _ c_others tuple_defined).
  exact c_responses.
Qed.

Lemma scenario_clock : default time_Now (nowFunc c) = f.
Proof. rewrite c_clock. reflexivity. Qed.

(** C2 (amended). With one response per second and no other rate set,
    a window of 15 seconds and a slip ratio of 0, client-network
    limiting off, and a clock that the caller controls: the first debit
    of a UDP tuple of any of the five defined categories is sent, each
    of the next 15 is dropped and leaves the account 15 seconds in debt,
    one more debit 14 seconds later is still dropped, and 4 seconds
    after that exactly one debit is sent and the next one is
    dropped. *)
Theorem window_scenario (w0 w14 w18 : World) :
  window c = 15 * second ->
  slipRatio c = 0%N ->
  f w14 = f w0 + 14 * second ->
  f w18 = f w14 + 4 * second ->
  let s1 := Examples.repeat_Debit 1 w0 src tuple (NewRRL c).2 in
  let s2 := Examples.repeat_Debit 15 w0 src tuple s1.2 in
  let s3 := Examples.repeat_Debit 1 w14 src tuple s2.2 in
  let s4 := Examples.repeat_Debit 2 w18 src tuple s3.2 in
  map action_of s1.1 = [Send]
  /\ map action_of s2.1 = replicate 15 Drop
  /\ tracks c src tuple s2.2 (f w0) (15 * second) 0
  /\ map action_of s3.1 = [Drop]
  /\ map action_of s4.1 = [Send; Drop].
Proof.
  intros Hwin Hsr H14 H18.
  assert (c_window : second <= window c <= 3600 * second)
    by (rewrite Hwin; unfold second; lia).
  destruct (Debit_first c f src tuple c_requests scenario_clock src_udp
              scenario_allowance w0) as (r1 & HD1 & Htr1).
  rewrite Hsr in Htr1.
  pose proof (repeat_Debit_tracked c f src tuple c_requests c_window
                scenario_clock src_udp scenario_allowance) as Hrun.
  destruct (Hrun w0 (f w0) 0 15%nat r1 0 0%N Htr1 ltac:(lia) ltac:(lia))
    as (r2 & Hr2 & Ha2 & _ & Htr2).
  rewrite Hwin, Hsr in Ha2, Htr2.
  change (account_run (15 * second) 0 15 0 0 0).1 with (replicate 15 Drop) in Ha2.
  change (account_run (15 * second) 0 15 0 0 0).2 with (15 * second, 0%N) in Htr2.
  cbn [fst snd] in Htr2.
  destruct (Hrun w14 (f w0) (14 * second) 1%nat r2 _ _ Htr2 ltac:(lia)
              ltac:(unfold second; lia)) as (r3 & Hr3 & Ha3 & _ & Htr3).
  rewrite Hwin, Hsr in Ha3, Htr3.
  change (account_run (15 * second) 0 1 (14 * second) (15 * second) 0).1
    with [Drop] in Ha3.
  change (account_run (15 * second) 0 1 (14 * second) (15 * second) 0).2
    with (16 * second, 0%N) in Htr3.
  cbn [fst snd] in Htr3.
  destruct (Hrun w18 (f w0) (18 * second) 2%nat r3 _ _ Htr3 ltac:(lia)
              ltac:(unfold second; lia)) as (r4 & Hr4 & Ha4 & _ & Htr4).
  rewrite Hwin, Hsr in Ha4.
  change (account_run (15 * second) 0 2 (18 * second) (16 * second) 0).1
    with [Send; Drop] in Ha4.
  assert (Hs1 : Examples.repeat_Debit 1 w0 src tuple (NewRRL c).2
                = ([(Send, IPNotConfigured, RTOk)], r1)).
  { cbn [Examples.repeat_Debit]. rewrite HD1. reflexivity. }
  cbn zeta. rewrite Hs1. cbn [fst snd]. rewrite Hr2, Hr3.
  repeat split; try assumption.
  - apply Htr2.
  - apply Htr2.
Qed.

(** C4 (amended). With one response per second and no other rate set,
    a slip ratio of 2, whatever the window, client-network limiting off
    and the clock pinned: [n] consecutive debits of a UDP tuple of any
    of the five defined categories return Send, Drop, Slip, Drop, Slip,
    ... for every [n]. *)
Theorem slip_pattern (w : World) (n : nat) :
  second <= window c <= 3600 * second ->
  slipRatio c = 2%N ->
  map action_of (Examples.repeat_Debit n w src tuple (NewRRL c).2).1
  = map stated_action (seq 0 n).
Proof.
  intros c_window Hsr. destruct n as [|n]; [reflexivity|].
  destruct (Debit_first c f src tuple c_requests scenario_clock src_udp
              scenario_allowance w) as (r1 & HD1 & Htr1).
  rewrite Hsr in Htr1.
  destruct (repeat_Debit_tracked c f src tuple c_requests c_window
              scenario_clock src_udp scenario_allowance w (f w) 0 n r1 0 2%N Htr1
              ltac:(lia) ltac:(lia)) as (r2 & _ & Ha & _).
  rewrite Hsr in Ha.
  rewrite account_run_pinned in Ha
    by (unfold second in *; first [lia | right; reflexivity]).
  cbn [Examples.repeat_Debit]. rewrite HD1.
  destruct (Examples.repeat_Debit n w src tuple r1) as [xs r2'].
  cbn [fst snd map seq] in *. unfold action_of in *. cbn [fst].
  change (stated_action 0) with Send. f_equal.
  rewrite Ha, stated_action_tail. reflexivity.
Qed.

End Scenarios.

(** The hypotheses of [window_scenario] hold for the configuration of
    the window test, with the clock at 0, 14 and 18 seconds, here for
    the tuple of an NXDOMAIN response. *)
Lemma window_scenario_witness :
  let c := Examples.window_config in
  let src := Examples.udp_client in
  let tuple := Examples.nxdomain_tuple in
  let s1 := repeat_Debit (H := length_hash) 1 (at_time 0) src tuple (NewRRL c).2 in
  let s2 := repeat_Debit (H := length_hash) 15 (at_time 0) src tuple s1.2 in
  let s3 := repeat_Debit (H := length_hash) 1 (at_time (14 * second)) src tuple s2.2 in
  let s4 := repeat_Debit (H := length_hash) 2 (at_time (18 * second)) src tuple s3.2 in
  map action_of s1.1 = [Send]
  /\ map action_of s2.1 = replicate 15 Drop
  /\ tracks c src tuple s2.2 (test_clock (at_time 0)) (15 * second) 0
  /\ map action_of s3.1 = [Drop]
  /\ map action_of s4.1 = [Send; Drop].
Proof.
  refine (window_scenario (H := length_hash) (U := ascii_names) window_config test_clock
            udp_client nxdomain_tuple _ _ _ _ _ _
            (at_time 0) (at_time (14 * second)) (at_time (18 * second))
            _ _ _ _);
    first [ reflexivity | vm_compute; repeat split; reflexivity ].
Defined.

(** C2 as stated fails twice. With one response per second and a
    window of 15 seconds, everything else at its default, the slip
    ratio is 2 and the second of the 15 debits after the first one
    slips instead of being dropped. And with the slip ratio at 0, a
    tuple whose category field holds 200, none of the five defined
    values, is sent every time. *)
Lemma window_scenario_fails_as_stated :
  let c := Examples.window_config_default_slip in
  let s1 := repeat_Debit (H := length_hash) 1 (at_time 0) udp_client answer_tuple
              (NewRRL c).2 in
  let s2 := repeat_Debit (H := length_hash) 15 (at_time 0) udp_client answer_tuple
              s1.2 in
  let u1 := repeat_Debit (H := length_hash) 1 (at_time 0) udp_client unknown_tuple
              (NewRRL window_config).2 in
  let u2 := repeat_Debit (H := length_hash) 15 (at_time 0) udp_client unknown_tuple
              u1.2 in
  (responsesInterval c = second /\ window c = 15 * second /\ slipRatio c = 2%N
   /\ map action_of s1.1 = [Send]
   /\ nth_error (map action_of s2.1) 1 = Some Slip
   /\ map action_of s2.1 <> replicate 15 Drop)
  /\ (map action_of u1.1 = [Send]
      /\ map action_of u2.1 = replicate 15 Send
      /\ map action_of u2.1 <> replicate 15 Drop).
Proof.
  vm_compute. repeat split; discriminate.
Qed.

(** The hypotheses of [slip_pattern] hold for the configuration of the
    slip test and six debits at time 0, here for the tuple of an
    NXDOMAIN response. *)
Lemma slip_pattern_witness :
  map action_of
    (repeat_Debit (H := length_hash) 6 (at_time 0) udp_client nxdomain_tuple
       (NewRRL slip_config).2).1
  = [Send; Drop; Slip; Drop; Slip; Drop].
Proof.
  refine (slip_pattern (H := length_hash) (U := ascii_names) slip_config test_clock udp_client
            nxdomain_tuple _ _ _ _ _ _ (at_time 0) 6 _ _);
    first [ reflexivity
          | vm_compute; repeat split; first [reflexivity | discriminate] ].
Defined.

(** C4 as stated fails for a tuple whose category field holds 200,
    none of the five defined values: under the configuration of the
    slip test all six debits at time 0 are sent. *)
Lemma slip_pattern_unknown_category :
  let xs := map action_of
              (repeat_Debit (H := length_hash) 6 (at_time 0) udp_client
                 unknown_tuple (NewRRL slip_config).2).1 in
  responsesInterval slip_config = second /\ slipRatio slip_config = 2%N
  /\ xs = replicate 6 Send
  /\ xs <> [Send; Drop; Slip; Drop; Slip; Drop].
Proof.
  vm_compute. repeat split; discriminate.
Qed.

(** ** Invariants of [debit] and [Debit] *)

Section Invariants.

Context `{H : cache.ShardHash} `{U : UnicodeLower}.

Lemma debit_cfg allowance t w r : cfg (debit allowance t w r).2 = cfg r.
Proof.
  unfold debit. destruct (cache.UpdateAdd _ _ _ _ _) as [[[b| |e] tbl] n];
    reflexivity.
Qed.

(** A property of the [RRL] that every [debit] and every update of the
    counters keeps is kept by [Debit]. *)
Lemma Debit_preserves (P : RRL -> Prop) w src tuple r :
  (forall allowance t r0, P r0 -> P (debit allowance t w r0).2) ->
  (forall act ipr rtr ac r0, P r0 -> P (incrementDebitStats act ipr rtr ac r0)) ->
  P r -> P (Debit w src tuple r).2.
Proof.
  intros Hd Hs HP. unfold Debit.
  assert (Hstage : forall ipr r1, P r1 ->
    P (if negb (HasPrefix (Addr_Network src) "udp")
       then (Send, ipr, RTNotUDP,
             incrementDebitStats Send ipr RTNotUDP (AllowanceCategory tuple) r1)
       else
         if allowanceForRtype (cfg r1) (AllowanceCategory tuple) =? 0
         then (Send, ipr, RTNotConfigured,
               incrementDebitStats Send ipr RTNotConfigured (AllowanceCategory tuple) r1)
         else
           let '(b, slip, err, r2) :=
             debit (allowanceForRtype (cfg r1) (AllowanceCategory tuple))
               (accountToken (addrPrefix (cfg r) (Addr_String src)) (Type_ tuple)
                  (ToLower (SalientName tuple)) (AllowanceCategory tuple)) w r1 in
           match err with
           | Some _ =>
               (Drop, ipr, RTCacheFull,
                incrementDebitStats Drop ipr RTCacheFull (AllowanceCategory tuple) r2)
           | None =>
               if b <? 0
               then (if slip then Slip else Drop, ipr, RTRateLimit,
                     incrementDebitStats (if slip then Slip else Drop) ipr RTRateLimit
                       (AllowanceCategory tuple) r2)
               else (Send, ipr, RTOk,
                     incrementDebitStats Send ipr RTOk (AllowanceCategory tuple) r2)
           end).2).
  { intros ipr r1 HP1.
    destruct (negb _); [apply Hs, HP1|].
    destruct (_ =? 0); [apply Hs, HP1|].
    specialize (Hd (allowanceForRtype (cfg r1) (AllowanceCategory tuple))
                  (accountToken (addrPrefix (cfg r) (Addr_String src)) (Type_ tuple)
                     (ToLower (SalientName tuple)) (AllowanceCategory tuple)) r1 HP1).
    destruct (debit _ _ w r1) as [[[b sl] [e|]] r2]; cbn [snd] in *.
    - apply Hs, Hd.
    - destruct (b <? 0); apply Hs, Hd. }
  destruct (negb (requestsInterval (cfg r) =? 0)).
  - specialize (Hd (requestsInterval (cfg r)) (addrPrefix (cfg r) (Addr_String src))
                  r HP).
    destruct (debit _ _ w r) as [[[b sl] [e|]] r1]; cbn [snd] in *.
    + apply Hs, Hd.
    + destruct (b <? 0); [apply Hs, Hd|]. apply Hstage, Hd.
  - apply Hstage, HP.
Qed.

(** When [Debit] recommends Slip, a [debit] of the call returned slip:
    the one of the response account, on the [RRL] as the client-network
    stage left it. *)
Lemma Debit_Slip_source (P : RRL -> Prop) w src tuple r :
  (forall allowance t r0, P r0 -> P (debit allowance t w r0).2) ->
  P r ->
  (Debit w src tuple r).1.1.1 = Slip ->
  exists allowance t r1, P r1 /\ (debit allowance t w r1).1.1.2 = true.
Proof.
  intros Hd HP. unfold Debit.
  assert (Hstage : forall ipr r1, P r1 ->
    (if negb (HasPrefix (Addr_Network src) "udp")
       then (Send, ipr, RTNotUDP,
             incrementDebitStats Send ipr RTNotUDP (AllowanceCategory tuple) r1)
       else
         if allowanceForRtype (cfg r1) (AllowanceCategory tuple) =? 0
         then (Send, ipr, RTNotConfigured,
               incrementDebitStats Send ipr RTNotConfigured (AllowanceCategory tuple) r1)
         else
           let '(b, slip, err, r2) :=
             debit (allowanceForRtype (cfg r1) (AllowanceCategory tuple))
               (accountToken (addrPrefix (cfg r) (Addr_String src)) (Type_ tuple)
                  (ToLower (SalientName tuple)) (AllowanceCategory tuple)) w r1 in
           match err with
           | Some _ =>
               (Drop, ipr, RTCacheFull,
                incrementDebitStats Drop ipr RTCacheFull (AllowanceCategory tuple) r2)
           | None =>
               if b <? 0
               then (if slip then Slip else Drop, ipr, RTRateLimit,
                     incrementDebitStats (if slip then Slip else Drop) ipr RTRateLimit
                       (AllowanceCategory tuple) r2)
               else (Send, ipr, RTOk,
                     incrementDebitStats Send ipr RTOk (AllowanceCategory tuple) r2)
           end).1.1.1 = Slip ->
    exists allowance t r1, P r1 /\ (debit allowance t w r1).1.1.2 = true).
  { intros ipr r1 HP1.
    destruct (negb _); [discriminate|].
    destruct (_ =? 0); [discriminate|].
    destruct (debit _ _ w r1) as [[[b sl] [e|]] r2] eqn:Ed; [discriminate|].
    destruct (b <? 0); [|discriminate].
    destruct sl; [|discriminate]. intros _.
    eexists _, _, r1. split; [exact HP1|]. rewrite Ed. reflexivity. }
  destruct (negb (requestsInterval (cfg r) =? 0)).
  - specialize (Hd (requestsInterval (cfg r)) (addrPrefix (cfg r) (Addr_String src))
                  r HP).
    destruct (debit _ _ w r) as [[[b sl] [e|]] r1]; cbn [snd] in *; [discriminate|].
    destruct (b <? 0); [discriminate|]. apply Hstage, Hd.
  - apply Hstage, HP.
Qed.

Lemma Debit_cfg w src tuple r : cfg (Debit w src tuple r).2 = cfg r.
Proof.
  apply (Debit_preserves (fun r' => cfg r' = cfg r)).
  - intros al t r0 E. rewrite debit_cfg. exact E.
  - intros act ipr rtr ac r0 E. exact E.
  - reflexivity.
Qed.

Lemma reachable_cfg c r : reachable c r -> cfg r = finalize c.
Proof.
  induction 1 as [|w src tuple r _ IH|z r _ IH].
  - reflexivity.
  - rewrite Debit_cfg. exact IH.
  - unfold GetStats. destruct (Copy z (stats r)). exact IH.
Qed.

(** ** No slip without a slip ratio (C3) *)

Lemma debit_update_countdown_zero c w allowance ra :
  slipCountdown ra = 0%N ->
  slipCountdown (debit_update c w allowance ra).1 = 0%N
  /\ slip (debit_update c w allowance ra).2 = false.
Proof.
  intros E. unfold debit_update. rewrite E. cbn [N.eqb].
  rewrite orb_true_r. split; reflexivity.
Qed.

Lemma debit_countdowns_zero allowance t w r :
  slipRatio (cfg r) = 0%N ->
  countdowns_zero r ->
  countdowns_zero (debit allowance t w r).2
  /\ (debit allowance t w r).1.1.2 = false.
Proof.
  intros Hsr Hz. unfold debit, cache.UpdateAdd.
  destruct (cache.items (table r) !! t) as [ra|] eqn:Hlk.
  - destruct (debit_update_countdown_zero (cfg r) w allowance ra (Hz t ra Hlk))
      as [Hc Hs].
    destruct (debit_update (cfg r) w allowance ra) as [ra' bs].
    cbn [fst snd] in *. split; [|exact Hs].
    intros t' ra2. cbn [table cache.items]. rewrite lookup_insert.
    destruct (decide (t = t')); intros E.
    + injection E as <-. exact Hc.
    + exact (Hz t' ra2 E).
  - assert (Hadd : slipCountdown (debit_add (cfg r) w allowance) = 0%N)
      by exact Hsr.
    destruct (_ =? cache.limit _); [destruct (_ =? 0)%nat|];
      cbn [fst snd]; (split; [|reflexivity]).
    + exact Hz.
    + intros t' ra2. cbn [table cache.items]. rewrite lookup_insert.
      destruct (decide (t = t')); intros E.
      * injection E as <-. exact Hadd.
      * apply map_lookup_filter_Some in E as [E _]. exact (Hz t' ra2 E).
    + intros t' ra2. cbn [table cache.items]. rewrite lookup_insert.
      destruct (decide (t = t')); intros E.
      * injection E as <-. exact Hadd.
      * exact (Hz t' ra2 E).
Qed.

Lemma reachable_countdowns_zero c r :
  slipRatio c = 0%N -> reachable c r -> countdowns_zero r.
Proof.
  intros Hsr Hr. induction Hr as [|w src tuple r Hr IH|z r Hr IH].
  - intros t ra. cbn. rewrite lookup_empty. discriminate.
  - pose proof (reachable_cfg c r Hr) as Hcfg.
    apply (Debit_preserves (fun r' => cfg r' = finalize c /\ countdowns_zero r')).
    + intros al t r0 [E Hz]. split; [rewrite debit_cfg; exact E|].
      apply debit_countdowns_zero; [|exact Hz].
      rewrite E. destruct (finalize_fields c) as (_ & _ & _ & _ & _ & -> & _).
      exact Hsr.
    + intros act ipr rtr ac r0 HP. exact HP.
    + split; assumption.
  - unfold GetStats. destruct (Copy z (stats r)). exact IH.
Qed.

(** C3. If the configured slip ratio is 0, no call of [Debit], for any
    address and any tuple, in any state reachable by earlier calls,
    recommends Slip. *)
Theorem no_slip_without_ratio c r w src tuple :
  slipRatio c = 0%N ->
  reachable c r ->
  (Debit w src tuple r).1.1.1 <> Slip.
Proof.
  intros Hsr Hr Hslip.
  pose proof (reachable_cfg c r Hr) as Hcfg.
  pose proof (reachable_countdowns_zero c r Hsr Hr) as Hz.
  assert (Hratio : forall r0, cfg r0 = finalize c -> slipRatio (cfg r0) = 0%N).
  { intros r0 ->. destruct (finalize_fields c) as (_ & _ & _ & _ & _ & -> & _).
    exact Hsr. }
  destruct (Debit_Slip_source
              (fun r' => cfg r' = finalize c /\ countdowns_zero r')
              w src tuple r) as (al & t & r1 & [E1 Hz1] & Htrue).
  - intros al t r0 [E Hz0]. split; [rewrite debit_cfg; exact E|].
    apply debit_countdowns_zero; [apply Hratio, E|exact Hz0].
  - split; assumption.
  - exact Hslip.
  - destruct (debit_countdowns_zero al t w r1 (Hratio r1 E1) Hz1) as [_ Hfalse].
    congruence.
Qed.

End Invariants.

(** The hypotheses of [no_slip_without_ratio] hold for the window test
    configuration after two debits. *)
Lemma no_slip_without_ratio_witness :
  let r1 := (Debit (H := length_hash) (at_time 0) udp_client answer_tuple
               (NewRRL window_config).2).2 in
  let r2 := (Debit (H := length_hash) (at_time 0) udp_client answer_tuple r1).2 in
  (Debit (H := length_hash) (at_time 0) udp_client answer_tuple r2).1.1.1 <> Slip.
Proof.
  apply (no_slip_without_ratio (H := length_hash) window_config).
  - reflexivity.
  - apply (reach_Debit (H := length_hash)), (reach_Debit (H := length_hash)),
      (reach_NewRRL (H := length_hash)).
Defined.

(** ** The transport of the client address (C5) *)

Section Transport.

Context `{H : cache.ShardHash} `{U : UnicodeLower}.

(** C5 (amended). The test on the transport tag is byte-wise and
    case-sensitive. When the tag begins with the lower-case bytes [udp]
    (as [udp], [udp4] and [udp6] do), [Debit] never reports [RTNotUDP].
    When it does not (as for [tcp], and for [UDP] in upper case), the
    response-tuple stage is bypassed: the reason is [RTNotUDP], or
    [RTNotReached] when the client-network stage ended the call, and the
    table is as the client-network stage left it. *)
Theorem transport_gate w src tuple r :
  (HasPrefix (Addr_Network src) "udp" = true ->
   (Debit w src tuple r).1.2 <> RTNotUDP)
  /\ (HasPrefix (Addr_Network src) "udp" = false ->
      ((Debit w src tuple r).1.2 = RTNotUDP
       \/ (Debit w src tuple r).1.2 = RTNotReached)
      /\ table (Debit w src tuple r).2
         = if requestsInterval (cfg r) =? 0 then table r
           else table (debit (requestsInterval (cfg r))
                         (addrPrefix (cfg r) (Addr_String src)) w r).2).
Proof.
  split; intros Hudp; unfold Debit; rewrite Hudp; cbn [negb].
  - destruct (requestsInterval (cfg r) =? 0); cbn [negb].
    + destruct (_ =? 0); [discriminate|].
      destruct (debit _ _ w r) as [[[b sl] [e|]] r2]; [discriminate|].
      destruct (b <? 0); discriminate.
    + destruct (debit _ _ w r) as [[[b sl] [e|]] r1]; [discriminate|].
      destruct (b <? 0); [discriminate|].
      destruct (_ =? 0); [discriminate|].
      destruct (debit _ _ w r1) as [[[b2 sl2] [e2|]] r2]; [discriminate|].
      destruct (b2 <? 0); discriminate.
  - destruct (requestsInterval (cfg r) =? 0); cbn [negb].
    + split; [left|]; reflexivity.
    + destruct (debit _ _ w r) as [[[b sl] [e|]] r1].
      * split; [right|]; reflexivity.
      * destruct (b <? 0); (split; [|reflexivity]); [right|left]; reflexivity.
Qed.

End Transport.

(** Both hypotheses of [transport_gate] can be met: [udp6] passes the
    test and [tcp] does not. *)
Lemma transport_gate_witness :
  let r := (NewRRL slip_config).2 in
  let udp6 := {| Addr_Network := "udp6"; Addr_String := "127.0.0.1:53" |} in
  let tcp := {| Addr_Network := "tcp"; Addr_String := "127.0.0.1:53" |} in
  (Debit (H := length_hash) (at_time 0) udp6 answer_tuple r).1.2 <> RTNotUDP
  /\ ((Debit (H := length_hash) (at_time 0) tcp answer_tuple r).1.2 = RTNotUDP
      \/ (Debit (H := length_hash) (at_time 0) tcp answer_tuple r).1.2 = RTNotReached).
Proof.
  split.
  - apply (proj1 (transport_gate (H := length_hash) (at_time 0) _ answer_tuple
                    (NewRRL slip_config).2)).
    reflexivity.
  - apply (proj2 (transport_gate (H := length_hash) (at_time 0) _ answer_tuple
                    (NewRRL slip_config).2)).
    reflexivity.
Defined.

(** C5 as stated fails: the lower-case form of the tag [UDP] begins
    with [udp], the response-tuple stage is configured and the
    client-network stage is off, yet [Debit] reports [RTNotUDP]. *)
Lemma transport_gate_upper_case_bypassed :
  let src := {| Addr_Network := "UDP"; Addr_String := "127.0.0.1:53" |} in
  let r := (NewRRL slip_config).2 in
  HasPrefix (ToLower (Addr_Network src)) "udp" = true
  /\ allowanceForRtype (cfg r) (AllowanceCategory answer_tuple) = second
  /\ requestsInterval (cfg r) = 0
  /\ (Debit (H := length_hash) (at_time 0) src answer_tuple r).1
     = (Send, IPNotConfigured, RTNotUDP)
  /\ cache.Len (table (Debit (H := length_hash) (at_time 0) src answer_tuple r).2) = 0.
Proof. vm_compute. repeat split. Qed.

(** ** Client networks that do not parse (C6) *)

Lemma Mask_nil mask : net.Mask [] mask = [].
Proof.
  unfold net.Mask. cbn [length].
  change (0 =? 4)%nat with false. rewrite andb_false_r. cbn [andb].
  change (0 =? 16)%nat with false. rewrite andb_false_r. cbn [andb].
  destruct (negb (length (@nil N) =? length mask)%nat); reflexivity.
Qed.

(** C6 (amended). If the last colon of [addr] is at an index below 4,
    or [addr] has no colon, [addrPrefix] returns the empty string. If
    the last colon is at index [i >= 4] and neither [addr[:i]] nor
    [addr[1:i-1]] parses as an address, as for [garbage:1234],
    [addrPrefix] returns the text [<nil>], which is how Go prints an
    address of length 0. *)
Theorem addrPrefix_unparseable c addr :
  (LastIndex addr ":" < 4 -> addrPrefix c addr = EmptyString)
  /\ (4 <= LastIndex addr ":" ->
      net.ParseIP (slice addr 0 (LastIndex addr ":")) = [] ->
      net.ParseIP (slice addr 1 (LastIndex addr ":" - 1)) = [] ->
      addrPrefix c addr = "<nil>").
Proof.
  unfold addrPrefix. split.
  - intros Hi. apply Z.ltb_lt in Hi. rewrite Hi. reflexivity.
  - intros Hi H4 H6. apply Z.ltb_ge in Hi. rewrite Hi, H4, H6.
    cbn [net.To4 net.isNil length Nat.eqb andb negb].
    rewrite Mask_nil. reflexivity.
Qed.

(** The hypotheses of [addrPrefix_unparseable] hold for an address
    without a port and for a host that is no address. *)
Lemma addrPrefix_unparseable_witness :
  addrPrefix NewConfig "127.0.0.1" = EmptyString
  /\ addrPrefix NewConfig "garbage:1234" = "<nil>".
Proof.
  split.
  - apply (proj1 (addrPrefix_unparseable NewConfig "127.0.0.1")).
    vm_compute. reflexivity.
  - apply (proj2 (addrPrefix_unparseable NewConfig "garbage:1234")).
    + vm_compute. discriminate.
    + reflexivity.
    + reflexivity.
Defined.

(** C6 as stated fails: the host part of [garbage:1234] parses as
    neither address family, and the result is not the empty string. *)
Lemma addrPrefix_garbage_not_empty :
  net.ParseIP "garbage" = []
  /\ addrPrefix NewConfig "garbage:1234" = "<nil>"
  /\ addrPrefix NewConfig "garbage:1234" <> EmptyString.
Proof. vm_compute. repeat split. discriminate. Qed.

(** ** [SetValue] (C7) *)

Section SetValueProperties.

Context `{R : strconv.RateRange}.

Lemma getIntervalArg_accepts keyword arg :
  (getIntervalArg keyword arg).2 = None
  <-> match strconv.ParseFloat arg with
      | inl rps => negb (strconv.is_negative rps)
      | inr _ => false
      end = true.
Proof.
  unfold getIntervalArg. destruct (strconv.ParseFloat arg) as [rps|e].
  - destruct (strconv.is_negative rps); cbn.
    + split; discriminate.
    + destruct (strconv.is_zero rps); cbn; split; reflexivity.
  - cbn. split; discriminate.
Qed.

(** Evaluate the comparisons of two literal keywords. *)
Ltac eval_keywords :=
  repeat match goal with
  | |- context [String.eqb ?a ?b] =>
      let v := eval vm_compute in (String.eqb a b) in
      change (String.eqb a b) with v
  end;
  cbn [orb andb].

Ltac bool_lia :=
  rewrite ?andb_true_iff, ?orb_true_iff, ?orb_false_iff, ?andb_false_iff,
    ?Z.leb_le, ?Z.ltb_lt, ?Z.leb_gt, ?Z.ltb_ge in *;
  lia.

Ltac frame_done :=
  unfold unchanged_except; cbn;
  repeat split; intros; first [reflexivity | congruence].

(** A keyword with an integer argument. *)
Ltac integer_keyword arg :=
  destruct (strconv.Atoi arg) as [i|e]; cbn [fst snd];
  [ match goal with
    | |- context [if ?b then (_, Some _) else _] => destruct b eqn:Hb
    end; cbn [fst snd];
    (split; [split; intros Hx; first [discriminate | reflexivity | bool_lia]|]);
    (split; intros Hx; first [reflexivity | congruence | frame_done])
  | split; [split; discriminate|];
    split; intros Hx; first [reflexivity | congruence] ].

(** A keyword with a rate argument. *)
Ltac rate_keyword k arg :=
  pose proof (getIntervalArg_accepts k arg) as Hacc;
  destruct (getIntervalArg k arg) as [i [e|]]; cbn [fst snd] in *;
  (split; [exact Hacc|]);
  (split; intros Hx; first [reflexivity | congruence | frame_done]).

Ltac on_keyword keyword k tac :=
  let E := fresh "E" in
  destruct (String.eqb keyword k) eqn:E;
  [ apply String.eqb_eq in E; subst keyword; eval_keywords; tac | ].

Lemma SetValue_passes_or_frame keyword arg c :
  ((SetValue keyword arg c).2 = None <-> passes_checks keyword arg = true)
  /\ ((SetValue keyword arg c).2 <> None -> (SetValue keyword arg c).1 = c)
  /\ ((SetValue keyword arg c).2 = None ->
      unchanged_except keyword c (SetValue keyword arg c).1).
Proof.
  destruct c as [w p4 p6 rs nd nx rf er rq sr mt ndS nxS rfS erS nf].
  unfold SetValue, passes_checks, integer_keywords, rate_keywords.
  cbn [lookup_keyword existsb].
  on_keyword keyword "window" ltac:(integer_keyword arg).
  on_keyword keyword "ipv4-prefix-length" ltac:(integer_keyword arg).
  on_keyword keyword "ipv6-prefix-length" ltac:(integer_keyword arg).
  on_keyword keyword "responses-per-second"
    ltac:(rate_keyword "responses-per-second" arg).
  on_keyword keyword "nodata-per-second" ltac:(rate_keyword "nodata-per-second" arg).
  on_keyword keyword "nxdomains-per-second"
    ltac:(rate_keyword "nxdomains-per-second" arg).
  on_keyword keyword "referrals-per-second"
    ltac:(rate_keyword "referrals-per-second" arg).
  on_keyword keyword "errors-per-second" ltac:(rate_keyword "errors-per-second" arg).
  on_keyword keyword "slip-ratio" ltac:(integer_keyword arg).
  on_keyword keyword "requests-per-second"
    ltac:(rate_keyword "requests-per-second" arg).
  on_keyword keyword "max-table-size" ltac:(integer_keyword arg).
  cbn [fst snd orb]. split; [split; discriminate|].
  split; intros Hx; [reflexivity|congruence].
Qed.

(** An integer setting that passes. *)
Ltac integer_passes :=
  split; [intros Hx; left; exact Hx | intros [Hx|Hx]; [exact Hx|discriminate]].

(** A rate that passes is at least zero, or is not placed. *)
Ltac rate_passes arg :=
  destruct (strconv.ParseFloat arg) as [rps|e];
  [ pose proof (strconv.at_least_zero_not_negative rps) as Hlaw;
    destruct (strconv.at_least_zero rps), (strconv.is_negative rps);
    cbn [negb andb] in *;
    split; intros Hx;
    first [ discriminate (Hlaw eq_refl) | left; reflexivity | right; reflexivity
          | discriminate | destruct Hx; discriminate | reflexivity ]
  | split; [discriminate | intros [Hx|Hx]; discriminate] ].

(** The tests of the code accept the settings of the table, and the
    rates that are not placed. *)
Lemma passes_checks_split keyword arg :
  passes_checks keyword arg = true
  <-> accepted_setting keyword arg = true \/ unordered_rate keyword arg = true.
Proof.
  unfold passes_checks, accepted_setting, unordered_rate, integer_keywords,
    rate_keywords.
  cbn [lookup_keyword existsb].
  on_keyword keyword "window" ltac:(integer_passes).
  on_keyword keyword "ipv4-prefix-length" ltac:(integer_passes).
  on_keyword keyword "ipv6-prefix-length" ltac:(integer_passes).
  on_keyword keyword "slip-ratio" ltac:(integer_passes).
  on_keyword keyword "max-table-size" ltac:(integer_passes).
  on_keyword keyword "responses-per-second" ltac:(rate_passes arg).
  on_keyword keyword "nodata-per-second" ltac:(rate_passes arg).
  on_keyword keyword "nxdomains-per-second" ltac:(rate_passes arg).
  on_keyword keyword "referrals-per-second" ltac:(rate_passes arg).
  on_keyword keyword "errors-per-second" ltac:(rate_passes arg).
  on_keyword keyword "requests-per-second" ltac:(rate_passes arg).
  cbn [orb andb]. split; [discriminate | intros [Hx|Hx]; discriminate].
Qed.

(** X18. [SetValue] returns [nil] exactly for the settings the
    configuration table accepts (a known keyword, an argument that
    parses and lies in its range, [float >= 0] for a rate) and for the
    rates that are neither below zero nor at least zero, as a NaN is.
    When it returns an error every field of the record is as before
    the call; when it returns [nil] only the fields of that keyword
    have changed. *)
Theorem SetValue_error_or_frame keyword arg c :
  ((SetValue keyword arg c).2 = None
   <-> accepted_setting keyword arg = true \/ unordered_rate keyword arg = true)
  /\ ((SetValue keyword arg c).2 <> None -> (SetValue keyword arg c).1 = c)
  /\ ((SetValue keyword arg c).2 = None ->
      unchanged_except keyword c (SetValue keyword arg c).1).
Proof.
  destruct (SetValue_passes_or_frame keyword arg c) as (Hiff & Herr & Hok).
  split; [|split; assumption].
  rewrite Hiff. apply passes_checks_split.
Qed.

End SetValueProperties.

(** The hypotheses inside [SetValue_error_or_frame] can be met: an
    unknown keyword and an out-of-range window are refused and leave the
    defaults alone, and a window of 30 seconds is stored without
    touching any other field. *)
Lemma SetValue_error_or_frame_witness :
  (SetValue (F := decimal_rates) "windox" EmptyString NewConfig).1 = NewConfig
  /\ (SetValue (F := decimal_rates) "window" "4000" NewConfig).1 = NewConfig
  /\ (SetValue (F := decimal_rates) "nodata-per-second" "-1" NewConfig).1 = NewConfig
  /\ unchanged_except "window" NewConfig
       (SetValue (F := decimal_rates) "window" "30" NewConfig).1.
Proof.
  split; [|split; [|split]].
  - apply (proj1 (proj2 (SetValue_error_or_frame (R := decimal_range)
                           "windox" EmptyString NewConfig))).
    vm_compute. discriminate.
  - apply (proj1 (proj2 (SetValue_error_or_frame (R := decimal_range)
                           "window" "4000" NewConfig))).
    vm_compute. discriminate.
  - apply (proj1 (proj2 (SetValue_error_or_frame (R := decimal_range)
                           "nodata-per-second" "-1" NewConfig))).
    vm_compute. discriminate.
  - apply (proj2 (proj2 (SetValue_error_or_frame (R := decimal_range)
                           "window" "30" NewConfig))).
    vm_compute. reflexivity.
Defined.

(** C7 (defect). [SetValue] does not refuse every rate outside the
    range [float >= 0] of the configuration table, the unsigned float
    of the documentation of [Config]: the text [NaN] parses, the tests
    [rps < 0] and [rps == 0.0] are both false for it, and the call
    returns [nil] and stores [int64(second / rps)] over the interval of
    five responses per second that the record held. *)
Lemma SetValue_accepts_NaN :
  let c := (SetValue (F := rates_with_NaN) "responses-per-second" "5" NewConfig).1 in
  let s := SetValue (F := rates_with_NaN) "responses-per-second" "NaN" c in
  accepted_setting (R := range_with_NaN) "responses-per-second" "NaN" = false
  /\ responsesInterval c = 200000000
  /\ s.2 = None
  /\ responsesInterval s.1 <> 200000000.
Proof.
  vm_compute. repeat split. discriminate.
Qed.

(** The settings of the configuration test of the package, applied in
    order to the defaults. *)
Example SetValue_config_test :
  let c := configure
    [("windox", EmptyString); ("window", "x23"); ("window", "-1"); ("window", "1");
     ("ipv4-prefix-length", "-1"); ("ipv4-prefix-length", "33");
     ("ipv4-prefix-length", "24"); ("ipv4-prefix-length", "x24");
     ("ipv6-prefix-length", "-1"); ("ipv6-prefix-length", "129");
     ("ipv6-prefix-length", "xx129"); ("ipv6-prefix-length", "64");
     ("responses-per-second", "-1"); ("responses-per-second", "xxy");
     ("responses-per-second", "0"); ("responses-per-second", "2");
     ("nodata-per-second", "-1"); ("nodata-per-second", "abc");
     ("nodata-per-second", "3");
     ("nxdomains-per-second", "-1"); ("nxdomains-per-second", "xyz");
     ("nxdomains-per-second", "4");
     ("referrals-per-second", "-1"); ("referrals-per-second", "xyz");
     ("referrals-per-second", "5.55"); ("referrals-per-second", "5");
     ("errors-per-second", "-1"); ("errors-per-second", "xyz");
     ("errors-per-second", "6.001"); ("errors-per-second", "6");
     ("requests-per-second", "-1"); ("requests-per-second", "xx");
     ("requests-per-second", "7");
     ("slip-ratio", "-1"); ("slip-ratio", "ccc"); ("slip-ratio", "8");
     ("max-table-size", "-1"); ("max-table-size", "xx"); ("max-table-size", "9")]
    NewConfig in
  c = {| window := 1000000000; ipv4PrefixLength := 24; ipv6PrefixLength := 64;
         responsesInterval := 500000000; nodataInterval := 333333333;
         nxdomainsInterval := 250000000; referralsInterval := 200000000;
         errorsInterval := 166666666; requestsInterval := 142857142;
         slipRatio := 8; maxTableSize := 9;
         nodataIntervalSet := true; nxdomainsIntervalSet := true;
         referralsIntervalSet := true; errorsIntervalSet := true;
         nowFunc := Some time_Now |}.
Proof. vm_compute. reflexivity. Qed.


(** ** The counters bumped by one call of [Debit] (C8) *)

Lemma incr_one_incremented i a :
  0 <= i < Z.of_nat (length a) -> one_incremented i a (incr i a).
Proof.
  intros Hi. unfold one_incremented, incr.
  split; [apply length_alter|]. split.
  - destruct (lookup_lt_is_Some_2 a (Z.to_nat i) ltac:(lia)) as [v Hv].
    exists v. split; [exact Hv|].
    rewrite list_lookup_alter_eq, Hv. reflexivity.
  - intros j Hj. apply list_lookup_alter_ne. congruence.
Qed.

Section Counters.

Context `{H : cache.ShardHash} `{U : UnicodeLower}.

Lemma debit_same_counters allowance t w r :
  same_counters (stats r) (stats (debit allowance t w r).2).
Proof.
  unfold debit. destruct (cache.UpdateAdd _ _ _ _ _) as [[[b| |e] tbl] n];
    repeat split.
Qed.

(** The statistics after [Debit] are those before it, up to evictions,
    with [incrementDebit] applied to the results of the call. *)
Lemma Debit_stats w src tuple r :
  exists s1,
    same_counters (stats r) s1
    /\ stats (Debit w src tuple r).2
       = incrementDebit (Debit w src tuple r).1.1.1 (Debit w src tuple r).1.1.2
           (Debit w src tuple r).1.2 (AllowanceCategory tuple) s1.
Proof.
  unfold Debit.
  assert (Hstage : forall ipr r1, same_counters (stats r) (stats r1) ->
    let out :=
      if negb (HasPrefix (Addr_Network src) "udp")
      then (Send, ipr, RTNotUDP,
            incrementDebitStats Send ipr RTNotUDP (AllowanceCategory tuple) r1)
      else
        if allowanceForRtype (cfg r1) (AllowanceCategory tuple) =? 0
        then (Send, ipr, RTNotConfigured,
              incrementDebitStats Send ipr RTNotConfigured (AllowanceCategory tuple) r1)
        else
          let '(b, slip, err, r2) :=
            debit (allowanceForRtype (cfg r1) (AllowanceCategory tuple))
              (accountToken (addrPrefix (cfg r) (Addr_String src)) (Type_ tuple)
                 (ToLower (SalientName tuple)) (AllowanceCategory tuple)) w r1 in
          match err with
          | Some _ =>
              (Drop, ipr, RTCacheFull,
               incrementDebitStats Drop ipr RTCacheFull (AllowanceCategory tuple) r2)
          | None =>
              if b <? 0
              then (if slip then Slip else Drop, ipr, RTRateLimit,
                    incrementDebitStats (if slip then Slip else Drop) ipr RTRateLimit
                      (AllowanceCategory tuple) r2)
              else (Send, ipr, RTOk,
                    incrementDebitStats Send ipr RTOk (AllowanceCategory tuple) r2)
          end in
    exists s1,
      same_counters (stats r) s1
      /\ stats out.2
         = incrementDebit out.1.1.1 out.1.1.2 out.1.2 (AllowanceCategory tuple) s1).
  { intros ipr r1 Hsame. cbn zeta.
    destruct (negb _); [exists (stats r1); split; [exact Hsame|reflexivity]|].
    destruct (_ =? 0); [exists (stats r1); split; [exact Hsame|reflexivity]|].
    pose proof (debit_same_counters
                  (allowanceForRtype (cfg r1) (AllowanceCategory tuple))
                  (accountToken (addrPrefix (cfg r) (Addr_String src)) (Type_ tuple)
                     (ToLower (SalientName tuple)) (AllowanceCategory tuple)) w r1)
      as Hd.
    destruct (debit _ _ w r1) as [[[b sl] [e|]] r2]; cbn [snd] in Hd.
    - exists (stats r2). split; [|reflexivity].
      unfold same_counters in *. intuition congruence.
    - destruct (b <? 0); exists (stats r2); (split; [|reflexivity]);
        unfold same_counters in *; intuition congruence. }
  destruct (negb (requestsInterval (cfg r) =? 0)).
  - pose proof (debit_same_counters (requestsInterval (cfg r))
                  (addrPrefix (cfg r) (Addr_String src)) w r) as Hd.
    destruct (debit _ _ w r) as [[[b sl] [e|]] r1]; cbn [snd] in Hd.
    + exists (stats r1). split; [exact Hd|reflexivity].
    + destruct (b <? 0).
      * exists (stats r1). split; [exact Hd|reflexivity].
      * apply Hstage, Hd.
  - apply Hstage. repeat split.
Qed.

Lemma incrementDebit_sized act ipr rtr ac s :
  stats_sized s -> stats_sized (incrementDebit act ipr rtr ac s).
Proof.
  intros (H1 & H2 & H3 & H4). unfold stats_sized, incrementDebit, incr.
  cbn [RPS Actions IPReasons RTReasons].
  repeat split;
    repeat match goal with
    | |- context [if ?b then _ else _] => destruct b
    end; rewrite ?length_alter; assumption.
Qed.

Lemma reachable_stats_sized c r : reachable c r -> stats_sized (stats r).
Proof.
  induction 1 as [|w src tuple r _ IH|z r _ IH].
  - repeat split.
  - destruct (Debit_stats w src tuple r) as (s1 & (E1 & E2 & E3 & E4) & ->).
    apply incrementDebit_sized. destruct IH as (H1 & H2 & H3 & H4).
    unfold stats_sized. rewrite E1, E2, E3, E4. auto.
  - unfold GetStats, Copy. destruct z; [repeat split|exact IH].
Qed.

(** C8 (amended). In every reachable state, one call of [Debit]
    increments exactly one counter of [Actions], of [IPReasons] and of
    [RTReasons], the one of the result returned; it increments exactly
    one counter of [RPS], the one of the category, when the category is
    one of the five defined ones, and none of [RPS] for the other
    values of the [uint8] field. *)
Theorem Debit_counters c r w src tuple :
  reachable c r ->
  let out := Debit w src tuple r in
  one_incremented (Action_int out.1.1.1) (Actions (stats r)) (Actions (stats out.2))
  /\ one_incremented (IPReason_int out.1.1.2) (IPReasons (stats r))
       (IPReasons (stats out.2))
  /\ one_incremented (RTReason_int out.1.2) (RTReasons (stats r))
       (RTReasons (stats out.2))
  /\ if (AllowanceCategory tuple <? AllowanceLast)%N
     then one_incremented (Z.of_N (AllowanceCategory tuple)) (RPS (stats r))
            (RPS (stats out.2))
     else RPS (stats out.2) = RPS (stats r).
Proof.
  intros Hr out.
  destruct (reachable_stats_sized c r Hr) as (H1 & H2 & H3 & H4).
  destruct (Debit_stats w src tuple r) as (s1 & (E1 & E2 & E3 & E4) & Hs).
  fold out in Hs. rewrite Hs. unfold incrementDebit.
  cbn [RPS Actions IPReasons RTReasons]. rewrite E1, E2, E3, E4.
  split; [|split; [|split]].
  - destruct out.1.1.1; cbn [Action_int Z.leb Z.ltb Z.compare Pos.compare Pos.compare_cont andb ActionLast];
      apply incr_one_incremented; rewrite H2; unfold ActionLast; lia.
  - destruct out.1.1.2;
      cbn [IPReason_int Z.leb Z.ltb Z.compare Pos.compare Pos.compare_cont andb IPLast];
      apply incr_one_incremented; rewrite H3; unfold IPLast; lia.
  - destruct out.1.2;
      cbn [RTReason_int Z.leb Z.ltb Z.compare Pos.compare Pos.compare_cont andb RTLast];
      apply incr_one_incremented; rewrite H4; unfold RTLast; lia.
  - replace (0 <=? AllowanceCategory tuple)%N with true
      by (symmetry; apply N.leb_le; lia).
    cbn [andb].
    destruct (N.ltb_spec (AllowanceCategory tuple) AllowanceLast) as [Hlt|Hge].
    + apply incr_one_incremented. rewrite H1. unfold AllowanceLast in *. lia.
    + reflexivity.
Qed.

End Counters.

(** The hypothesis of [Debit_counters] holds for a new [RRL]. *)
Lemma Debit_counters_witness :
  let r := (NewRRL slip_config).2 in
  let out := Debit (H := length_hash) (at_time 0) udp_client answer_tuple r in
  one_incremented (Action_int out.1.1.1) (Actions (stats r)) (Actions (stats out.2))
  /\ one_incremented (IPReason_int out.1.1.2) (IPReasons (stats r))
       (IPReasons (stats out.2))
  /\ one_incremented (RTReason_int out.1.2) (RTReasons (stats r))
       (RTReasons (stats out.2))
  /\ one_incremented (Z.of_N (AllowanceCategory answer_tuple)) (RPS (stats r))
       (RPS (stats out.2)).
Proof.
  exact (Debit_counters (H := length_hash) slip_config (NewRRL slip_config).2
           (at_time 0) udp_client answer_tuple (reach_NewRRL (H := length_hash) _)).
Defined.

(** C8 as stated fails: for the value 200 of the category field, which
    none of the five categories has, no counter of [RPS] is incremented
    while one counter of each other array is. *)
Lemma Debit_unknown_category_not_counted :
  let tuple := {| Class := 1; Type_ := 1; AllowanceCategory := 200;
                  SalientName := "example.com." |} in
  let r := (NewRRL slip_config).2 in
  let out := Debit (H := length_hash) (at_time 0) udp_client tuple r in
  RPS (stats r) = [0; 0; 0; 0; 0]
  /\ RPS (stats out.2) = [0; 0; 0; 0; 0]
  /\ Actions (stats out.2) = [1; 0; 0]
  /\ ~ exists i, one_incremented i (RPS (stats r)) (RPS (stats out.2)).
Proof.
  intros tuple r out.
  assert (E0 : RPS (stats r) = [0; 0; 0; 0; 0]) by (vm_compute; reflexivity).
  assert (E1 : RPS (stats out.2) = [0; 0; 0; 0; 0]) by (vm_compute; reflexivity).
  assert (E2 : Actions (stats out.2) = [1; 0; 0]) by (vm_compute; reflexivity).
  rewrite E0, E1, E2. split; [reflexivity|]. split; [reflexivity|].
  split; [reflexivity|].
  intros [i (_ & (v & Hv & Hv') & _)]. rewrite Hv in Hv'.
  injection Hv' as Hv'.
  assert (Ev : v = 0).
  { apply list_elem_of_lookup_2 in Hv.
    repeat (apply elem_of_cons in Hv as [Hv|Hv]; [exact Hv|]).
    inversion Hv. }
  subst v. vm_compute in Hv'. discriminate.
Qed.

(** ** [NewRRL] finalizes the caller's configuration (C9) *)

(** C9. [NewRRL] finalizes the record of the caller before it takes its
    copy: in the caller's record after the call each per-category
    interval that was not explicitly set holds the value of
    [responsesInterval], an interval that was explicitly set is as it
    was, a missing clock function has become [time.Now] and a present
    one is kept, no other field has changed, and the [RRL] holds that
    same record. *)
Theorem NewRRL_finalizes_caller c :
  let c' := (NewRRL c).1 in
  c' = finalize c
  /\ cfg (NewRRL c).2 = c'
  /\ nodataInterval c'
     = (if nodataIntervalSet c then nodataInterval c else responsesInterval c)
  /\ nxdomainsInterval c'
     = (if nxdomainsIntervalSet c then nxdomainsInterval c else responsesInterval c)
  /\ referralsInterval c'
     = (if referralsIntervalSet c then referralsInterval c else responsesInterval c)
  /\ errorsInterval c'
     = (if errorsIntervalSet c then errorsInterval c else responsesInterval c)
  /\ nowFunc c'
     = (match nowFunc c with Some f => Some f | None => Some time_Now end)
  /\ (window c', ipv4PrefixLength c', ipv6PrefixLength c', responsesInterval c',
      requestsInterval c', slipRatio c', maxTableSize c')
     = (window c, ipv4PrefixLength c, ipv6PrefixLength c, responsesInterval c,
        requestsInterval c, slipRatio c, maxTableSize c)
  /\ (nodataIntervalSet c', nxdomainsIntervalSet c', referralsIntervalSet c',
      errorsIntervalSet c')
     = (nodataIntervalSet c, nxdomainsIntervalSet c, referralsIntervalSet c,
        errorsIntervalSet c).
Proof.
  destruct c as [w p4 p6 rs nd nx rf er rq sr mt [] [] [] [] [f|]];
    cbn; repeat split.
Qed.

(** An interval set to 0 stays 0 although the answer interval is not 0,
    and the intervals that were not set take the answer interval; this
    is the finalized record of the configuration test of the package
    for seven responses per second. *)
Example NewRRL_keeps_explicit_zero :
  let c := configure [("responses-per-second", "7"); ("nodata-per-second", "0")]
             NewConfig in
  (nodataInterval c, nxdomainsInterval c, nowFunc (set_nowFunc None c))
  = (0, 0, None)
  /\ (responsesInterval (NewRRL c).1, nodataInterval (NewRRL c).1,
      nxdomainsInterval (NewRRL c).1, referralsInterval (NewRRL c).1,
      errorsInterval (NewRRL c).1)
     = (142857142, 0, 142857142, 142857142, 142857142)
  /\ nowFunc (NewRRL (set_nowFunc None c)).1 = Some time_Now.
Proof. vm_compute. repeat split. Qed.

(** ** The class of the query (C10) *)

Section QueryClass.

Context `{H : cache.ShardHash} `{U : UnicodeLower}.

(** C10. [Debit] ignores the field [Class]: two tuples that agree on
    type, category and salient name get the same account key, the same
    results and the same successor state, for every address, world and
    [RRL]. *)
Theorem Debit_ignores_Class w src (t1 t2 : ResponseTuple) r :
  Type_ t1 = Type_ t2 ->
  AllowanceCategory t1 = AllowanceCategory t2 ->
  SalientName t1 = SalientName t2 ->
  accountToken (addrPrefix (cfg r) (Addr_String src)) (Type_ t1)
    (ToLower (SalientName t1)) (AllowanceCategory t1)
  = accountToken (addrPrefix (cfg r) (Addr_String src)) (Type_ t2)
      (ToLower (SalientName t2)) (AllowanceCategory t2)
  /\ Debit w src t1 r = Debit w src t2 r.
Proof.
  destruct t1 as [c1 ty1 ac1 n1], t2 as [c2 ty2 ac2 n2]. cbn.
  intros -> -> ->. split; reflexivity.
Qed.

End QueryClass.

(** The hypotheses of [Debit_ignores_Class] hold for two tuples that
    differ in class only. *)
Lemma Debit_ignores_Class_witness :
  let chaos := {| Class := 3; Type_ := 1; AllowanceCategory := AllowanceAnswer;
                  SalientName := "example.com." |} in
  let r := (NewRRL slip_config).2 in
  accountToken (addrPrefix (cfg r) (Addr_String udp_client)) (Type_ answer_tuple)
    (ToLower (SalientName answer_tuple)) (AllowanceCategory answer_tuple)
  = accountToken (addrPrefix (cfg r) (Addr_String udp_client)) (Type_ chaos)
      (ToLower (SalientName chaos)) (AllowanceCategory chaos)
  /\ Debit (H := length_hash) (at_time 0) udp_client answer_tuple r
     = Debit (H := length_hash) (at_time 0) udp_client chaos r.
Proof.
  exact (Debit_ignores_Class (H := length_hash) (at_time 0) udp_client answer_tuple
           {| Class := 3; Type_ := 1; AllowanceCategory := AllowanceAnswer;
              SalientName := "example.com." |}
           (NewRRL slip_config).2 eq_refl eq_refl eq_refl).
Defined.


(** ** The tests of the package, run on the embedding *)

(** The table of the address prefix test. *)
Example addrPrefix_test_table :
  let four n := fst (SetValue (F := decimal_rates) "ipv4-prefix-length" n NewConfig) in
  let six n := fst (SetValue (F := decimal_rates) "ipv6-prefix-length" n NewConfig) in
  [addrPrefix NewConfig "127.0.0.1"; addrPrefix NewConfig "127.0.0.1:50";
   addrPrefix NewConfig "127.1.2.1:50"; addrPrefix (four "8") "127.1.2.1:50";
   addrPrefix (four "16") "127.1.2.1:50"; addrPrefix NewConfig "[::";
   addrPrefix NewConfig "[::]"; addrPrefix NewConfig "[::1]:53";
   addrPrefix NewConfig "[::ff]:53"; addrPrefix NewConfig "[::1:2:3:4:5:6]:53";
   addrPrefix (six "64") "[::1:2:3:4:5:6]:53"; addrPrefix NewConfig EmptyString]
  = [EmptyString; "127.0.0.0"; "127.1.2.0"; "127.0.0.0"; "127.1.0.0"; EmptyString;
     EmptyString; "::"; "::"; "0:0:1::"; "0:0:1:2::"; EmptyString].
Proof. vm_compute. reflexivity. Qed.

(** The table of the category test. *)
Example NewAllowanceCategory_test_table :
  map (fun t => NewAllowanceCategory t.1.1 t.1.2 t.2)
    [(0, 1, 0); (0, 2, 1); (0, 0, 1); (0, 0, 2); (0, 0, 0); (3, 0, 0); (3, 1, 0);
     (3, 0, 1); (3, 1, 1); (1, 0, 0); (2, 1, 0); (4, 0, 1); (5, 1, 1)]
  = [AllowanceAnswer; AllowanceAnswer; AllowanceReferral; AllowanceReferral;
     AllowanceNoData; AllowanceNXDomain; AllowanceNXDomain; AllowanceNXDomain;
     AllowanceNXDomain; AllowanceError; AllowanceError; AllowanceError;
     AllowanceError].
Proof. reflexivity. Qed.

(** A default configuration lets any query through. *)
Example Debit_default_config :
  (Debit (H := length_hash) (at_time 0) udp_client answer_tuple (NewRRL NewConfig).2).1
  = (Send, IPNotConfigured, RTNotConfigured).
Proof. vm_compute. reflexivity. Qed.

(** The same tuple over [udp], then [udp6], then [tcp]. *)
Example Debit_udp_tcp :
  let c := configure [("responses-per-second", "1")]
             (SetNowFunc (Some test_clock) NewConfig) in
  let from n := {| Addr_Network := n; Addr_String := "127.0.0.1:53" |} in
  let d1 := Debit (H := length_hash) (at_time 0) (from "udp") answer_tuple (NewRRL c).2 in
  let d2 := Debit (H := length_hash) (at_time 0) (from "udp6") answer_tuple d1.2 in
  let d3 := Debit (H := length_hash) (at_time 0) (from "tcp") answer_tuple d2.2 in
  (d1.1.1.1, d2.1.1.1, d3.1.1.1) = (Send, Drop, Send).
Proof. vm_compute. reflexivity. Qed.

(** One hundred requests per second by client network: the first 100
    from one [/24] pass, the next one from the same network is dropped,
    and another network passes. *)
Example Debit_requests_per_second :
  let c := configure [("requests-per-second", "100")]
             (SetNowFunc (Some test_clock) NewConfig) in
  let from a := {| Addr_Network := "udp"; Addr_String := a |} in
  let w := at_time (3600 * second) in
  let s1 := repeat_Debit (H := length_hash) 100 w (from "127.0.0.1:1000") answer_tuple
              (NewRRL c).2 in
  let d2 := Debit (H := length_hash) w (from "127.0.0.2:1000") answer_tuple s1.2 in
  let d3 := Debit (H := length_hash) w (from "[::1]:1000") answer_tuple d2.2 in
  s1.1 = replicate 100 (Send, IPOk, RTNotConfigured)
  /\ d2.1 = (Drop, IPRateLimit, RTNotReached)
  /\ d3.1 = (Send, IPOk, RTNotConfigured).
Proof. vm_compute. repeat split. Qed.

(** The statistics after one debit, read with [GetStats]. *)
Example GetStats_after_one_debit :
  let c := configure [("responses-per-second", "10"); ("requests-per-second", "10")]
             NewConfig in
  let d := Debit (H := length_hash) (at_time 0) udp_client answer_tuple (NewRRL c).2 in
  let g1 := GetStats true d.2 in
  let g2 := GetStats true g1.2 in
  g1.1 = {| RPS := [1; 0; 0; 0; 0]; Actions := [1; 0; 0];
            IPReasons := [1; 0; 0; 0; 0]; RTReasons := [1; 0; 0; 0; 0; 0];
            CacheLength := 2; Evictions := 0 |}
  /\ g2.1 = {| RPS := [0; 0; 0; 0; 0]; Actions := [0; 0; 0];
               IPReasons := [0; 0; 0; 0; 0]; RTReasons := [0; 0; 0; 0; 0; 0];
               CacheLength := 2; Evictions := 0 |}.
Proof. vm_compute. repeat split. Qed.

(** * Further properties of the code *)

(** ** The results of [Debit] *)

Section DebitResults.

Context `{H : cache.ShardHash} `{U : UnicodeLower}.

(** X1. Whatever the state and the arguments, the triple [Debit]
    returns is one of fourteen: [IPNotReached] is never reported, Slip
    comes only with [RTRateLimit], and a drop by the client-network
    stage always comes with [RTNotReached]. The client-network reason is
    [IPNotConfigured] exactly when [requestsInterval] is 0. *)
Theorem Debit_outcome w src tuple r :
  (Debit w src tuple r).1 ∈ Debit_outcomes
  /\ ((Debit w src tuple r).1.1.2 = IPNotConfigured
      <-> requestsInterval (cfg r) = 0).
Proof.
  unfold Debit, Debit_outcomes. cbn [flat_map app].
  destruct (Z.eqb_spec (requestsInterval (cfg r)) 0) as [E|E]; cbn [negb].
  - destruct (negb _); [|destruct (_ =? 0)];
      [| |destruct (debit _ _ w r) as [[[b sl] [e|]] r2];
           [|destruct (b <? 0); [destruct sl|]]];
      cbn [fst snd]; (split; [|split; auto]); repeat constructor.
  - destruct (debit _ _ w r) as [[[b sl] [e|]] r1];
      [|destruct (b <? 0)];
      [| |destruct (negb _); [|destruct (_ =? 0)];
           [| |destruct (debit _ _ w r1) as [[[b2 sl2] [e2|]] r2];
                [|destruct (b2 <? 0); [destruct sl2|]]]];
      cbn [fst snd]; (split; [|split; [discriminate|contradiction]]);
      repeat constructor.
Qed.

(** X2. A configuration that is not active, with no negative interval,
    is a no-op for the five defined categories: [Debit] returns Send
    with [IPNotConfigured], never reaches an account, and leaves the
    table as it was. *)
Theorem inactive_config_is_noop w src tuple r :
  IsActive (cfg r) = false ->
  intervals_nonneg (cfg r) ->
  (AllowanceCategory tuple < AllowanceLast)%N ->
  (Debit w src tuple r).1.1.1 = Send
  /\ (Debit w src tuple r).1.1.2 = IPNotConfigured
  /\ ((Debit w src tuple r).1.2 = RTNotUDP
      \/ (Debit w src tuple r).1.2 = RTNotConfigured)
  /\ table (Debit w src tuple r).2 = table r.
Proof.
  intros Hact (H1 & H2 & H3 & H4 & H5 & H6) Hac.
  unfold IsActive in Hact.
  repeat (apply orb_false_iff in Hact as [Hact ?]).
  repeat match goal with
  | Hx : (0 <? _) = false |- _ => apply Z.ltb_ge in Hx
  end.
  assert (Hal : allowanceForRtype (cfg r) (AllowanceCategory tuple) = 0).
  { unfold allowanceForRtype, AllowanceLast, AllowanceAnswer, AllowanceNoData,
      AllowanceNXDomain, AllowanceReferral, AllowanceError in *.
    repeat match goal with
    | |- context [(?a =? ?b)%N] => destruct (N.eqb_spec a b)
    end; lia. }
  unfold Debit. replace (requestsInterval (cfg r)) with 0 by lia.
  cbn [Z.eqb negb]. rewrite Hal. cbn [Z.eqb].
  destruct (negb _); cbn [fst snd incrementDebitStats table]; auto.
Qed.

End DebitResults.

(** The hypotheses of [inactive_config_is_noop] hold for the default
    configuration. *)
Lemma inactive_config_is_noop_witness :
  let r := (NewRRL NewConfig).2 in
  let d := Debit (H := length_hash) (at_time 0) udp_client answer_tuple r in
  d.1.1.1 = Send /\ d.1.1.2 = IPNotConfigured
  /\ (d.1.2 = RTNotUDP \/ d.1.2 = RTNotConfigured)
  /\ table d.2 = table r.
Proof.
  apply (inactive_config_is_noop (H := length_hash) (at_time 0) udp_client
           answer_tuple (NewRRL NewConfig).2).
  - reflexivity.
  - vm_compute. repeat split; discriminate.
  - reflexivity.
Defined.

(** ** Which tuples share an account *)

Section SharedAccounts.

Context `{H : cache.ShardHash} `{U : UnicodeLower}.

Lemma same_account_token t1 t2 ipPrefix :
  same_account t1 t2 ->
  accountToken ipPrefix (Type_ t1) (ToLower (SalientName t1)) (AllowanceCategory t1)
  = accountToken ipPrefix (Type_ t2) (ToLower (SalientName t2)) (AllowanceCategory t2).
Proof.
  destruct t1 as [c1 q1 ac1 n1], t2 as [c2 q2 ac2 n2].
  unfold same_account, account_name.
  cbn [AllowanceCategory Type_ SalientName]. intros [<- Hs].
  unfold accountToken, buildToken.
  destruct Hs as [ -> | [Hn [ -> | [ -> | -> ]]]]; cbn; rewrite ?Hn; reflexivity.
Qed.

(** X3. [Debit] does not tell apart two tuples of the same account: it
    is insensitive to the case of the letters of the salient name
    (names that the code lowers to the same string count as one), to
    the query type of NODATA and NXDOMAIN responses, and to both the
    type and the name of error responses. Such tuples get the same
    results and lead to the same state. *)
Theorem Debit_same_account w src t1 t2 r :
  same_account t1 t2 -> Debit w src t1 r = Debit w src t2 r.
Proof.
  intros Hs.
  pose proof (same_account_token t1 t2 (addrPrefix (cfg r) (Addr_String src)) Hs)
    as Htok.
  destruct Hs as [Hac _]. unfold Debit. rewrite Htok, Hac. reflexivity.
Qed.

End SharedAccounts.

(** The hypothesis of [Debit_same_account] holds for two spellings of
    one name, and for two error responses with different names and
    types. *)
Lemma Debit_same_account_witness :
  let r := (NewRRL slip_config).2 in
  let upper := {| Class := 1; Type_ := 1; AllowanceCategory := AllowanceAnswer;
                  SalientName := "EXAMPLE.com." |} in
  let e1 := {| Class := 1; Type_ := 1; AllowanceCategory := AllowanceError;
               SalientName := "a.example." |} in
  let e2 := {| Class := 1; Type_ := 28; AllowanceCategory := AllowanceError;
               SalientName := "b.example." |} in
  Debit (H := length_hash) (at_time 0) udp_client answer_tuple r
  = Debit (H := length_hash) (at_time 0) udp_client upper r
  /\ Debit (H := length_hash) (at_time 0) udp_client e1 r
     = Debit (H := length_hash) (at_time 0) udp_client e2 r.
Proof.
  split.
  - apply (Debit_same_account (H := length_hash)).
    split; [reflexivity|]. right. split; [reflexivity|]. right. right. reflexivity.
  - apply (Debit_same_account (H := length_hash)).
    split; [reflexivity|]. left. reflexivity.
Defined.

(** ** Tokens tell accounts apart *)

Lemma append_cons x (a b : string) : String x a +:+ b = String x (a +:+ b).
Proof. reflexivity. Qed.

Lemma append_nil_l (b : string) : EmptyString +:+ b = b.
Proof. reflexivity. Qed.

Lemma append_nil_r (a : string) : a +:+ EmptyString = a.
Proof.
  induction a as [|x a IH]; [reflexivity|]. rewrite append_cons, IH. reflexivity.
Qed.

Lemma append_assoc_str (a b c : string) : (a +:+ b) +:+ c = a +:+ (b +:+ c).
Proof.
  induction a as [|x a IH]; [reflexivity|]. rewrite !append_cons, IH. reflexivity.
Qed.

Lemma length_append_one (a : string) x :
  String.length (a +:+ String x EmptyString) = S (String.length a).
Proof.
  induction a as [|y a IH]; [reflexivity|]. rewrite append_cons. cbn. rewrite IH.
  reflexivity.
Qed.

Lemma no_slash_app a b : no_slash (a +:+ b) <-> no_slash a /\ no_slash b.
Proof.
  unfold no_slash. induction a as [|x a IH].
  - rewrite append_nil_l. cbn. split; [auto|]. intros [_ Hb]. exact Hb.
  - rewrite append_cons. cbn [net.contains_byte].
    destruct (Ascii.eqb x "/"); cbn [orb]; [|exact IH].
    split; [discriminate|]. intros [Hx _]. discriminate.
Qed.

(** Two texts cut at their first slash are equal only if both parts
    are. *)
Lemma slash_split a b u v :
  no_slash a -> no_slash b ->
  a +:+ String "/" u = b +:+ String "/" v -> a = b /\ u = v.
Proof.
  unfold no_slash. revert b.
  induction a as [|x a IH]; intros [|y b] Ha Hb E;
    rewrite ?append_nil_l, ?append_cons in E; cbn [net.contains_byte] in *.
  - injection E as ->. auto.
  - injection E as <- _. cbn in Hb. discriminate.
  - injection E as -> _. cbn in Ha. discriminate.
  - injection E as -> E.
    destruct (Ascii.eqb y "/"); [discriminate|]. cbn [orb] in Ha, Hb.
    destruct (IH b Ha Hb E) as [-> ->]. auto.
Qed.

Lemma digits_val_app s t a : digits_val (s +:+ t) a = digits_val t (digits_val s a).
Proof.
  revert a. induction s as [|c s IH]; intros a; [reflexivity|].
  rewrite append_cons. cbn [digits_val]. apply IH.
Qed.

(** [format_digits] writes the decimal digits of [n] in front of
    [acc]: they contain no slash and read back as [n]. *)
Lemma format_digits_spec fuel : forall n acc,
  (n < 2 ^ N.of_nat fuel)%N ->
  exists pre,
    strconv.format_digits fuel n acc = pre +:+ acc
    /\ no_slash pre
    /\ forall a, digits_val pre a = (a * 10 ^ N.of_nat (String.length pre) + n)%N.
Proof.
  induction fuel as [|fuel IH]; intros n acc Hn.
  - exists EmptyString. cbn in *. repeat split. intros a. lia.
  - cbn [strconv.format_digits].
    assert (Hd : (n mod 10 < 10)%N) by (apply N.mod_lt; lia).
    pose proof (N.div_mod n 10 ltac:(lia)) as Hdm.
    set (d := (n mod 10)%N) in *. set (q := (n / 10)%N) in *.
    assert (Hasc : N_of_ascii (ascii_of_N (48 + d)) = (48 + d)%N)
      by (apply N_ascii_embedding; lia).
    assert (Hns : no_slash (String (ascii_of_N (48 + d)) EmptyString)).
    { unfold no_slash. cbn. rewrite orb_false_r.
      apply Ascii.eqb_neq. intros E.
      apply (f_equal N_of_ascii) in E. rewrite Hasc in E.
      change (N_of_ascii "/") with 47%N in E. lia. }
    destruct (N.ltb_spec n 10) as [Hlt|Hge].
    + exists (String (ascii_of_N (48 + d)) EmptyString).
      split; [reflexivity|]. split; [exact Hns|].
      intros a. cbn [digits_val String.length]. rewrite Hasc.
      change (10 ^ N.of_nat 1)%N with 10%N.
      assert (q = 0%N) by (subst q; apply N.div_small; exact Hlt). lia.
    + destruct (IH q (String (ascii_of_N (48 + d)) acc))
        as (pre & Epre & Hpre & Hval).
      { rewrite Nat2N.inj_succ, N.pow_succ_r' in Hn. lia. }
      exists (pre +:+ String (ascii_of_N (48 + d)) EmptyString).
      split; [rewrite Epre, append_assoc_str; reflexivity|].
      split; [apply no_slash_app; auto|].
      intros a. rewrite digits_val_app, Hval. cbn [digits_val]. rewrite Hasc.
      rewrite length_append_one, Nat2N.inj_succ, N.pow_succ_r'.
      nia.
Qed.

Lemma FormatUint_spec n :
  no_slash (strconv.FormatUint n) /\ digits_val (strconv.FormatUint n) 0 = n.
Proof.
  unfold strconv.FormatUint.
  destruct (format_digits_spec (S (N.to_nat (N.log2 n))) n EmptyString)
    as (pre & E & Hns & Hval).
  - rewrite Nat2N.inj_succ, N2Nat.id.
    destruct n as [|p]; [cbn; lia|]. apply N.log2_spec. lia.
  - rewrite E, append_nil_r. split; [exact Hns|]. rewrite Hval. lia.
Qed.

(** Decimal printing is injective. *)
Lemma FormatUint_inj a b : strconv.FormatUint a = strconv.FormatUint b -> a = b.
Proof.
  intros E. destruct (FormatUint_spec a) as [_ <-], (FormatUint_spec b) as [_ <-].
  rewrite E. reflexivity.
Qed.

(** The third and fourth field of the token of a defined category. *)
Lemma buildToken_fields rt qType name ipPrefix :
  (rt < AllowanceLast)%N ->
  exists x y,
    buildToken rt qType name ipPrefix
    = ipPrefix +:+ String "/" (strconv.FormatUint rt +:+ String "/" (x +:+ String "/" y))
    /\ no_slash x
    /\ (rt = AllowanceError /\ x = EmptyString /\ y = EmptyString
        \/ (rt = AllowanceNoData \/ rt = AllowanceNXDomain)
           /\ x = EmptyString /\ y = name
        \/ (rt = AllowanceAnswer \/ rt = AllowanceReferral)
           /\ x = strconv.FormatUint qType /\ y = name).
Proof.
  intros Hrt. unfold AllowanceLast in Hrt.
  assert (Hcases : (rt = 0 \/ rt = 1 \/ rt = 2 \/ rt = 3 \/ rt = 4)%N) by lia.
  destruct Hcases as [ -> | [ -> | [ -> | [ -> | -> ]]]].
  - exists (strconv.FormatUint qType), name. split; [reflexivity|].
    split; [apply FormatUint_spec|]. right. right. auto.
  - exists (strconv.FormatUint qType), name. split; [reflexivity|].
    split; [apply FormatUint_spec|]. right. right. auto.
  - exists EmptyString, name. split; [reflexivity|].
    split; [reflexivity|]. right. left. auto.
  - exists EmptyString, name. split; [reflexivity|].
    split; [reflexivity|]. right. left. auto.
  - exists EmptyString, EmptyString. split; [reflexivity|].
    split; [reflexivity|]. left. auto.
Qed.

(** X4. Tokens tell accounts apart: for client networks without a
    slash and defined categories, two tokens are equal exactly when the
    client network and the category are the same and, unless the
    category is [AllowanceError], the names are the same and, for
    answers and referrals, so are the query types. *)
Theorem buildToken_injective rt1 rt2 q1 q2 n1 n2 ip1 ip2 :
  (rt1 < AllowanceLast)%N -> (rt2 < AllowanceLast)%N ->
  no_slash ip1 -> no_slash ip2 ->
  buildToken rt1 q1 n1 ip1 = buildToken rt2 q2 n2 ip2
  <-> ip1 = ip2 /\ rt1 = rt2
      /\ (rt1 = AllowanceError
          \/ (n1 = n2
              /\ (rt1 = AllowanceNoData \/ rt1 = AllowanceNXDomain \/ q1 = q2))).
Proof.
  intros Hrt1 Hrt2 Hip1 Hip2. split.
  - intros E.
    destruct (buildToken_fields rt1 q1 n1 ip1 Hrt1) as (x1 & y1 & E1 & Hx1 & Hc1).
    destruct (buildToken_fields rt2 q2 n2 ip2 Hrt2) as (x2 & y2 & E2 & Hx2 & Hc2).
    rewrite E1, E2 in E.
    apply slash_split in E as [-> E]; [|assumption..].
    apply slash_split in E as [Ert E]; [|apply FormatUint_spec..].
    apply FormatUint_inj in Ert. subst rt2.
    apply slash_split in E as [Ex Ey]; [|assumption..].
    split; [reflexivity|]. split; [reflexivity|].
    unfold AllowanceError, AllowanceNoData, AllowanceNXDomain, AllowanceAnswer,
      AllowanceReferral in *.
    destruct Hc1 as [(-> & _ & _) | [(Hr1 & -> & ->) | (Hr1 & -> & ->)]];
      [left; reflexivity| |];
      destruct Hc2 as [(Hr2 & _ & _) | [(Hr2 & -> & ->) | (Hr2 & -> & ->)]];
      try (exfalso; lia); right; (split; [congruence|]).
    + destruct Hr1; auto.
    + right. right. apply FormatUint_inj. exact Ex.
  - intros (-> & <- & Hs). unfold buildToken.
    destruct Hs as [ -> | [ -> [ -> | [ -> | -> ]]]]; reflexivity.
Qed.

(** The hypotheses of [buildToken_injective] hold for an answer and a
    referral of one client network. *)
Lemma buildToken_injective_witness :
  buildToken AllowanceAnswer 1 "example.com." "127.0.0.0"
  = buildToken AllowanceReferral 1 "example.com." "127.0.0.0"
  <-> "127.0.0.0" = "127.0.0.0" /\ AllowanceAnswer = AllowanceReferral
      /\ (AllowanceAnswer = AllowanceError
          \/ ("example.com." = "example.com."
              /\ (AllowanceAnswer = AllowanceNoData
                  \/ AllowanceAnswer = AllowanceNXDomain \/ 1%N = 1%N))).
Proof.
  apply (buildToken_injective AllowanceAnswer AllowanceReferral 1 1
           "example.com." "example.com." "127.0.0.0" "127.0.0.0");
    reflexivity.
Defined.

(** ** The text of a client network *)


















Section AccountKeys.

Context `{U : UnicodeLower}.



End AccountKeys.


(** ** Accounts over time *)

Lemma sub_now_sub n b :
  in_range n -> in_range b -> sub n (sub n b) = b.
Proof.
  intros Hn Hb. unfold sub. rewrite wrap64_sub_r.
  replace (n - (n - b)) with b by lia. apply wrap64_small, Hb.
Qed.

Lemma UnixNano_now_in_range c w : in_range (UnixNano_now c w).
Proof.
  unfold UnixNano_now. destruct (nowFunc c); [apply wrap64_in_range|].
  unfold in_range, min_int, max_int. lia.
Qed.

Lemma debit_update_allowTime c w allowance ra :
  allowTime (debit_update c w allowance ra).1
  = sub (UnixNano_now c w) (balance (debit_update c w allowance ra).2).
Proof.
  unfold debit_update.
  destruct ((0 <? _) || _); [reflexivity|].
  destruct (slipCountdown ra =? 1)%N; reflexivity.
Qed.

Section Expiry.

Context `{H : cache.ShardHash} `{U : UnicodeLower}.

(** X6. An account is never expired at the instant it is debited: for
    a window of at least one second and a positive allowance of at most
    one second plus the window, the account that [debit] leaves under
    the key fails the eviction test in the same world, whether it was
    updated or newly added. *)
Theorem debited_account_not_expired allowance t w r ra :
  second <= window (cfg r) <= 2 ^ 62 ->
  0 < allowance <= second + window (cfg r) ->
  cache.items (table (debit allowance t w r).2) !! t = Some ra ->
  evictFn (cfg r) w ra = false.
Proof.
  intros Hw Ha. unfold evictFn.
  assert (Hnow := UnixNano_now_in_range (cfg r) w).
  assert (Hupd : forall ra0,
    sub (UnixNano_now (cfg r) w)
        (allowTime (debit_update (cfg r) w allowance ra0).1) < window (cfg r)).
  { intros ra0. rewrite debit_update_allowTime.
    pose proof (debit_update_balance (cfg r) w allowance ra0
                  ltac:(unfold max_int, second in *; lia)
                  ltac:(lia)) as Hb.
    cbn zeta in Hb. rewrite sub_now_sub; [|exact Hnow|].
    - unfold second in *. lia.
    - unfold in_range, min_int, max_int, second in *. lia. }
  assert (Hadd : sub (UnixNano_now (cfg r) w)
                   (allowTime (debit_add (cfg r) w allowance)) < window (cfg r)).
  { unfold debit_add. cbn [allowTime]. unfold add, sub.
    set (n := UnixNano_now (cfg r) w).
    destruct (wrap64_spec (n - second)) as [k1 ->].
    destruct (wrap64_spec (n - second + k1 * 2 ^ 64 + allowance)) as [k2 ->].
    rewrite (wrap64_eqm _ (second - allowance)).
    - rewrite wrap64_small; unfold in_range, min_int, max_int, second in *; lia.
    - replace (n - (n - second + k1 * 2 ^ 64 + allowance + k2 * 2 ^ 64)
               - (second - allowance)) with ((- k1 - k2) * 2 ^ 64) by lia.
      apply Z.mod_mul. lia. }
  unfold debit, cache.UpdateAdd.
  destruct (cache.items (table r) !! t) as [ra0|] eqn:Hlk.
  - specialize (Hupd ra0).
    destruct (debit_update (cfg r) w allowance ra0) as [ra' bs].
    cbn [fst snd table cache.items]. rewrite lookup_insert_eq.
    intros [= <-]. apply Z.leb_gt. exact Hupd.
  - destruct (_ =? cache.limit _); [destruct (_ =? 0)%nat|];
      cbn [fst snd table cache.items].
    + rewrite Hlk. discriminate.
    + rewrite lookup_insert_eq. intros [= <-]. apply Z.leb_gt. exact Hadd.
    + rewrite lookup_insert_eq. intros [= <-]. apply Z.leb_gt. exact Hadd.
Qed.

End Expiry.

(** The hypotheses of [debited_account_not_expired] hold for the first
    debit of a response account under the slip test configuration. *)
Lemma debited_account_not_expired_witness :
  evictFn (cfg (NewRRL slip_config).2) (at_time 0)
    (debit_add (finalize slip_config) (at_time 0) second) = false.
Proof.
  apply (debited_account_not_expired (H := length_hash) second "k" (at_time 0)
           (NewRRL slip_config).2).
  - vm_compute. split; discriminate.
  - vm_compute. split; [reflexivity|discriminate].
  - rewrite debit_new_table. cbn [table cache.items].
    apply lookup_singleton_eq.
Defined.

(** X7. A client is locked out for at most the window plus one
    allowance: for a rate of at least one per second (an allowance of
    at most one second), whatever an account held before a debit, a
    further debit whose clock reading is at least [window + allowance]
    later returns a balance that is not negative. *)
Theorem lockout_at_most_window c w1 w2 allowance ra :
  second <= window c <= 2 ^ 61 ->
  0 < allowance <= second ->
  window c + allowance <= UnixNano_now c w2 - UnixNano_now c w1 <= 2 ^ 61 ->
  0 <= balance (debit_update c w2 allowance (debit_update c w1 allowance ra).1).2.
Proof.
  intros Hw Ha Hgap.
  pose proof (debit_update_balance c w1 allowance ra
                ltac:(unfold max_int, second in *; lia)
                ltac:(unfold second in *; lia)) as Hb.
  cbn zeta in Hb.
  pose proof (debit_update_allowTime c w1 allowance ra) as Hat.
  set (b1 := balance (debit_update c w1 allowance ra).2) in *.
  set (ra1 := (debit_update c w1 allowance ra).1) in *.
  set (n1 := UnixNano_now c w1) in *. set (n2 := UnixNano_now c w2) in *.
  assert (E0 : sub (sub n2 (allowTime ra1)) allowance = n2 - n1 + b1 - allowance).
  { rewrite Hat. unfold sub. rewrite wrap64_sub_l.
    destruct (wrap64_spec (n1 - b1)) as [k1 ->].
    rewrite (wrap64_eqm _ (n2 - n1 + b1 - allowance)).
    - apply wrap64_small. unfold in_range, min_int, max_int, second in *. lia.
    - replace (n2 - (n1 - b1 + k1 * 2 ^ 64) - allowance - (n2 - n1 + b1 - allowance))
        with (- k1 * 2 ^ 64) by lia.
      apply Z.mod_mul. lia. }
  unfold debit_update. fold n2. rewrite E0.
  assert (E2 : sub second allowance = second - allowance).
  { unfold sub. apply wrap64_small.
    unfold in_range, min_int, max_int, second in *. lia. }
  assert (E1 : neg (window c) = - window c).
  { unfold neg. apply wrap64_small.
    unfold in_range, min_int, max_int, second in *. lia. }
  rewrite E1, E2.
  set (b2 := if second <=? n2 - n1 + b1 - allowance then second - allowance
             else if n2 - n1 + b1 - allowance <? - window c then - window c
                  else n2 - n1 + b1 - allowance).
  assert (Hb2 : 0 <= b2).
  { subst b2. destruct (Z.leb_spec second (n2 - n1 + b1 - allowance)); [lia|].
    destruct (Z.ltb_spec (n2 - n1 + b1 - allowance) (- window c)); lia. }
  destruct ((0 <? b2) || _); [exact Hb2|].
  destruct (slipCountdown ra1 =? 1)%N; exact Hb2.
Qed.

(** The hypotheses of [lockout_at_most_window] hold for the default
    window, one response per second and clock readings 16 seconds
    apart. *)
Lemma lockout_at_most_window_witness :
  let ra := {| allowTime := 15 * second; slipCountdown := 2 |} in
  let c := finalize slip_config in
  0 <= balance (debit_update c (at_time (16 * second)) second
                  (debit_update c (at_time 0) second ra).1).2.
Proof.
  apply (lockout_at_most_window (finalize slip_config) (at_time 0)
           (at_time (16 * second)) second
           {| allowTime := 15 * second; slipCountdown := 2 |});
    vm_compute; split; first [reflexivity | discriminate].
Defined.

(** ** The burst an account allows *)

Section Burst.

Context `{H : cache.ShardHash} `{U : UnicodeLower}.

Variables (allowance : Z) (t : string) (w : World) (c : Config).

Hypothesis c_window : second <= window c <= 2 ^ 61.
Hypothesis allowance_range : 0 < allowance <= 2 ^ 61.

Lemma debit_holds_balance s r :
  holds_balance c t w s r ->
  let b := if s - allowance <? - window c then - window c else s - allowance in
  (debit allowance t w r).1.1.1 = b
  /\ (debit allowance t w r).1.2 = None
  /\ holds_balance c t w b (debit allowance t w r).2.
Proof.
  intros (Hcfg & Hs & k & Hlk) b.
  rewrite (debit_found _ _ _ _ _ Hlk). cbn zeta. cbn [fst snd cfg table cache.items].
  rewrite Hcfg.
  assert (Hnow := UnixNano_now_in_range c w).
  assert (Eb : balance (debit_update c w allowance
                          {| allowTime := sub (UnixNano_now c w) s;
                             slipCountdown := k |}).2 = b).
  { unfold debit_update. cbn [allowTime slipCountdown].
    rewrite sub_now_sub
      by (try exact Hnow; unfold in_range, min_int, max_int, second in *; lia).
    assert (E0 : sub s allowance = s - allowance).
    { unfold sub. apply wrap64_small.
      unfold in_range, min_int, max_int, second in *. lia. }
    assert (E1 : neg (window c) = - window c).
    { unfold neg. apply wrap64_small.
      unfold in_range, min_int, max_int, second in *. lia. }
    rewrite E0, E1.
    replace (second <=? s - allowance) with false
      by (symmetry; apply Z.leb_gt; lia).
    fold b. destruct ((0 <? b) || _); [reflexivity|].
    destruct (k =? 1)%N; reflexivity. }
  split; [exact Eb|]. split; [reflexivity|].
  split; [reflexivity|]. split.
  - subst b. destruct (Z.ltb_spec (s - allowance) (- window c));
      unfold second in *; lia.
  - pose proof (debit_update_allowTime c w allowance
                  {| allowTime := sub (UnixNano_now c w) s; slipCountdown := k |})
      as Hat.
    rewrite Eb in Hat.
    destruct (debit_update c w allowance _) as [[at' k'] bs]. cbn [fst allowTime] in Hat.
    exists k'. cbn [table cache.items]. rewrite lookup_insert_eq, Hat. reflexivity.
Qed.

Lemma credits_step s :
  s < second ->
  let b := if s - allowance <? - window c then - window c else s - allowance in
  (if 0 <=? b then 1 else 0) + credits allowance b <= credits allowance s.
Proof.
  intros Hs b. unfold credits. subst b.
  assert (Hdiv : 0 <= s -> 0 <= s / allowance) by (intros; apply Z.div_pos; lia).
  destruct (Z.ltb_spec (s - allowance) (- window c)) as [Hlow|Hlow].
  - destruct (Z.leb_spec 0 (- window c)); [unfold second in *; lia|].
    destruct (Z.ltb_spec (- window c) 0); [|unfold second in *; lia].
    destruct (Z.ltb_spec s 0); lia.
  - destruct (Z.leb_spec 0 (s - allowance)) as [Hpos|Hneg].
    + destruct (Z.ltb_spec (s - allowance) 0); [lia|].
      destruct (Z.ltb_spec s 0); [lia|].
      replace s with (s - allowance + 1 * allowance) at 2 by lia.
      rewrite Z.div_add by lia. lia.
    + destruct (Z.ltb_spec (s - allowance) 0); [|lia].
      destruct (Z.ltb_spec s 0); lia.
Qed.

Lemma repeat_debit_holds n : forall s r,
  holds_balance c t w s r ->
  Z.of_nat (length (List.filter in_credit (repeat_debit n allowance t w r)))
  <= credits allowance s.
Proof.
  induction n as [|n IH]; intros s r Hr.
  - cbn [repeat_debit List.filter length]. unfold credits.
    destruct (Z.ltb_spec s 0); [lia|].
    pose proof (Z.div_pos s allowance). lia.
  - destruct (debit_holds_balance s r Hr) as (Hb & He & Hr').
    pose proof (credits_step s ltac:(apply Hr)) as Hstep. cbn zeta in *.
    specialize (IH _ _ Hr').
    cbn [repeat_debit List.filter]. unfold in_credit at 1. rewrite He, Hb.
    destruct (0 <=? _); cbn [length]; lia.
Qed.

Lemma repeat_debit_failed n : forall r,
  cfg r = c ->
  (debit allowance t w r).1.2 <> None ->
  List.filter in_credit (repeat_debit n allowance t w r) = [].
Proof.
  induction n as [|n IH]; intros r Hcfg Herr; [reflexivity|].
  cbn [repeat_debit List.filter].
  assert (Hsame : table (debit allowance t w r).2 = table r
                  /\ cfg (debit allowance t w r).2 = cfg r).
  { split; [|apply debit_cfg]. revert Herr. unfold debit, cache.UpdateAdd.
    destruct (cache.items (table r) !! t).
    - destruct (debit_update _ _ _ _). cbn. congruence.
    - destruct (_ =? cache.limit _); [destruct (_ =? 0)%nat|]; cbn;
        first [reflexivity | congruence]. }
  destruct Hsame as [Htab Hc'].
  assert (Hnext : (debit allowance t w (debit allowance t w r).2).1
                  = (debit allowance t w r).1).
  { unfold debit at 1 3. rewrite Htab, Hc'.
    destruct (cache.UpdateAdd _ _ _ _ _) as [[[b| |e] tbl] m]; reflexivity. }
  unfold in_credit at 1.
  destruct ((debit allowance t w r).1.2) eqn:E; [|contradiction].
  apply IH; [rewrite Hc'; exact Hcfg|]. rewrite Hnext, E. discriminate.
Qed.

(** X8. The burst an account allows at one instant is bounded: under
    a window between one second and [2 ^ 61] nanoseconds, whatever the
    table holds, of any number of consecutive debits of one key in one
    world with a positive allowance of at most [2 ^ 61] nanoseconds, at
    most [(second - 1) / allowance + 1] are in credit; the others come
    back with a negative balance or an error. For 100 per second that
    is 100; for one in 20 seconds it is 1. *)
Theorem burst_bound n r :
  cfg r = c ->
  Z.of_nat (length (List.filter in_credit (repeat_debit n allowance t w r)))
  <= (second - 1) / allowance + 1.
Proof.
  intros Hcfg. destruct n as [|n].
  - cbn [repeat_debit List.filter length].
    pose proof (Z.div_pos (second - 1) allowance). unfold second in *. lia.
  - cbn [repeat_debit List.filter].
    assert (Hmono : forall s, s < second ->
                      credits allowance s <= (second - 1) / allowance).
    { intros s Hs. unfold credits. destruct (s <? 0).
      - apply Z.div_pos; unfold second in *; lia.
      - apply Z.div_le_mono; lia. }
    destruct (cache.items (table r) !! t) as [ra|] eqn:Hlk.
    + assert (Hr1 : holds_balance c t w (debit allowance t w r).1.1.1
                      (debit allowance t w r).2).
      { rewrite (debit_found _ _ _ _ _ Hlk). cbn zeta.
        cbn [fst snd]. rewrite Hcfg.
        pose proof (debit_update_bounds c w allowance ra
                      ltac:(unfold max_int, second in *; lia)
                      ltac:(unfold max_int, second in *; lia)) as Hb.
        pose proof (debit_update_allowTime c w allowance ra) as Hat.
        cbn zeta in Hb.
        destruct (debit_update c w allowance ra) as [[at' k'] bs].
        cbn [fst snd allowTime] in *.
        split; [reflexivity|]. split; [unfold second in *; lia|].
        exists k'. cbn [table cache.items]. rewrite lookup_insert_eq, Hat.
        reflexivity. }
      pose proof (repeat_debit_holds n _ _ Hr1) as Hn.
      pose proof (Hmono _ ltac:(apply Hr1)).
      destruct (in_credit _); cbn [length]; lia.
    + destruct ((debit allowance t w r).1.2) as [e|] eqn:Herr.
      * rewrite repeat_debit_failed;
          [|rewrite debit_cfg; exact Hcfg|].
        -- unfold in_credit. rewrite Herr. cbn [length].
           pose proof (Z.div_pos (second - 1) allowance). unfold second in *. lia.
        -- assert (Hsame : table (debit allowance t w r).2 = table r).
           { revert Herr. unfold debit, cache.UpdateAdd. rewrite Hlk.
             destruct (_ =? cache.limit _); [destruct (_ =? 0)%nat|]; cbn;
               first [reflexivity | discriminate]. }
           unfold debit at 1. rewrite Hsame, debit_cfg.
           revert Herr. unfold debit.
           destruct (cache.UpdateAdd _ _ _ _ _) as [[[b| |e'] tbl] m]; cbn;
             congruence.
      * assert (Hr1 : holds_balance c t w (second - allowance) (debit allowance t w r).2).
        { revert Herr. unfold debit, cache.UpdateAdd. rewrite Hlk.
          assert (Eadd : cfg r = c ->
                    debit_add (cfg r) w allowance
                    = {| allowTime := sub (UnixNano_now c w) (second - allowance);
                         slipCountdown := slipRatio c |}).
          { intros ->. unfold debit_add. f_equal. unfold add, sub.
            destruct (wrap64_spec (UnixNano_now c w - second)) as [k1 ->].
            apply wrap64_eqm.
            replace (UnixNano_now c w - second + k1 * 2 ^ 64 + allowance
                     - (UnixNano_now c w - (second - allowance)))
              with (k1 * 2 ^ 64) by lia.
            apply Z.mod_mul. lia. }
          destruct (_ =? cache.limit _); [destruct (_ =? 0)%nat|];
            cbn [fst snd]; try discriminate; intros _;
            (split; [exact Hcfg|]);
            (split; [unfold second in *; lia|]);
            exists (slipRatio c); cbn [table cache.items];
            rewrite lookup_insert_eq, (Eadd Hcfg); reflexivity. }
        pose proof (repeat_debit_holds n _ _ Hr1) as Hn.
        pose proof (Hmono (second - allowance) ltac:(unfold second in *; lia)).
        destruct (in_credit _); cbn [length]; lia.
Qed.

End Burst.

(** The hypotheses of [burst_bound] hold under the default window for
    100 requests per second, where of 150 debits of one client network
    at one instant at most 100 are in credit, and for one response in
    20 seconds, where of 5 debits at most one is. *)
Lemma burst_bound_witness :
  (let r := (NewRRL (configure [("requests-per-second", "100")] NewConfig)).2 in
   Z.of_nat (length (List.filter in_credit
                       (repeat_debit (H := length_hash) 150 10000000 "127.0.0.0"
                          (at_time 0) r)))
   <= 100)
  /\ (let r := (NewRRL (configure [("responses-per-second", "0.05")] NewConfig)).2 in
      Z.of_nat (length (List.filter in_credit
                          (repeat_debit (H := length_hash) 5 20000000000 "k"
                             (at_time 0) r)))
      <= 1).
Proof.
  split.
  - exact (burst_bound (H := length_hash) 10000000 "127.0.0.0" (at_time 0)
             (finalize (configure [("requests-per-second", "100")] NewConfig))
             ltac:(vm_compute; split; discriminate)
             ltac:(vm_compute; split; [reflexivity|discriminate])
             150 (NewRRL (configure [("requests-per-second", "100")] NewConfig)).2
             eq_refl).
  - exact (burst_bound (H := length_hash) 20000000000 "k" (at_time 0)
             (finalize (configure [("responses-per-second", "0.05")] NewConfig))
             ltac:(vm_compute; split; discriminate)
             ltac:(vm_compute; split; [reflexivity|discriminate])
             5 (NewRRL (configure [("responses-per-second", "0.05")] NewConfig)).2
             eq_refl).
Defined.

(** ** The slip ratio *)

Lemma account_run_cycle win n m : forall d k,
  second <= win -> 0 <= d <= win -> (1 <= k <= n)%N ->
  (account_run win n m 0 d k).1
  = map (fun j => if ((N.of_nat j + 1 + (n - k)) mod n =? 0)%N then Slip else Drop)
      (seq 0 m).
Proof.
  induction m as [|m IH]; intros d k Hw Hd Hk; [reflexivity|].
  cbn [account_run].
  assert (Hb : next_balance win 0 d < 0 /\ 0 <= 0 - next_balance win 0 d <= win).
  { unfold next_balance, second in *.
    destruct (Z.leb_spec 1000000000 (0 - d - 1000000000)); [lia|].
    destruct (Z.ltb_spec (0 - d - 1000000000) (- win)); lia. }
  destruct Hb as [Hneg Hd'].
  assert (Hk' : (1 <= next_countdown win n 0 d k <= n)%N
                /\ next_countdown win n 0 d k = (if (k =? 1)%N then n else k - 1)%N).
  { unfold next_countdown.
    replace (0 <? next_balance win 0 d) with false by (symmetry; apply Z.ltb_ge; lia).
    replace (k =? 0)%N with false by (symmetry; apply N.eqb_neq; lia).
    cbn [orb]. destruct (N.eqb_spec k 1); split; try reflexivity; lia. }
  destruct Hk' as [Hk1 Ek'].
  specialize (IH (0 - next_balance win 0 d) (next_countdown win n 0 d k) Hw Hd' Hk1).
  destruct (account_run win n m 0 _ _) as [acts st]. cbn [fst] in *.
  cbn [seq map]. rewrite <- seq_shift, map_map. f_equal.
  - unfold next_action.
    replace (next_balance win 0 d <? 0) with true by (symmetry; apply Z.ltb_lt; lia).
    change (N.of_nat 0) with 0%N.
    destruct (N.eqb_spec k 1) as [->|Hne].
    + replace (0 + 1 + (n - 1))%N with (1 * n)%N by lia.
      rewrite N.Div0.mod_mul. reflexivity.
    + rewrite N.mod_small by lia.
      destruct (N.eqb_spec (0 + 1 + (n - k)) 0); [lia|reflexivity].
  - rewrite IH. apply map_ext. intros j. rewrite Ek'.
    destruct (N.eqb_spec k 1) as [->|Hne].
    + replace (N.of_nat (S j) + 1 + (n - 1))%N with (N.of_nat j + 1 + 1 * n)%N by lia.
      rewrite N.Div0.mod_add. replace (n - n)%N with 0%N by lia.
      rewrite N.add_0_r. reflexivity.
    + replace (N.of_nat (S j) + 1 + (n - k))%N
        with (N.of_nat j + 1 + (n - (k - 1)))%N by lia.
      reflexivity.
Qed.

Section SlipRatio.

Context `{H : cache.ShardHash} `{U : UnicodeLower}.

Variables (c : Config) (src : Addr) (tuple : ResponseTuple).

Hypothesis c_requests : requestsInterval c = 0.
Hypothesis c_window : second <= window c <= 3600 * second.
Hypothesis c_ratio : (1 <= slipRatio c)%N.
Hypothesis src_udp : HasPrefix (Addr_Network src) "udp" = true.
Hypothesis tuple_allowance :
  allowanceForRtype (finalize c) (AllowanceCategory tuple) = second.

(** X9. For a client on UDP and a tuple whose category is limited to
    one response per second, with client-network limiting off, a window
    of 1 to 3600 seconds, a slip ratio [n >= 1] and all debits made at
    one reading of the clock, whichever clock is installed:
    after the first debit of the account, which is sent, the
    rate-limited debits slip exactly when their number is a multiple of
    [n] and are dropped otherwise. A ratio of 1 slips every
    rate-limited response; a ratio of 10 slips one in ten. *)
Theorem slip_every_nth (w : World) (m : nat) :
  map action_of (Examples.repeat_Debit (S m) w src tuple (NewRRL c).2).1
  = Send :: map (fun j => if ((N.of_nat j + 1) mod slipRatio c =? 0)%N
                          then Slip else Drop) (seq 0 m).
Proof.
  destruct (Debit_first c _ src tuple c_requests eq_refl src_udp
              tuple_allowance w) as (r1 & HD1 & Htr1).
  destruct (repeat_Debit_tracked c _ src tuple c_requests c_window
              eq_refl src_udp tuple_allowance w _ 0 m r1 0 (slipRatio c) Htr1
              ltac:(lia) ltac:(lia)) as (r2 & _ & Ha & _).
  rewrite account_run_cycle in Ha by (unfold second in *; lia).
  cbn [Examples.repeat_Debit]. rewrite HD1.
  destruct (Examples.repeat_Debit m w src tuple r1) as [xs r2'].
  cbn [fst snd map] in *. unfold action_of in *. cbn [fst]. f_equal.
  rewrite Ha. apply map_ext. intros j.
  replace (slipRatio c - slipRatio c)%N with 0%N by lia.
  rewrite N.add_0_r. reflexivity.
Qed.

End SlipRatio.

(** The hypotheses of [slip_every_nth] hold for a slip ratio of 3 and
    errors limited to one per second. *)
Lemma slip_every_nth_witness :
  let c := configure [("errors-per-second", "1"); ("slip-ratio", "3")]
             (SetNowFunc (Some test_clock) NewConfig) in
  map action_of
    (repeat_Debit (H := length_hash) 8 (at_time 0) udp_client error_tuple
       (NewRRL c).2).1
  = [Send; Drop; Drop; Slip; Drop; Drop; Slip; Drop].
Proof.
  refine (slip_every_nth (H := length_hash) (U := ascii_names)
            (configure [("errors-per-second", "1"); ("slip-ratio", "3")]
               (SetNowFunc (Some test_clock) NewConfig))
            udp_client error_tuple _ _ _ _ _ (at_time 0) 7);
    first [ reflexivity
          | vm_compute; repeat split; first [reflexivity | discriminate] ].
Defined.

(** ** Configurations a caller can build *)

Section BuiltConfigs.

Context `{F : strconv.Float64}.

Lemma SetValue_valid keyword arg c :
  valid_config c -> valid_config (SetValue keyword arg c).1.
Proof.
  destruct c as [w p4 p6 rs nd nx rf er rq sr mt ndS nxS rfS erS nf].
  unfold valid_config, SetValue.
  cbn [window ipv4PrefixLength ipv6PrefixLength slipRatio maxTableSize].
  intros Hv.
  repeat match goal with
  | |- context [String.eqb keyword ?k] => destruct (String.eqb keyword k)
  end;
  try (destruct (getIntervalArg _ arg) as [i [e|]]; cbn; exact Hv);
  try (destruct (strconv.Atoi arg) as [i|e]; [|cbn; exact Hv];
       match goal with
       | |- context [if ?b then (_, Some _) else _] => destruct b eqn:Hb
       end; [cbn; exact Hv|]);
  try (cbn; exact Hv);
  cbn [fst set_window set_ipv4PrefixLength set_ipv6PrefixLength set_slipRatio
         set_maxTableSize window ipv4PrefixLength ipv6PrefixLength slipRatio
         maxTableSize];
  rewrite ?orb_false_iff, ?Z.leb_gt, ?Z.ltb_ge in Hb.
  - assert (Ew : wrap64 (i * second) = i * second).
    { apply wrap64_small. unfold in_range, min_int, max_int, second. lia. }
    rewrite Ew. split; [unfold second; lia|].
    split; [apply Z.mod_mul; discriminate|]. tauto.
  - intuition lia.
  - intuition lia.
  - intuition lia.
  - intuition lia.
Qed.

Lemma NewConfig_valid : valid_config NewConfig.
Proof. unfold valid_config. cbn. repeat split; try discriminate; reflexivity. Qed.

(** X10. Every configuration a caller can build from [NewConfig] by
    calls of [SetValue] and [SetNowFunc], whatever their arguments and
    whether they fail or not, reaches [NewRRL] with a window of 1 to
    3600 whole seconds, prefix lengths within 1..32 and 1..128, a slip
    ratio of at most 10 and a table size that is not negative; the
    [RRL] runs under such a configuration, with a clock installed. *)
Theorem built_config_valid c :
  built c ->
  valid_config (NewRRL c).1
  /\ valid_config (cfg (NewRRL c).2)
  /\ is_Some (nowFunc (cfg (NewRRL c).2)).
Proof.
  intros Hb.
  assert (Hv : valid_config c).
  { induction Hb as [|keyword arg c _ IH|fn c _ IH].
    - exact NewConfig_valid.
    - apply SetValue_valid, IH.
    - destruct c. exact IH. }
  assert (Hf : valid_config (finalize c)).
  { unfold valid_config in *.
    destruct (finalize_fields c) as (-> & -> & -> & _ & _ & -> & ->). exact Hv. }
  split; [exact Hf|]. split; [exact Hf|]. apply NewRRL_clock.
Qed.

End BuiltConfigs.

(** The hypothesis of [built_config_valid] holds for the defaults after
    one accepted and one refused setting. *)
Lemma built_config_valid_witness :
  let c := configure [("window", "30"); ("slip-ratio", "11")] NewConfig in
  valid_config (NewRRL c).1
  /\ valid_config (cfg (NewRRL c).2)
  /\ is_Some (nowFunc (cfg (NewRRL c).2)).
Proof.
  apply (built_config_valid (F := decimal_rates)).
  apply (built_SetValue (F := decimal_rates) "slip-ratio" "11").
  apply (built_SetValue (F := decimal_rates) "window" "30").
  apply (built_NewConfig (F := decimal_rates)).
Defined.

Section RateKeywords.

Context `{F : strconv.Float64}.

(** X11. Each category answers to its own keyword: when [SetValue]
    accepts a rate for the keyword of a category, the allowance of that
    category under the finalized configuration is the interval computed
    from that rate, whatever the record held before. *)
Theorem category_follows_keyword ac keyword arg c :
  category_keyword ac = Some keyword ->
  (SetValue keyword arg c).2 = None ->
  allowanceForRtype (finalize (SetValue keyword arg c).1) ac
  = (getIntervalArg keyword arg).1.
Proof.
  destruct c as [w p4 p6 rs nd nx rf er rq sr mt ndS nxS rfS erS nf].
  unfold category_keyword, allowanceForRtype, AllowanceAnswer, AllowanceReferral,
    AllowanceNoData, AllowanceNXDomain, AllowanceError.
  destruct (N.eqb_spec ac 0) as [->|?];
    [|destruct (N.eqb_spec ac 1) as [->|?];
      [|destruct (N.eqb_spec ac 2) as [->|?];
        [|destruct (N.eqb_spec ac 3) as [->|?];
          [|destruct (N.eqb_spec ac 4) as [->|?]; [|discriminate]]]]];
    intros [= <-]; unfold SetValue;
    repeat match goal with
    | |- context [String.eqb ?a ?b] =>
        let v := eval vm_compute in (String.eqb a b) in
        change (String.eqb a b) with v
    end;
    cbn [N.eqb Pos.eqb];
    destruct (getIntervalArg _ arg) as [i [e|]]; cbn [fst snd];
    try discriminate; intros _;
    destruct ndS, nxS, rfS, erS, nf; reflexivity.
Qed.

End RateKeywords.

(** The hypotheses of [category_follows_keyword] hold for five
    referrals per second. *)
Lemma category_follows_keyword_witness :
  allowanceForRtype
    (finalize (SetValue (F := decimal_rates) "referrals-per-second" "5" NewConfig).1)
    AllowanceReferral
  = 200000000.
Proof.
  exact (category_follows_keyword (F := decimal_rates) AllowanceReferral
           "referrals-per-second" "5" NewConfig eq_refl eq_refl).
Defined.

(** X12. [NewRRL] can be called again on the record it has finalized:
    the second call changes nothing in the record and builds the same
    [RRL]. *)
Theorem NewRRL_again c : NewRRL (NewRRL c).1 = NewRRL c.
Proof.
  unfold NewRRL. cbn [fst].
  assert (E : finalize (finalize c) = finalize c).
  { destruct c as [w p4 p6 rs nd nx rf er rq sr mt [] [] [] [] [f|]]; reflexivity. }
  rewrite E. reflexivity.
Qed.

(** X13. [NewAllowanceCategory] always returns one of the five defined
    categories, so a tuple built with it is always counted in [RPS];
    with counts that are not negative, a response code of 0 gives
    Answer, Referral or NoData, a code of 3 gives NXDomain and every
    other code gives Error. *)
Theorem NewAllowanceCategory_defined rCode answerCount nsCount :
  (NewAllowanceCategory rCode answerCount nsCount < AllowanceLast)%N
  /\ (0 <= answerCount -> 0 <= nsCount ->
      NewAllowanceCategory rCode answerCount nsCount
      = if rCode =? 0 then
          (if 0 <? answerCount then AllowanceAnswer
           else if 0 <? nsCount then AllowanceReferral else AllowanceNoData)
        else if rCode =? 3 then AllowanceNXDomain else AllowanceError).
Proof.
  unfold NewAllowanceCategory. split.
  - repeat match goal with
    | |- context [if ?b then _ else _] => destruct b
    end; reflexivity.
  - intros Ha Hn.
    destruct (Z.eqb_spec rCode 0) as [->|?]; cbn [andb].
    + destruct (Z.ltb_spec 0 answerCount); [reflexivity|].
      destruct (Z.ltb_spec 0 nsCount); [reflexivity|].
      replace answerCount with 0 by lia. reflexivity.
    + reflexivity.
Qed.

(** The hypotheses inside [NewAllowanceCategory_defined] hold for a
    referral. *)
Lemma NewAllowanceCategory_defined_witness :
  NewAllowanceCategory 0 0 2 = AllowanceReferral.
Proof.
  apply (proj2 (NewAllowanceCategory_defined 0 0 2)); discriminate.
Defined.

(** ** Statistics do not steer decisions *)

Section StatsTransparent.

Context `{H : cache.ShardHash} `{U : UnicodeLower}.

Lemma debit_table_only allowance t w r1 r2 :
  cfg r1 = cfg r2 -> table r1 = table r2 ->
  (debit allowance t w r1).1 = (debit allowance t w r2).1
  /\ cfg (debit allowance t w r1).2 = cfg (debit allowance t w r2).2
  /\ table (debit allowance t w r1).2 = table (debit allowance t w r2).2.
Proof.
  intros Ec Et. unfold debit. rewrite Ec, Et.
  destruct (cache.UpdateAdd _ _ _ _ _) as [[[b| |e] tbl] m]; repeat split.
Qed.

(** [Debit] reads the configuration and the table, not the counters. *)
Lemma Debit_table_only w src tuple r1 r2 :
  cfg r1 = cfg r2 -> table r1 = table r2 ->
  (Debit w src tuple r1).1 = (Debit w src tuple r2).1
  /\ cfg (Debit w src tuple r1).2 = cfg (Debit w src tuple r2).2
  /\ table (Debit w src tuple r1).2 = table (Debit w src tuple r2).2.
Proof.
  intros Ec Et.
  assert (Hstage : forall ipr ip r1' r2',
    cfg r1' = cfg r2' -> table r1' = table r2' ->
    let stage r' :=
      if negb (HasPrefix (Addr_Network src) "udp")
      then (Send, ipr, RTNotUDP,
            incrementDebitStats Send ipr RTNotUDP (AllowanceCategory tuple) r')
      else
        if allowanceForRtype (cfg r') (AllowanceCategory tuple) =? 0
        then (Send, ipr, RTNotConfigured,
              incrementDebitStats Send ipr RTNotConfigured (AllowanceCategory tuple) r')
        else
          let '(b, slip, err, r2) :=
            debit (allowanceForRtype (cfg r') (AllowanceCategory tuple))
              (accountToken ip (Type_ tuple) (ToLower (SalientName tuple))
                 (AllowanceCategory tuple)) w r' in
          match err with
          | Some _ =>
              (Drop, ipr, RTCacheFull,
               incrementDebitStats Drop ipr RTCacheFull (AllowanceCategory tuple) r2)
          | None =>
              if b <? 0
              then (if slip then Slip else Drop, ipr, RTRateLimit,
                    incrementDebitStats (if slip then Slip else Drop) ipr RTRateLimit
                      (AllowanceCategory tuple) r2)
              else (Send, ipr, RTOk,
                    incrementDebitStats Send ipr RTOk (AllowanceCategory tuple) r2)
          end in
    (stage r1').1 = (stage r2').1
    /\ cfg (stage r1').2 = cfg (stage r2').2
    /\ table (stage r1').2 = table (stage r2').2).
  { intros ipr ip r1' r2' Ec' Et'. cbv beta zeta. rewrite Ec'.
    destruct (negb _); [repeat split; assumption|].
    destruct (_ =? 0); [repeat split; assumption|].
    destruct (debit_table_only (allowanceForRtype (cfg r2') (AllowanceCategory tuple))
                (accountToken ip (Type_ tuple) (ToLower (SalientName tuple))
                   (AllowanceCategory tuple)) w r1' r2' Ec' Et') as (E1 & E2 & E3).
    destruct (debit _ _ w r1') as [[[b sl] e] q1], (debit _ _ w r2') as [[[b' sl'] e'] q2].
    cbn [fst snd] in *. injection E1 as -> -> ->.
    destruct e' as [e'|]; [repeat split; assumption|].
    destruct (b' <? 0); repeat split; assumption. }
  cbv beta zeta in Hstage. unfold Debit.
  replace (requestsInterval (cfg r1)) with (requestsInterval (cfg r2))
    by (rewrite Ec; reflexivity).
  replace (addrPrefix (cfg r1) (Addr_String src))
    with (addrPrefix (cfg r2) (Addr_String src)) by (rewrite Ec; reflexivity).
  destruct (negb (requestsInterval (cfg r2) =? 0)).
  - destruct (debit_table_only (requestsInterval (cfg r2))
                (addrPrefix (cfg r2) (Addr_String src)) w r1 r2 Ec Et)
      as (E1 & E2 & E3).
    destruct (debit _ _ w r1) as [[[b sl] e] q1], (debit _ _ w r2) as [[[b' sl'] e'] q2].
    cbn [fst snd] in *. injection E1 as -> _ ->.
    destruct e' as [e'|]; [repeat split; assumption|].
    destruct (b' <? 0); [repeat split; assumption|].
    apply Hstage; assumption.
  - apply Hstage; assumption.
Qed.

(** X14. Reading the statistics, with or without zeroing them, never
    changes what [Debit] decides next nor the table it leaves; a read
    with zeroing leaves every counter at 0, and the copy returned
    carries the counters as they were and the current length of the
    table. *)
Theorem GetStats_transparent zeroAfter w src tuple r :
  (Debit w src tuple (GetStats zeroAfter r).2).1 = (Debit w src tuple r).1
  /\ table (Debit w src tuple (GetStats zeroAfter r).2).2
     = table (Debit w src tuple r).2
  /\ same_counters (stats r) (GetStats zeroAfter r).1
  /\ CacheLength (GetStats zeroAfter r).1 = cache.Len (table r)
  /\ stats (GetStats true r).2 = zero.
Proof.
  assert (Hg : cfg (GetStats zeroAfter r).2 = cfg r
               /\ table (GetStats zeroAfter r).2 = table r)
    by (unfold GetStats, Copy; destruct zeroAfter; split; reflexivity).
  destruct Hg as [Ec Et].
  destruct (Debit_table_only w src tuple _ _ Ec Et) as (E1 & _ & E3).
  split; [exact E1|]. split; [exact E3|].
  unfold GetStats, Copy, same_counters. destruct zeroAfter; repeat split.
Qed.

End StatsTransparent.

(** ** Adding statistics *)

Lemma add_from_lookup from : forall ix c i,
  add_from ix from c !! i
  = if decide (ix <= i < ix + length from)%nat
    then (fun x => wrap64 (x + default 0 (from !! (i - ix)%nat))) <$> c !! i
    else c !! i.
Proof.
  induction from as [|v from IH]; intros ix c i; cbn [add_from length].
  - destruct (decide _); [lia|reflexivity].
  - rewrite IH. destruct (decide (S ix <= i < S ix + length from)%nat) as [Hin|Hout].
    + destruct (decide (ix <= i < ix + S (length from))%nat); [|lia].
      rewrite list_lookup_alter_ne by lia.
      replace (i - ix)%nat with (S (i - S ix)) by lia. reflexivity.
    + destruct (decide (ix <= i < ix + S (length from))%nat) as [Hin'|Hout'].
      * assert (i = ix) as -> by lia.
        rewrite list_lookup_alter_eq, Nat.sub_diag. reflexivity.
      * rewrite list_lookup_alter_ne by lia. reflexivity.
Qed.

Lemma add_from_length from : forall ix c, length (add_from ix from c) = length c.
Proof.
  induction from as [|v from IH]; intros ix c; cbn [add_from]; [reflexivity|].
  rewrite IH. apply length_alter.
Qed.

Lemma add_from_incr_commute from c i :
  length from = length c ->
  add_from 0 (incr i from) c = incr i (add_from 0 from c).
Proof.
  intros Hlen. apply list_eq. intros j. unfold incr.
  rewrite add_from_lookup, length_alter, Nat.sub_0_r.
  destruct (decide (Z.to_nat i = j)) as [<-|Hne].
  - rewrite !list_lookup_alter_eq, add_from_lookup, Nat.sub_0_r.
    destruct (decide (0 <= Z.to_nat i < 0 + length from)%nat) as [Hin|Hout].
    + destruct (lookup_lt_is_Some_2 from (Z.to_nat i) ltac:(lia)) as [v Hv].
      destruct (lookup_lt_is_Some_2 c (Z.to_nat i) ltac:(lia)) as [x Hx].
      rewrite Hv, Hx. cbn. f_equal.
      destruct (wrap64_spec (v + 1)) as [k1 ->].
      destruct (wrap64_spec (x + v)) as [k2 ->].
      apply wrap64_eqm.
      replace (x + (v + 1 + k1 * 2 ^ 64) - (x + v + k2 * 2 ^ 64 + 1))
        with ((k1 - k2) * 2 ^ 64) by lia.
      apply Z.mod_mul. lia.
    + rewrite (lookup_ge_None_2 c) by lia. reflexivity.
  - rewrite !list_lookup_alter_ne by exact Hne.
    rewrite add_from_lookup, Nat.sub_0_r. reflexivity.
Qed.

(** X15. Adding statistics commutes with counting a debit: for
    records whose arrays have their sizes, adding a record in which a
    debit was counted gives the record obtained by adding first and
    counting the same debit afterwards. *)
Theorem Add_incrementDebit_commute act ipr rtr ac from c :
  stats_sized from -> stats_sized c ->
  Add (incrementDebit act ipr rtr ac from) c
  = incrementDebit act ipr rtr ac (Add from c).
Proof.
  intros (F1 & F2 & F3 & F4) (C1 & C2 & C3 & C4).
  unfold Add, incrementDebit.
  cbn [RPS Actions IPReasons RTReasons CacheLength Evictions].
  f_equal;
    match goal with
    | |- context [if ?b then _ else _] => destruct b
    end;
    first [reflexivity | apply add_from_incr_commute; congruence].
Qed.

(** The hypotheses of [Add_incrementDebit_commute] hold for records of
    zeroes. *)
Lemma Add_incrementDebit_commute_witness :
  Add (incrementDebit Slip IPOk RTRateLimit AllowanceError zero) zero
  = incrementDebit Slip IPOk RTRateLimit AllowanceError (Add zero zero).
Proof.
  apply Add_incrementDebit_commute; repeat split.
Defined.

(** The addition test of the package: a record added twice, with the
    cache length of the receiver reset in between. *)
Example Add_test :
  let a := {| RPS := [1; 0; 0; 0; 0]; Actions := [0; 6; 7];
              IPReasons := [0; 0; 2; 0; 0]; RTReasons := [0; 3; 0; 0; 0; 0];
              CacheLength := 4; Evictions := 5 |} in
  Add a (Add a zero)
  = {| RPS := [2; 0; 0; 0; 0]; Actions := [0; 12; 14];
       IPReasons := [0; 0; 4; 0; 0]; RTReasons := [0; 6; 0; 0; 0; 0];
       CacheLength := 4; Evictions := 10 |}.
Proof. vm_compute. reflexivity. Qed.

(** ** The port of the client, and the order of settings *)

Lemma last_index_from_absent c s :
  net.contains_byte c s = false ->
  forall i acc, GoStrings.last_index_from i c s acc = acc.
Proof.
  induction s as [|a s IH]; intros Hs i acc; cbn [GoStrings.last_index_from].
  - reflexivity.
  - cbn [net.contains_byte] in Hs. apply orb_false_iff in Hs as [Ha Hs].
    rewrite Ha. apply IH. exact Hs.
Qed.

Lemma last_index_from_last c host p :
  net.contains_byte c p = false ->
  forall i acc,
    GoStrings.last_index_from i c (host +:+ String c p) acc
    = i + Z.of_nat (String.length host).
Proof.
  intros Hp. induction host as [|a host IH]; intros i acc.
  - rewrite append_nil_l. cbn [GoStrings.last_index_from String.length].
    rewrite Ascii.eqb_refl, last_index_from_absent by exact Hp. lia.
  - rewrite append_cons. cbn [GoStrings.last_index_from String.length].
    rewrite IH. lia.
Qed.

Lemma substring_append_l rest : forall host n m,
  (n + m <= String.length host)%nat ->
  String.substring n m (host +:+ rest) = String.substring n m host.
Proof.
  induction host as [|a host IH]; intros n m Hnm; cbn [String.length] in Hnm.
  - assert (n = 0%nat) as -> by lia. assert (m = 0%nat) as -> by lia.
    rewrite append_nil_l. destruct rest; reflexivity.
  - rewrite append_cons. destruct n as [|n]; cbn [String.substring].
    + destruct m as [|m]; [reflexivity|]. f_equal. apply IH. lia.
    + apply IH. lia.
Qed.

Lemma addrPrefix_of_host c host p :
  net.contains_byte ":" p = false ->
  addrPrefix c (host +:+ String ":" p) = addrPrefix c (host +:+ ":").
Proof.
  intros Hp. unfold addrPrefix, GoStrings.LastIndex. cbv zeta.
  rewrite (last_index_from_last ":" host p Hp).
  rewrite (last_index_from_last ":" host EmptyString eq_refl).
  destruct (0 + Z.of_nat (String.length host) <? 4) eqn:Hlt; [reflexivity|].
  apply Z.ltb_ge in Hlt. unfold GoStrings.slice.
  rewrite !(substring_append_l _ host) by lia. reflexivity.
Qed.

(** X16. [addrPrefix] does not look at the port: two address strings
    with the same host part before the last colon have the same prefix,
    whatever follows that colon. *)
Theorem addrPrefix_ignores_port c host p1 p2 :
  net.contains_byte ":" p1 = false ->
  net.contains_byte ":" p2 = false ->
  addrPrefix c (host +:+ String ":" p1) = addrPrefix c (host +:+ String ":" p2).
Proof.
  intros H1 H2.
  rewrite (addrPrefix_of_host c host p1 H1), (addrPrefix_of_host c host p2 H2).
  reflexivity.
Qed.

(** The hypotheses of [addrPrefix_ignores_port] hold for two ports of
    one client, which is then in the same network for both. *)
Lemma addrPrefix_ignores_port_witness :
  addrPrefix NewConfig ("192.0.2.77" +:+ String ":" "53")
  = addrPrefix NewConfig ("192.0.2.77" +:+ String ":" "40001")
  /\ addrPrefix NewConfig "192.0.2.77:53" = "192.0.2.0".
Proof.
  split.
  - apply (addrPrefix_ignores_port NewConfig "192.0.2.77" "53" "40001");
      reflexivity.
  - vm_compute. reflexivity.
Defined.

Section SettingsOrder.

Context `{F : strconv.Float64}.

Ltac literal s :=
  lazymatch s with
  | EmptyString => idtac
  | String _ ?r => literal r
  end.

Ltac eval_keywords :=
  repeat match goal with
  | |- context [String.eqb ?a ?b] =>
      literal a; literal b;
      let v := eval vm_compute in (String.eqb a b) in
      change (String.eqb a b) with v
  end;
  cbn [orb andb].

Ltac split_arguments :=
  repeat match goal with
  | |- context [strconv.Atoi ?a] => destruct (strconv.Atoi a)
  | |- context [getIntervalArg ?k ?a] => destruct (getIntervalArg k a) as [? [?|]]
  | |- context [if ?b then (_, Some _) else _] => destruct b
  end;
  cbn; split; reflexivity.

Ltac second_keyword k2 s :=
  let E := fresh "E" in
  destruct (String.eqb k2 s) eqn:E;
  [ apply String.eqb_eq in E; subst k2;
    first [congruence | eval_keywords; split_arguments]
  | ].

Ltac second_keywords k2 :=
  second_keyword k2 "window";
  second_keyword k2 "ipv4-prefix-length";
  second_keyword k2 "ipv6-prefix-length";
  second_keyword k2 "responses-per-second";
  second_keyword k2 "nodata-per-second";
  second_keyword k2 "nxdomains-per-second";
  second_keyword k2 "referrals-per-second";
  second_keyword k2 "errors-per-second";
  second_keyword k2 "slip-ratio";
  second_keyword k2 "requests-per-second";
  second_keyword k2 "max-table-size";
  split_arguments.

Ltac first_keyword k1 k2 s :=
  let E := fresh "E" in
  destruct (String.eqb k1 s) eqn:E;
  [ apply String.eqb_eq in E; subst k1; eval_keywords; second_keywords k2
  | ].

(** X17. Settings of different keywords can be made in either order:
    the record is the same afterwards, and whether the second one is
    accepted, and with which error it is refused, does not depend on
    the first. *)
Theorem SetValue_commute k1 a1 k2 a2 c :
  k1 <> k2 ->
  (SetValue k2 a2 (SetValue k1 a1 c).1).1 = (SetValue k1 a1 (SetValue k2 a2 c).1).1
  /\ (SetValue k2 a2 (SetValue k1 a1 c).1).2 = (SetValue k2 a2 c).2.
Proof.
  intros Hne.
  destruct c as [w p4 p6 rs nd nx rf er rq sr mt ndS nxS rfS erS nf].
  unfold SetValue.
  first_keyword k1 k2 "window".
  first_keyword k1 k2 "ipv4-prefix-length".
  first_keyword k1 k2 "ipv6-prefix-length".
  first_keyword k1 k2 "responses-per-second".
  first_keyword k1 k2 "nodata-per-second".
  first_keyword k1 k2 "nxdomains-per-second".
  first_keyword k1 k2 "referrals-per-second".
  first_keyword k1 k2 "errors-per-second".
  first_keyword k1 k2 "slip-ratio".
  first_keyword k1 k2 "requests-per-second".
  first_keyword k1 k2 "max-table-size".
  cbn [fst snd]. second_keywords k2.
Qed.

End SettingsOrder.

(** The hypothesis of [SetValue_commute] holds for the window and the
    slip ratio, set in either order on the defaults. *)
Lemma SetValue_commute_witness :
  (SetValue (F := decimal_rates) "slip-ratio" "3"
     (SetValue (F := decimal_rates) "window" "30" NewConfig).1).1
  = (SetValue (F := decimal_rates) "window" "30"
       (SetValue (F := decimal_rates) "slip-ratio" "3" NewConfig).1).1
  /\ (SetValue (F := decimal_rates) "slip-ratio" "3"
        (SetValue (F := decimal_rates) "window" "30" NewConfig).1).2
     = (SetValue (F := decimal_rates) "slip-ratio" "3" NewConfig).2.
Proof.
  apply (SetValue_commute (F := decimal_rates) "window" "30" "slip-ratio" "3"
           NewConfig).
  discriminate.
Defined.
